(** * Verification of syzygy/scripts/asan/minidump_symbolizer.py

    A shallow embedding of the SyzyASan minidump symbolizer: the
    marker-framed command channel to cdb ([_Command]), the stack-frame
    normalizer ([NormalizeChromeSymbol], [NormalizeStackTrace]) with the two
    regular expressions it relies on, and the orchestrator
    ([ProcessMinidump]).

    The last part covers syzygy/scripts/test_bot/chrome_repo.py: the
    listing of a build repository ([GetBuildIndex]), the paths of the
    files of a build ([_GetFilePath]) and the search for the latest
    complete build ([GetLatestBuildId]).

    The scripts are Python 2: a [str] is a byte string, modelled as
    [list ascii]. *)

From Stdlib Require Import Ascii String.
From Stdlib Require Import List ZArith Lia Bool Arith.
From Stdlib Require Import HexadecimalString.
From Stdlib Require Import Permutation Sorted.
Import ListNotations.

Set Implicit Arguments.

Local Open Scope list_scope.
Local Open Scope char_scope.

(** ** Python byte strings *)

Definition str := list ascii.

(** String literals of the source are written [py "..."]. *)
Definition py (s : string) : str := list_ascii_of_string s.
Arguments py s%_string_scope.

Module PyStr.

Definition in_range (lo hi a : ascii) : bool :=
  (nat_of_ascii lo <=? nat_of_ascii a)%nat &&
  (nat_of_ascii a <=? nat_of_ascii hi)%nat.

(** [str.isspace] of a Python 2 byte string in the C locale:
    space, \t, \n, \v, \f, \r. *)
Definition isspace (a : ascii) : bool :=
  (a =? " ") || in_range "009" "013" a.

(** ASCII lowering and raising, as [re.IGNORECASE] and [%X] use them. *)
Definition lower (a : ascii) : ascii :=
  if in_range "A" "Z" a then ascii_of_nat (nat_of_ascii a + 32) else a.

Definition upper (a : ascii) : ascii :=
  if in_range "a" "z" a then ascii_of_nat (nat_of_ascii a - 32) else a.

(** [s.rstrip()]: drop the trailing run of whitespace. *)
Fixpoint rstrip (s : str) : str :=
  match s with
  | [] => []
  | a :: t =>
      match rstrip t with
      | [] => if isspace a then [] else [a]
      | t' => a :: t'
      end
  end.

(** [s.startswith(p)]. *)
Fixpoint startswith (p s : str) : bool :=
  match p, s with
  | [], _ => true
  | _ :: _, [] => false
  | a :: p', b :: s' => (a =? b) && startswith p' s'
  end.

(** [sub in s]. *)
Fixpoint contains (sub s : str) : bool :=
  startswith sub s ||
  match s with
  | [] => false
  | _ :: t => contains sub t
  end.

(** [s.find(sub)]: lowest index of an occurrence, or -1. *)
Fixpoint find (sub s : str) : Z :=
  if startswith sub s then 0%Z
  else match s with
       | [] => (-1)%Z
       | _ :: t => let r := find sub t in
                   if (r =? -1)%Z then (-1)%Z else (r + 1)%Z
       end.

(** ['%X' % n]: upper-case hexadecimal, no prefix. *)
Definition format_X (n : Z) : str :=
  map upper (list_ascii_of_string (NilZero.string_of_int (Z.to_hex_int n))).

End PyStr.

(** ** A backtracking matcher for the fragment of [re] the script uses

    Python's [re] is a backtracking engine: quantifiers are greedy and give
    characters back one at a time, the left branch of [|] is tried before the
    right one, and the first complete match found in that order is the
    result.  The matcher below is written in continuation-passing style so
    that this order is explicit. *)

Module Re.

Inductive regex : Type :=
| Empty                                  (* the empty pattern *)
| Class (p : ascii -> bool)              (* one character of a set *)
| Cat (r1 r2 : regex)                    (* r1 r2 *)
| Or (r1 r2 : regex)                     (* r1|r2 *)
| Star (r : regex)                       (* r*  (greedy) *)
| Named (name : string) (r : regex)      (* (?P<name>r) *)
| Dollar.                                (* $ without re.MULTILINE *)

Arguments Named name%_string_scope r.

(** [r+] and [r?], both greedy. *)
Definition Plus (r : regex) : regex := Cat r (Star r).
Definition Maybe (r : regex) : regex := Or r Empty.

(** Named groups set so far, most recent first. *)
Definition captures := list (string * str).

Fixpoint group (c : captures) (name : string) : option str :=
  match c with
  | [] => None
  | (n, v) :: c' => if String.eqb n name then Some v else group c' name
  end.

Arguments group c name%_string_scope.

(** [$] matches at the end of the string and just before a newline that
    is the last character. *)
Definition at_end (s : str) : bool :=
  match s with
  | [] => true
  | [a] => (a =? "010")%char
  | _ => false
  end.

Section Matcher.
Variable R : Type.

(** [rmatch r s c k]: match [r] at the head of [s] with groups [c], then
    continue with [k] on what is left; [None] makes the matcher
    backtrack.  An iteration of [r*] that consumes nothing is refused
    (no pattern of the script has one). *)
Fixpoint rmatch (r : regex) (s : str) (c : captures)
         (k : str -> captures -> option R) {struct r} : option R :=
  match r with
  | Empty => k s c
  | Class p =>
      match s with
      | a :: t => if p a then k t c else None
      | [] => None
      end
  | Cat r1 r2 => rmatch r1 s c (fun s1 c1 => rmatch r2 s1 c1 k)
  | Or r1 r2 =>
      match rmatch r1 s c k with
      | Some x => Some x
      | None => rmatch r2 s c k
      end
  | Star r1 =>
      (fix iter (n : nat) (s : str) (c : captures) {struct n} : option R :=
         match n with
         | O => k s c
         | S n' =>
             match rmatch r1 s c
                     (fun s1 c1 => if (length s1 <? length s)%nat
                                   then iter n' s1 c1 else None) with
             | Some x => Some x
             | None => k s c
             end
         end) (length s) s c
  | Named name r1 =>
      rmatch r1 s c
        (fun s1 c1 => k s1 ((name, firstn (length s - length s1) s) :: c1))
  | Dollar => if at_end s then k s c else None
  end.

(** The loop of [Star] by itself: [n] bounds the iterations left. *)
Definition iter (r1 : regex) (k : str -> captures -> option R) :=
  fix iter (n : nat) (s : str) (c : captures) {struct n} : option R :=
    match n with
    | O => k s c
    | S n' =>
        match rmatch r1 s c
                (fun s1 c1 => if (length s1 <? length s)%nat
                              then iter n' s1 c1 else None) with
        | Some x => Some x
        | None => k s c
        end
    end.
End Matcher.

(** [pattern.match(s)]: anchored at the start; the groups of the match. *)
Definition re_match (r : regex) (s : str) : option captures :=
  rmatch r s [] (fun _ c => Some c).

(** Length of the match of [r] at the head of [s], if any. *)
Definition match_length (r : regex) (s : str) : option nat :=
  rmatch r s [] (fun s1 _ => Some (length s - length s1)).

(** [pattern.sub(repl, s)] for a constant replacement: scan left to right,
    replace each leftmost match and resume right after it.  [skip] counts
    the characters of the current match still to be passed over.  (The
    patterns of the script never match the empty string.) *)
Fixpoint sub_from (r : regex) (repl : str) (skip : nat) (s : str) : str :=
  match s with
  | [] => []
  | a :: t =>
      match skip with
      | S n => sub_from r repl n t
      | O =>
          match match_length r s with
          | Some (S n) => repl ++ sub_from r repl n t
          | _ => a :: sub_from r repl O t
          end
      end
  end.

Definition re_sub (r : regex) (repl s : str) : str := sub_from r repl O s.

(** Character sets. *)
Definition chr (a : ascii) : regex := Class (fun b => (b =? a)%char).
Definition chr_i (a : ascii) : regex :=           (* under IGNORECASE *)
  Class (fun b => (PyStr.lower b =? PyStr.lower a)%char).
Definition is_hex (a : ascii) : bool :=           (* [0-9A-F], IGNORECASE *)
  PyStr.in_range "0" "9" a || PyStr.in_range "a" "f" (PyStr.lower a).
Definition not_space (a : ascii) : bool := negb (a =? " ")%char.
Definition not_newline (a : ascii) : bool := negb (a =? "010")%char.

(** A literal word under IGNORECASE. *)
Fixpoint lit_i (w : str) : regex :=
  match w with
  | [] => Empty
  | a :: w' => Cat (chr_i a) (lit_i w')
  end.

(** *** What a successful run of the matcher means

    [den r p rest c c']: [r] matches exactly the characters [p] when
    [rest] follows them, and takes the groups from [c] to [c'].  ([rest]
    matters to [$] only.) *)
Inductive star_of (D : str -> str -> captures -> captures -> Prop)
  : str -> str -> captures -> captures -> Prop :=
| star_done rest c : star_of D [] rest c c
| star_more p1 p2 rest c c1 c2 :
    D p1 (p2 ++ rest) c c1 ->
    star_of D p2 rest c1 c2 ->
    star_of D (p1 ++ p2) rest c c2.

Fixpoint den (r : regex) (p rest : str) (c c' : captures) {struct r} : Prop :=
  match r with
  | Empty => p = [] /\ c' = c
  | Class f => exists a, p = [a] /\ f a = true /\ c' = c
  | Cat r1 r2 =>
      exists p1 p2 c1,
        p = p1 ++ p2 /\ den r1 p1 (p2 ++ rest) c c1 /\ den r2 p2 rest c1 c'
  | Or r1 r2 => den r1 p rest c c' \/ den r2 p rest c c'
  | Star r1 => star_of (den r1) p rest c c'
  | Named name r1 => exists c1, den r1 p rest c c1 /\ c' = (name, p) :: c1
  | Dollar => p = [] /\ c' = c /\ at_end rest = true
  end.

(** The greedy loop of [r*] when [r] is a single character set, written
    on the string: go as far as the set allows, then offer the
    continuation what is left, the shortest remainder first. *)
Fixpoint star_class (R : Type) (f : ascii -> bool) (s : str)
         (k : str -> option R) : option R :=
  match s with
  | a :: t =>
      if f a
      then match star_class f t k with
           | Some x => Some x
           | None => k s
           end
      else k s
  | [] => k []
  end.

End Re.

Import Re.

(** ** minidump_symbolizer.py: constants *)

Definition _SENTINEL : str := py "ENDENDEND".
Definition _BAD_ACCESS_INFO_FRAME : str :=
  py "asan_rtl!agent::asan::AsanRuntime::OnError".
Definition _GET_BAD_ACCESS_INFO_COMMAND : str := py "dt error_info".
Definition _GET_ALLOC_STACK_COMMAND : str :=
  py "dps @@(&error_info->alloc_stack) l@@(error_info->alloc_stack_size);".
Definition _GET_FREE_STACK_COMMAND : str :=
  py "dps @@(&error_info->free_stack) l@@(error_info->free_stack_size);".

(** [_STACK_FRAME_RE], compiled with VERBOSE | IGNORECASE:
<<
    ^
    (?P<args>([0-9A-F]+\ +)+)
    (?:
      (?P<module>[^ ]+)(!(?P<location> .* ))? |
      (?P<address>0x[0-9a-f]+)
    )
    $
>>
    (the location group is written with blanks around its body here, which
    VERBOSE ignores).  It is only ever used through [match], which anchors at
    the start. *)
Definition arg_field : regex :=                 (* [0-9A-F]+\ + *)
  Cat (Plus (Class is_hex)) (Plus (chr " ")).
Definition sf_args : regex := Named "args" (Plus arg_field).
Definition sf_module : regex :=
  Cat (Named "module" (Plus (Class not_space)))
      (Maybe (Cat (chr "!") (Named "location" (Star (Class not_newline))))).
Definition sf_address : regex :=
  Named "address" (Cat (chr "0") (Cat (chr_i "x") (Plus (Class is_hex)))).
Definition _STACK_FRAME_RE : regex :=
  Cat sf_args (Cat (Or sf_module sf_address) Dollar).

(** [_CHROME_RE = re.compile('(chrome[_0-9A-F]+)', VERBOSE | IGNORECASE)]. *)
Definition is_chrome_suffix (a : ascii) : bool := (a =? "_")%char || is_hex a.
Definition _CHROME_RE : regex :=
  Cat (lit_i (py "chrome")) (Plus (Class is_chrome_suffix)).

(** ** The stack frame normalizer *)

Definition NormalizeChromeSymbol (symbol : str) : str :=
  re_sub _CHROME_RE (py "chrome_dll") symbol.

(** Truth value of an optional string: [None] and [''] are both false. *)
Definition truthy (o : option str) : bool :=
  match o with
  | Some (_ :: _) => true
  | _ => false
  end.

(** The body of the loop of [NormalizeStackTrace] once the line has matched:
    from the groups of the match to the text appended to [output_trace].
    (A match sets the module group or the address group, so the empty
    default for a module that is not set is never used.) *)
Definition render_frame (address module location : option str) : str :=
  if truthy address then
    match address with Some a => a | None => [] end
  else
    let module := NormalizeChromeSymbol
                    (match module with Some m => m | None => [] end) in
    let location :=
      if truthy location
      then NormalizeChromeSymbol
             (match location with Some l => l | None => [] end)
      else py "unknown" in
    module ++ py "!" ++ location.

(** One turn of the [for line in stack_trace] loop. *)
Definition normalize_step (output_trace : list str) (line : str) : list str :=
  match re_match _STACK_FRAME_RE line with
  | None => output_trace                                   (* continue *)
  | Some m =>
      output_trace ++
      [render_frame (group m "address") (group m "module") (group m "location")]
  end.

Definition NormalizeStackTrace (stack_trace : list str) : list str :=
  fold_left normalize_step stack_trace [].

(** ** The debugger subprocess

    [subprocess.Popen] gives the script a child process with piped standard
    streams.  What the script can observe of it is the sequence of lines on
    its standard output; what it does to it is write to its standard input
    and wait for it.  The child is modelled by the lines it is going to
    print (a script of replies) and the log of what was done to it. *)

Inductive event : Type :=
| Write (data : str)          (* debugger.stdin.write(data) *)
| Wait.                       (* debugger.wait() *)

Record debugger : Type := mkDebugger {
  argv : list str;            (* the command line it was started with *)
  stdout : list str;          (* lines not read yet, each as readline gives it *)
  log : list event            (* writes and waits so far, oldest first *)
}.

Definition Popen (args : list str) (script : list str) : debugger :=
  {| argv := args; stdout := script; log := [] |}.

(** [debugger.stdout.readline()]: the next line; at end of file the empty
    string, any number of times. *)
Definition readline (d : debugger) : str * debugger :=
  match stdout d with
  | [] => ([], d)
  | l :: rest => (l, {| argv := argv d; stdout := rest; log := log d |})
  end.

(** The child after some of its output has been read: [rest] is left. *)
Definition advance (d : debugger) (rest : list str) : debugger :=
  {| argv := argv d; stdout := rest; log := log d |}.

Definition record (e : event) (d : debugger) : debugger :=
  {| argv := argv d; stdout := stdout d; log := log d ++ [e] |}.

(** ** Computations over the subprocess

    A computation ends with a value, with a Python exception, or is still
    inside a [while True] loop when the fuel is used up; in each case the
    state of the subprocess at that point is kept. *)

Inductive exn : Type := IndexError | TypeError.

Inductive outcome (A : Type) : Type :=
| Ok (a : A) (d : debugger)
| Raise (e : exn) (d : debugger)
| Hang (d : debugger).

Arguments Ok {A} a d.
Arguments Raise {A} e d.
Arguments Hang {A} d.

Definition state_of {A} (o : outcome A) : debugger :=
  match o with
  | Ok _ d | Raise _ d | Hang d => d
  end.

Definition M (A : Type) : Type := debugger -> outcome A.

Definition ret {A} (a : A) : M A := fun d => Ok a d.
Definition raise {A} (e : exn) : M A := fun d => Raise e d.
Definition bind {A B} (m : M A) (f : A -> M B) : M B :=
  fun d => match m d with
           | Ok a d1 => f a d1
           | Raise e d1 => Raise e d1
           | Hang d1 => Hang d1
           end.

Notation "x <- m ;; k" := (bind m (fun x => k))
  (at level 61, m at next level, right associativity).
Notation "m ;; k" := (bind m (fun _ => k))
  (at level 61, right associativity).

(** The child is one that has started, takes what is written to it and
    ends when it is waited for: the [OSError] of a [Popen] that cannot
    start [cdb], the [IOError] of a write to a closed pipe and a [wait]
    that does not return are outside this model, and so are all statements
    below about runs in which they happen. *)
Definition stdin_write (data : str) : M unit :=
  fun d => Ok tt (record (Write data) d).
Definition wait : M unit :=
  fun d => Ok tt (record Wait d).

Definition nl : str := ["010"%char].

(** ** The command channel *)

(** The [while True] loop of [_Command]; [lines] is the list built so far. *)
Fixpoint read_reply (fuel : nat) (lines : list str) : M (list str) :=
  fun d =>
    match fuel with
    | O => Hang d
    | S fuel' =>
        let (raw, d1) := readline d in
        let line := PyStr.rstrip raw in
        if PyStr.contains _SENTINEL line then Ok lines d1          (* break *)
        else read_reply fuel' (lines ++ [line]) d1
    end.

Definition _Command (fuel : nat) (command : str) : M (list str) :=
  stdin_write (command ++ py "; .echo " ++ _SENTINEL ++ nl) ;;
  read_reply fuel [].

(** ** The orchestrator *)

Record ASanReport : Type := mkASanReport {
  bad_access_info : list str;
  crash_stack : list str;
  alloc_stack : list str;
  free_stack : list str
}.

(** Lines 120-125: count the frames in front of the first one that holds
    [_BAD_ACCESS_INFO_FRAME]. *)
Fixpoint scan_frames (stack : list str) (bad_access_info_frame : Z) : Z :=
  match stack with
  | [] => bad_access_info_frame
  | line :: rest =>
      if (PyStr.find _BAD_ACCESS_INFO_FRAME line =? -1)%Z
      then scan_frames rest (bad_access_info_frame + 1)%Z
      else bad_access_info_frame                                   (* break *)
  end.

(** [l.pop(0)]: the first element and the rest; [IndexError] on []. *)
Definition list_pop0 (l : list str) : exn + (str * list str) :=
  match l with
  | [] => inl IndexError
  | h :: t => inr (h, t)
  end.

Definition lift {A} (r : exn + A) : M A :=
  match r with
  | inl e => raise e
  | inr a => ret a
  end.

(** Lines 137-138 and 149-152 taken together: drop the header line of the
    error-info dump and build the report. *)
Definition assemble_report (bad_access_dump crash alloc free : list str)
  : exn + ASanReport :=
  match list_pop0 bad_access_dump with
  | inl e => inl e
  | inr (_, rest) =>
      inr {| bad_access_info := rest; crash_stack := crash;
             alloc_stack := alloc; free_stack := free |}
  end.

(** Lines 106-118: symbol setup, line numbers, first [kv]. *)
Definition capture_crash_stack (fuel : nat) (pdb_path : option str)
  : M (list str) :=
  match pdb_path with
  | Some p =>
      _Command fuel (py ".sympath " ++ p) ;;
      _Command fuel (py ".reload /fi chrome.dll") ;;
      _Command fuel (py ".reload /fi syzyasan_rtl.dll") ;;
      _Command fuel (py ".symfix") ;;
      ret tt
  | None => ret tt
  end ;;
  _Command fuel (py ".lines") ;;
  _Command fuel (py "kv").

(** Lines 127-133: the branch taken when the counter equals -1.  Its
    [print] formats [minidump_filename], a path string, with [%d], which
    raises [TypeError] after the session has been ended. *)
Definition frame_not_found (minidump_filename : str) : M (option ASanReport) :=
  stdin_write (py "q" ++ nl) ;;
  wait ;;
  raise TypeError.

(** Lines 135-154. *)
Definition extract_report (fuel : nat) (bad_access_info_frame : Z)
  : M (option ASanReport) :=
  _Command fuel (py ".frame " ++ PyStr.format_X bad_access_info_frame) ;;
  bad_access_info <- _Command fuel _GET_BAD_ACCESS_INFO_COMMAND ;;
  popped <- lift (list_pop0 bad_access_info) ;;
  let bad_access_info := snd popped in
  raw_alloc <- _Command fuel _GET_ALLOC_STACK_COMMAND ;;
  let alloc_stack := NormalizeStackTrace raw_alloc in
  raw_free <- _Command fuel _GET_FREE_STACK_COMMAND ;;
  let free_stack := NormalizeStackTrace raw_free in
  _Command fuel (py ".ecxr") ;;
  raw_crash <- _Command fuel (py "kv") ;;
  let crash_stack := NormalizeStackTrace raw_crash in
  stdin_write (py "q" ++ nl) ;;
  wait ;;
  ret (Some {| bad_access_info := bad_access_info;
               crash_stack := crash_stack;
               alloc_stack := alloc_stack;
               free_stack := free_stack |}).

(** Lines 120-154: what happens once the first [kv] reply is in. *)
Definition locate_and_extract (fuel : nat) (minidump_filename : str)
           (asan_crash_stack : list str) : M (option ASanReport) :=
  let bad_access_info_frame :=
    scan_frames (NormalizeStackTrace asan_crash_stack) 0 in
  if (bad_access_info_frame =? -1)%Z
  then frame_not_found minidump_filename
  else extract_report fuel bad_access_info_frame.

(** [ProcessMinidump(minidump_filename, cdb_path, pdb_path)] against a child
    that prints [script]; [fuel] bounds the turns of each read loop. *)
Definition ProcessMinidump (fuel : nat) (minidump_filename cdb_path : str)
           (pdb_path : option str) (script : list str)
  : outcome (option ASanReport) :=
  let debugger := Popen [cdb_path; py "-z"; minidump_filename] script in
  (asan_crash_stack <- capture_crash_stack fuel pdb_path ;;
   locate_and_extract fuel minidump_filename asan_crash_stack) debugger.

(** ** The loop of [NormalizeStackTrace], one line at a time *)

(** The body of the loop as a function of the line (lines 79-94): the
    frame text it appends for a line that the pattern matches, nothing for
    another line. *)
Definition parse_and_render (line : str) : option str :=
  match re_match _STACK_FRAME_RE line with
  | None => None
  | Some m =>
      Some (render_frame (group m "address") (group m "module")
                         (group m "location"))
  end.

(** What the loop has appended when it is through with [lines]. *)
Definition frames_line_by_line (lines : list str) : list str :=
  flat_map (fun line => match parse_and_render line with
                        | Some f => [f]
                        | None => []
                        end) lines.

(** ** Notions used in the statements *)

(** A string that ends in a whitespace character. *)
Fixpoint ends_in_space (s : str) : bool :=
  match s with
  | [] => false
  | a :: t =>
      match t with
      | [] => PyStr.isspace a
      | _ :: _ => ends_in_space t
      end
  end.

(** The reply to one command as the child prints it: the lines, then the
    echoed marker. *)
Definition reply (lines : list str) : list str :=
  map (fun l => l ++ nl) lines ++ [_SENTINEL ++ nl].

(** The write of the quit command. *)
Definition quit : event := Write (py "q" ++ nl).

(** The session is over: the last two things done to the child are the
    write of the quit command and the wait, and neither was done before. *)
Definition closed (d : debugger) : Prop :=
  exists evs, log d = evs ++ [quit; Wait] /\ ~ In quit evs /\ ~ In Wait evs.

(** What [_Command] writes for a command: the command, then the request to
    echo the marker. *)
Definition command_text (command : str) : str :=
  command ++ py "; .echo " ++ _SENTINEL ++ nl.

(** A computation that leaves what was done to the child so far in place
    and only adds to it. *)
Definition appends {A} (m : M A) : Prop :=
  forall d, exists evs, log (state_of (m d)) = log d ++ evs.

(** The commands of the extraction phase for frame index [k], in the order
    they are sent. *)
Definition extraction_commands (k : Z) : list str :=
  [ py ".frame " ++ PyStr.format_X k;
    _GET_BAD_ACCESS_INFO_COMMAND;
    _GET_ALLOC_STACK_COMMAND;
    _GET_FREE_STACK_COMMAND;
    py ".ecxr";
    py "kv" ].

(** The commands that lead to the first crash stack. *)
Definition setup_commands (pdb_path : option str) : list str :=
  match pdb_path with
  | Some p => [ py ".sympath " ++ p; py ".reload /fi chrome.dll";
                py ".reload /fi syzyasan_rtl.dll"; py ".symfix" ]
  | None => []
  end ++ [ py ".lines"; py "kv" ].

(** The writes that sending [commands] leaves in the log. *)
Definition sent (commands : list str) : list event :=
  map (fun c => Write (command_text c)) commands.

(** ** Notions used in the proofs about the patterns *)

Definition is_blank (a : ascii) : bool := (a =? " ")%char.
Definition is_bang (a : ascii) : bool := (a =? "!")%char.
Definition hex_or_blank (a : ascii) : bool := is_hex a || is_blank a.

(** The three shapes a match of the frame pattern can have: the argument
    fields [A], then a module token [M], or a module token, a [!] and a
    location [L], or an address [X]; [e] is what [$] lets through. *)
Inductive frame_shape (line : str) (m : captures) : Prop :=
| shape_module A M e :
    line = A ++ M ++ e -> forallb hex_or_blank A = true ->
    M <> [] -> forallb not_space M = true ->
    at_end e = true ->
    m = [("module"%string, M); ("args"%string, A)] ->
    frame_shape line m
| shape_location A M L e :
    line = A ++ M ++ "!"%char :: L ++ e -> forallb hex_or_blank A = true ->
    M <> [] -> forallb not_space M = true ->
    forallb not_newline L = true -> at_end e = true ->
    m = [("location"%string, L); ("module"%string, M); ("args"%string, A)] ->
    frame_shape line m
| shape_address A X e :
    line = A ++ X ++ e -> at_end e = true ->
    m = [("address"%string, X); ("args"%string, A)] ->
    frame_shape line m.

(** One or more argument fields in front of [rest]. *)
Inductive fields_then (rest : str) : str -> Prop :=
| last_field h sp :
    h <> [] -> forallb is_hex h = true ->
    sp <> [] -> forallb is_blank sp = true ->
    fields_then rest (h ++ sp ++ rest)
| next_field h sp line :
    h <> [] -> forallb is_hex h = true ->
    sp <> [] -> forallb is_blank sp = true ->
    fields_then rest line ->
    fields_then rest (h ++ sp ++ line).

(** A bare address token: [0x] in either case, then hexadecimal digits. *)
Definition address_token (X : str) : Prop :=
  exists x h, X = "0"%char :: x :: h /\
              PyStr.lower x = "x"%char /\ h <> [] /\ forallb is_hex h = true.

(** What follows the module group: the optional location, then [$]. *)
Definition after_module (s : str) (c : captures) : option captures :=
  rmatch (Maybe (Cat (chr "!") (Named "location" (Star (Class not_newline)))))
         s c (fun s1 c1 => rmatch Dollar s1 c1 (fun _ c2 => Some c2)).

(** The greedy loop takes a whole run when the run cannot go on. *)
Definition stops (f : ascii -> bool) (rest : str) : Prop :=
  match rest with
  | [] => True
  | b :: _ => f b = false
  end.

(** ** The frame grammar of the specification

    Section 4.2 in its words: a line matches only if it "starts with one
    or more hexadecimal argument fields (register/arg dump, ignored)
    followed by either (a) a bare hexadecimal address token, or (b) a
    module token optionally followed by [!] and a location token, with
    nothing else trailing".  An argument field is a run of hexadecimal
    digits with the blanks after it ([fields_then]); a token is a run of
    characters other than the blank; the location is what follows the
    [!], up to the end of the line. *)
Inductive frame_grammar (line : str) : Prop :=
| grammar_address X :
    address_token X -> fields_then X line -> frame_grammar line
| grammar_module M :
    M <> [] -> forallb not_space M = true ->
    fields_then M line -> frame_grammar line
| grammar_location M L :
    M <> [] -> forallb not_space M = true ->
    fields_then (M ++ "!"%char :: L) line -> frame_grammar line.

(** ** Sample sessions *)

(** A crash stack of one frame that is not the error-reporting entry
    point, and a child that answers every command of a session on it. *)
Definition stack_without_frame : list str :=
  [ py "0012f5a4 7c90e920 kernel32!BaseThreadInitThunk+0x12 [thread.c @ 7]" ].

Definition session_without_frame : list str :=
  reply [] ++                                       (* .lines *)
  reply stack_without_frame ++                      (* kv *)
  reply [] ++                                       (* .frame *)
  reply [ py "error_info = struct"; py "   +0x000 location : 0x1234" ] ++
  reply [ py "0012f5a4 7c90e920 foo!Alloc+0x3 [a.c @ 1]" ] ++
  reply [] ++                                       (* free stack *)
  reply [] ++                                       (* .ecxr *)
  reply stack_without_frame.                        (* kv *)

(** A crash stack with the error-reporting entry point at index 2. *)
Definition stack_with_frame : list str :=
  [ py "0012f5a4 7c90e920 asan_rtl!agent::asan::StackCapture::Init+0x1 [s.cc @ 3]";
    py "0012f5b0 7c90e921 asan_rtl!agent::asan::ReportBadAccess+0x9 [r.cc @ 8]";
    py "0012f5c0 7c90e922 asan_rtl!agent::asan::AsanRuntime::OnError+0x12 [r.cc @ 9]";
    py "0012f5d0 7c90e923 chrome_1c2d!Foo::Bar+0x40 [foo.cc @ 40]" ].

Definition session_with_frame : list str :=
  reply [] ++
  reply stack_with_frame ++
  reply [] ++
  reply [ py "error_info = struct"; py "   +0x000 location : 0x1234" ] ++
  reply [ py "0012f5a4 7c90e920 foo!Alloc+0x3 [a.c @ 1]" ] ++
  reply [] ++
  reply [] ++
  reply stack_with_frame.

(** A child whose error-info dump is empty. *)
Definition session_empty_dump : list str :=
  reply [] ++ reply stack_with_frame ++ reply [] ++ reply [].

(** ** Sessions made of framed replies *)

(** The output for one command: its lines as the child prints them, then
    the line of the echoed marker. *)
Definition framed (lines : list str) : list str := lines ++ [_SENTINEL ++ nl].

(** The output of a child that answers one command after the other, and
    what it prints after that. *)
Fixpoint session (replies : list (list str)) (rest : list str) : list str :=
  match replies with
  | [] => rest
  | r :: rs => framed r ++ session rs rest
  end.

Definition marker_free (lines : list str) : Prop :=
  Forall (fun l => PyStr.contains _SENTINEL l = false) lines.

(** ** minidump_symbolizer.py: printing and [main] *)

Definition _ERROR_HELP_URL : str :=
  py "You can go to https://code.google.com/p/syzygy/wiki/SyzyASanBug to get more information about how to treat this bug.".

(** The print statement of Python 2 keeps a soft-space flag: a blank is
    written in front of an item when the flag is set, and after an item the
    flag is set unless the item is a string that ends in a whitespace
    character other than the blank. *)
Definition sets_softspace (item : str) : bool :=
  match rev item with
  | [] => true
  | a :: _ => negb (PyStr.isspace a) || (a =? " ")%char
  end.

Fixpoint print_items (softspace : bool) (items : list str) : str :=
  match items with
  | [] => []
  | item :: more =>
      (if softspace then py " " else []) ++ item ++
      print_items (sets_softspace item) more
  end.

(** [print item, ..., item]: the statement ends the line and clears the
    flag, so every statement starts with the flag clear. *)
Definition py_print (items : list str) : str := print_items false items ++ nl.

(** [for line in lines: print line] *)
Definition print_lines (lines : list str) : str :=
  flat_map (fun line => py_print [line]) lines.

(** [PrintASanReport(report)]: what it writes to standard output. *)
Definition PrintASanReport (report : ASanReport) : str :=
  py_print [py "Bad access information:"] ++
  print_lines (bad_access_info report) ++
  py_print [nl ++ py "Crash stack:"] ++
  print_lines (crash_stack report) ++
  py_print [nl ++ py "Allocation stack:"] ++
  print_lines (alloc_stack report) ++
  (if negb (length (free_stack report) =? 0)%nat
   then py_print [nl ++ py "Free stack:"] ++ print_lines (free_stack report)
   else []) ++
  py_print [nl; _ERROR_HELP_URL].

(** How a run of [main] can end with a child as modelled above: with an
    exit status, with an exception of [ProcessMinidump] or of
    [PrintASanReport] that nothing catches, or not at all.  In each case
    what was printed and the state of the child are kept. *)
Inductive uncaught : Type :=
| FromProcessMinidump (e : exn)
| AttributeError.      (* report.bad_access_info when report is None *)

Inductive main_outcome : Type :=
| Exited (status : Z) (printed : str) (d : debugger)
| Failed (e : uncaught) (printed : str) (d : debugger)
| Unfinished (d : debugger).

(** [main()] once the options are parsed: [ProcessMinidump], then
    [PrintASanReport] on what it returned, then [return 0].  (With [None]
    the first print statement of [PrintASanReport] still runs before the
    attribute access fails.) *)
Definition main (fuel : nat) (minidump cdb_path : str) (pdb_path : option str)
           (script : list str) : main_outcome :=
  match ProcessMinidump fuel minidump cdb_path pdb_path script with
  | Ok (Some report) d => Exited 0 (PrintASanReport report) d
  | Ok None d =>
      Failed AttributeError (py_print [py "Bad access information:"]) d
  | Raise e d => Failed (FromProcessMinidump e) [] d
  | Hang d => Unfinished d
  end.

(** [text.split('\n')] *)
Fixpoint split_nl (text : str) : list str :=
  match text with
  | [] => [[]]
  | a :: t =>
      if (a =? "010")%char then [] :: split_nl t
      else match split_nl t with
           | [] => [[a]]
           | piece :: pieces => (a :: piece) :: pieces
           end
  end.

(** Nothing but commands has been sent to the child so far. *)
Definition only_sent (d : debugger) : Prop := exists cs, log d = sent cs.

(** A computation that only sends commands, and whose only exception is
    [IndexError]. *)
Definition tame {A} (m : M A) : Prop :=
  forall d, only_sent d ->
            match m d with
            | Ok _ d' => only_sent d'
            | Hang d' => only_sent d'
            | Raise e d' => e = IndexError /\ only_sent d'
            end.

(** The same, with nothing said about the state in which it returns. *)
Definition tame_unless_done {A} (m : M A) : Prop :=
  forall d, only_sent d ->
            match m d with
            | Ok _ _ => True
            | Hang d' => only_sent d'
            | Raise e d' => e = IndexError /\ only_sent d'
            end.

(** Lines without a newline character inside. *)
Definition newline_free (lines : list str) : Prop :=
  Forall (fun l => forallb not_newline l = true) lines.

(** ** Notions used in the proofs about frame lines *)

(** What is left of a text after its leading hexadecimal digits. *)
Fixpoint after_hex (s : str) : str :=
  match s with
  | [] => []
  | a :: t => if is_hex a then after_hex t else s
  end.

(** ** chrome_repo.py

    The build repository is reached over HTTP.  What the script can observe
    of a request is the status, the headers and the body of the response;
    the server is modelled by the responses it gives. *)

Module Repo.

(** [s.endswith(suffix)] *)
Definition endswith (suffix s : str) : bool :=
  PyStr.startswith (rev suffix) (rev s).

(** [a == b] on strings *)
Fixpoint str_eqb (a b : str) : bool :=
  match a, b with
  | [], [] => true
  | x :: a', y :: b' => (x =? y)%char && str_eqb a' b'
  | _, _ => false
  end.

(** The double quote character. *)
Definition dquote : ascii := "034"%char.

(** Character sets of [re]: [\d] and [\s] for byte strings. *)
Definition is_digit (a : ascii) : bool := PyStr.in_range "0" "9" a.

(** A literal word, case sensitive. *)
Fixpoint lit (w : str) : regex :=
  match w with
  | [] => Empty
  | a :: w' => Cat (chr a) (lit w')
  end.

(** [r1|r2|...|rn] *)
Fixpoint any_of (rs : list regex) : regex :=
  match rs with
  | [] => Class (fun _ => false)
  | [r] => r
  | r :: more => Or r (any_of more)
  end.

(** [pattern.search(s)]: the match at the leftmost position that has one. *)
Fixpoint re_search (r : regex) (s : str) : option captures :=
  match re_match r s with
  | Some m => Some m
  | None =>
      match s with
      | [] => None
      | _ :: t => re_search r t
      end
  end.

(** [DEFAULT_BUILD_ID_PATTERN = r'\d+\.\d+\.\d+\.\d+'] *)
Definition digits : regex := Plus (Class is_digit).
Definition DEFAULT_BUILD_ID_PATTERN : regex :=
  Cat digits (Cat (chr ".") (Cat digits (Cat (chr ".")
    (Cat digits (Cat (chr ".") digits))))).

Definition FILE_LIST : list str :=
  [ py "chrome-win32.zip";
    py "chrome-win32-data.zip";
    py "chrome-win32.test/automated_ui_tests.exe";
    py "chrome-win32.test/icudt.dll";
    py "chrome_dll.pdb" ].

(** The exceptions of the module, and the two built-in ones that its code
    can meet. *)
Inductive Error : Type :=
| DownloadError
| FormatError
| NotFoundError
| ValueError       (* int() or datetime.datetime() *)
| KeyError.        (* _MONTHS[...] *)

Definition _MONTHS : list (str * Z) :=
  [ (py "jan", 1); (py "feb", 2); (py "mar", 3); (py "apr", 4);
    (py "may", 5); (py "jun", 6); (py "jul", 7); (py "aug", 8);
    (py "sep", 9); (py "oct", 10); (py "nov", 11); (py "dec", 12) ]%Z.

(** [d[key]] on a dictionary given by its items. *)
Fixpoint lookup (d : list (str * Z)) (key : str) : option Z :=
  match d with
  | [] => None
  | (k, v) :: d' => if str_eqb k key then Some v else lookup d' key
  end.

(** The date pattern, compiled with IGNORECASE | VERBOSE:
<<
    (?P<day>[0-3]\d)-(?P<month>(jan|feb|...))-(?P<year>\d{4})\s+
    (?P<hours>[0-2]\d):(?P<minutes>[0-5]\d)
>>
    The month names are joined in the order of [_MONTHS.keys()], which the
    language leaves open; [keys] is that order. *)
Definition date_regex (keys : list str) : regex :=
  Cat (Named "day" (Cat (Class (PyStr.in_range "0" "3")) (Class is_digit)))
  (Cat (chr "-")
  (Cat (Named "month" (any_of (map lit_i keys)))
  (Cat (chr "-")
  (Cat (Named "year" (Cat (Class is_digit) (Cat (Class is_digit)
                       (Cat (Class is_digit) (Class is_digit)))))
  (Cat (Plus (Class PyStr.isspace))
  (Cat (Named "hours" (Cat (Class (PyStr.in_range "0" "2")) (Class is_digit)))
  (Cat (chr ":")
       (Named "minutes"
          (Cat (Class (PyStr.in_range "0" "5")) (Class is_digit)))))))))).

Definition _BUILD_DATE_REGEX : regex := date_regex (map fst _MONTHS).

(** [re.compile(r'href="(?P<id>%s)/"' % build_id_pattern)] *)
Definition build_id_regex (build_id_pattern : regex) : regex :=
  Cat (lit (py "href=" ++ [dquote]))
      (Cat (Named "id" build_id_pattern) (lit (py "/" ++ [dquote]))).

(** [int(s)] on a string of decimal digits; [None] stands for the
    [ValueError] of a string that is not one. *)
Definition digit_value (a : ascii) : Z :=
  Z.of_nat (nat_of_ascii a - nat_of_ascii "0").

Fixpoint int_from (acc : Z) (s : str) : option Z :=
  match s with
  | [] => Some acc
  | a :: t => if is_digit a then int_from (10 * acc + digit_value a)%Z t
              else None
  end.

Definition py_int (s : str) : option Z :=
  match s with
  | [] => None
  | _ :: _ => int_from 0 s
  end.

(** [datetime.datetime]: a naive date and time to the minute. *)
Record datetime : Type := mkDatetime {
  year : Z; month : Z; day : Z; hour : Z; minute : Z
}.

Definition is_leap (y : Z) : bool :=
  ((y mod 4 =? 0) && (negb (y mod 100 =? 0) || (y mod 400 =? 0)))%Z.

Definition days_in_month (y m : Z) : Z :=
  (if (m =? 2) then (if is_leap y then 29 else 28)
   else if (m =? 4) || (m =? 6) || (m =? 9) || (m =? 11) then 30
   else 31)%Z.

(** The constructor checks every field and raises [ValueError]. *)
Definition make_datetime (y m d h mi : Z) : Error + datetime :=
  if ((1 <=? y) && (y <=? 9999) && (1 <=? m) && (m <=? 12) &&
      (1 <=? d) && (d <=? days_in_month y m) &&
      (0 <=? h) && (h <=? 23) && (0 <=? mi) && (mi <=? 59))%Z
  then inr (mkDatetime y m d h mi)
  else inl ValueError.

(** [cmp(x, y)] on two datetimes: field by field. *)
Definition datetime_compare (x y : datetime) : comparison :=
  match (year x ?= year y)%Z with
  | Eq => match (month x ?= month y)%Z with
          | Eq => match (day x ?= day y)%Z with
                  | Eq => match (hour x ?= hour y)%Z with
                          | Eq => (minute x ?= minute y)%Z
                          | c => c
                          end
                  | c => c
                  end
          | c => c
          end
  | c => c
  end.

Definition entry : Type := (str * datetime)%type.

(** [sorted(build_index, cmp=lambda x, y: cmp(x[1], y[1]), reverse=True)]:
    the sort is stable, also when reversed, so the result is the one
    arrangement by falling timestamp that keeps entries of equal timestamp
    in their order; insertion from the right computes it. *)
Fixpoint insert_newest_first (x : entry) (l : list entry) : list entry :=
  match l with
  | [] => [x]
  | y :: l' =>
      match datetime_compare (snd x) (snd y) with
      | Lt => y :: insert_newest_first x l'
      | _ => x :: l
      end
  end.

Definition sorted_newest_first (l : list entry) : list entry :=
  fold_right insert_newest_first [] l.

(** What an option holds, with the exception to raise when it is empty. *)
Definition need {A} (e : Error) (o : option A) : Error + A :=
  match o with
  | Some a => inr a
  | None => inl e
  end.

Definition group_text (m : captures) (name : string) : str :=
  match group m name with
  | Some v => v
  | None => []
  end.

Arguments group_text m name%_string_scope.

(** The timestamp of a date match (lines 174-179). *)
Definition timestamp_of (date_match : captures) : Error + datetime :=
  match need ValueError (py_int (group_text date_match "year")) with
  | inl e => inl e
  | inr y =>
  match need KeyError
             (lookup _MONTHS (map PyStr.lower (group_text date_match "month")))
  with
  | inl e => inl e
  | inr m =>
  match need ValueError (py_int (group_text date_match "day")) with
  | inl e => inl e
  | inr d =>
  match need ValueError (py_int (group_text date_match "hours")) with
  | inl e => inl e
  | inr h =>
  match need ValueError (py_int (group_text date_match "minutes")) with
  | inl e => inl e
  | inr mi => make_datetime y m d h mi
  end end end end end.

(** What these methods read of a [ChromeRepo] object: the parts of the
    repository URL kept by [__init__] and the pattern of a build id. *)
Record ChromeRepo : Type := mkChromeRepo {
  _root_dir : str;
  _query : str;
  _fragment : str;
  build_id_pattern : regex
}.

(** The server, seen through [_PerformRequest]: the status and the body it
    answers to a request.  (Its answers are taken not to change while a
    method runs; the headers are not read by the methods below.  A request
    that gets no answer, the socket and [httplib] errors of lines 142-145,
    raises out of every method that makes it; such runs are outside this
    model and outside the statements about it.) *)
Inductive method : Type := GET | HEAD.
Definition request : Type := (method * str)%type.
Definition server : Type := method -> str -> Z * str.

(** [urlparse.urlunsplit((None, None, root_dir, query, fragment))] *)
Definition index_path (self : ChromeRepo) : str :=
  let url := _root_dir self in
  let url := match _query self with
             | [] => url
             | _ :: _ => url ++ py "?" ++ _query self
             end in
  match _fragment self with
  | [] => url
  | _ :: _ => url ++ py "#" ++ _fragment self
  end.

(** The loop over the lines of the listing (lines 167-180); [keys] is the
    order of the month names in the date pattern. *)
Fixpoint scan_listing (keys : list str) (self : ChromeRepo)
         (lines : list str) (build_index : list entry)
  : Error + list entry :=
  match lines with
  | [] => inr build_index
  | line :: more =>
      match re_search (build_id_regex (build_id_pattern self)) line with
      | None => scan_listing keys self more build_index
      | Some id_match =>
          match re_search (date_regex keys) line with
          | None => inl FormatError
          | Some date_match =>
              match timestamp_of date_match with
              | inl e => inl e
              | inr timestamp =>
                  scan_listing keys self more
                    (build_index ++ [(group_text id_match "id", timestamp)])
              end
          end
      end
  end.

(** [GetBuildIndex()]; it sends one request, [GET] of [index_path]. *)
Definition GetBuildIndex_with (keys : list str) (self : ChromeRepo)
           (srv : server) : Error + list entry :=
  let (status, body) := srv GET (index_path self) in
  if negb (status =? 200)%Z then inl DownloadError
  else match scan_listing keys self (split_nl body) [] with
       | inl e => inl e
       | inr build_index => inr (sorted_newest_first build_index)
       end.

Definition GetBuildIndex : ChromeRepo -> server -> Error + list entry :=
  GetBuildIndex_with (map fst _MONTHS).

(** [posixpath.join(a, *p)] *)
Definition join2 (path b : str) : str :=
  if PyStr.startswith (py "/") b then b
  else if str_eqb path [] || endswith (py "/") path then path ++ b
  else path ++ py "/" ++ b.

Definition posixpath_join (a : str) (p : list str) : str :=
  fold_left join2 p a.

Definition _GetFilePath (self : ChromeRepo) (build_id relative_path : str)
  : str :=
  posixpath_join (_root_dir self) [build_id; py "win"; relative_path].

(** The inner loop of [GetLatestBuildId] (lines 215-223): HEAD requests for
    the files of one build, up to the first that is not answered with 200.
    The second component lists the requests made. *)
Fixpoint check_files (self : ChromeRepo) (srv : server) (build_id : str)
         (files : list str) : bool * list request :=
  match files with
  | [] => (true, [])
  | file_name :: more =>
      let path := _GetFilePath self build_id file_name in
      if negb (fst (srv HEAD path) =? 200)%Z
      then (false, [(HEAD, path)])                                 (* break *)
      else let (found, requested) := check_files self srv build_id more in
           (found, (HEAD, path) :: requested)
  end.

(** The outer loop (lines 214-228): the pair returned and the requests
    made on the way. *)
Fixpoint search_index (self : ChromeRepo) (srv : server)
         (build_index : list entry)
  : (option str * option datetime) * list request :=
  match build_index with
  | [] => ((None, None), [])
  | (build_id, timestamp) :: more =>
      let (found, requested) := check_files self srv build_id FILE_LIST in
      if found then ((Some build_id, Some timestamp), requested)
      else let (result, later) := search_index self srv more in
           (result, requested ++ later)
  end.

(** [GetLatestBuildId(build_index=None)] *)
Definition GetLatestBuildId (self : ChromeRepo) (srv : server)
           (build_index : option (list entry))
  : (Error + (option str * option datetime)) * list request :=
  match build_index with
  | Some index =>
      let (result, requested) := search_index self srv index in
      (inr result, requested)
  | None =>
      match GetBuildIndex self srv with
      | inl e => (inl e, [(GET, index_path self)])
      | inr index =>
          let (result, requested) := search_index self srv index in
          (inr result, (GET, index_path self) :: requested)
      end
  end.

(** A build all of whose files the server has. *)
Definition complete (self : ChromeRepo) (srv : server) (e : entry) : bool :=
  forallb (fun f => (fst (srv HEAD (_GetFilePath self (fst e) f)) =? 200)%Z)
          FILE_LIST.

(** A request the server does not answer with 200. *)
Definition refused (srv : server) (r : request) : bool :=
  negb (fst (srv (fst r) (snd r)) =? 200)%Z.

(** [x] is not older than [y]. *)
Definition not_older (x y : entry) : Prop :=
  datetime_compare (snd x) (snd y) <> Lt.

(** Two entries of the same time. *)
Definition same_time (t : datetime) (e : entry) : bool :=
  match datetime_compare (snd e) t with
  | Eq => true
  | _ => false
  end.

(** A server for examples: a listing of three builds, the newest of which
    lacks its symbol file. *)
Definition link (build_id date : str) : str :=
  py "<a href=" ++ [dquote] ++ build_id ++ py "/" ++ [dquote] ++ py ">"
     ++ build_id ++ py "/</a>  " ++ date ++ py "  -".

Definition sample_listing : str :=
  py "<html><body>" ++ nl ++
  link (py "10.0.648.0") (py "22-Jan-2011 08:15") ++ nl ++
  link (py "11.0.652.0") (py "01-feb-2011 23:59") ++ nl ++
  link (py "10.0.649.0") (py "25-JAN-2011 10:30") ++ nl ++
  py "</body></html>".

Definition sample_repo : ChromeRepo :=
  mkChromeRepo (py "/official_builds") [] [] DEFAULT_BUILD_ID_PATTERN.

Definition sample_server : server := fun m path =>
  match m with
  | GET => if str_eqb path (py "/official_builds")
           then (200, sample_listing) else (404, [])
  | HEAD => if str_eqb path (py "/official_builds/11.0.652.0/win/chrome_dll.pdb")
            then (404, []) else (200, [])
  end%Z.

(** A server whose listing gives a build the thirty-first of February. *)
Definition impossible_date_server : server := fun _ _ =>
  (200%Z, link (py "11.0.652.0") (py "31-feb-2011 10:00")).

(** The index of the sample listing. *)
Definition sample_index : list entry :=
  [ (py "11.0.652.0", mkDatetime 2011 2 1 23 59);
    (py "10.0.649.0", mkDatetime 2011 1 25 10 30);
    (py "10.0.648.0", mkDatetime 2011 1 22 8 15) ]%Z.

End Repo.

(** * Properties *)

(** ** Byte strings *)

Section StrFacts.
Import PyStr.

Lemma rstrip_nil_or_cons (a : ascii) (t : str) :
  rstrip (a :: t) = a :: rstrip t \/
  (rstrip t = [] /\ isspace a = true /\ rstrip (a :: t) = []).
Proof.
  simpl. destruct (rstrip t) eqn:E.
  - destruct (isspace a); [right | left]; auto.
  - left; reflexivity.
Qed.

Lemma rstrip_idem (s : str) : rstrip (rstrip s) = rstrip s.
Proof.
  induction s as [|a t IH]; [reflexivity|].
  simpl. destruct (rstrip t) as [|b t'] eqn:E.
  - destruct (isspace a) eqn:Ea; simpl; [reflexivity|now rewrite Ea].
  - change (rstrip (a :: b :: t') = a :: b :: t').
    destruct (rstrip_nil_or_cons a (b :: t')) as [H|(H & _)].
    + now rewrite H, IH.
    + rewrite IH in H. discriminate.
Qed.

Lemma ends_in_space_rstrip (s : str) : ends_in_space (rstrip s) = false.
Proof.
  induction s as [|a t IH]; [reflexivity|].
  simpl. destruct (rstrip t) as [|b t'] eqn:E.
  - destruct (isspace a) eqn:Ea; simpl; auto.
  - exact IH.
Qed.

Lemma startswith_nil_r (p : str) : startswith p [] = true -> p = [].
Proof. destruct p; simpl; congruence. Qed.

Lemma startswith_app (p s w : str) :
  startswith p s = true -> startswith p (s ++ w) = true.
Proof.
  revert s; induction p as [|a p IH]; intros [|b s] H; simpl in *;
    try congruence.
  apply andb_true_iff in H as [H1 H2]. rewrite H1. simpl. now apply IH.
Qed.

Lemma contains_app (p s w : str) :
  contains p s = true -> contains p (s ++ w) = true.
Proof.
  induction s as [|b s IH]; intros H.
  - simpl in H. rewrite orb_false_r in H. apply startswith_nil_r in H.
    subst. destruct w; reflexivity.
  - cbn [contains] in H. apply orb_true_iff in H as [H|H].
    + change ((b :: s) ++ w) with (b :: (s ++ w)). cbn [contains].
      change (b :: (s ++ w)) with ((b :: s) ++ w).
      now rewrite (startswith_app _ _ w H).
    + change ((b :: s) ++ w) with (b :: (s ++ w)). cbn [contains].
      rewrite (IH H). apply orb_true_r.
Qed.

Lemma rstrip_split (s : str) :
  exists w, s = rstrip s ++ w /\ Forall (fun a => isspace a = true) w.
Proof.
  induction s as [|a t (w & Hw & Fw)].
  - exists []. split; [reflexivity|constructor].
  - destruct (rstrip_nil_or_cons a t) as [H|(H1 & H2 & H3)].
    + exists w. rewrite H. simpl. split; [congruence|assumption].
    + exists (a :: w). rewrite H3. rewrite H1 in Hw. simpl in *.
      split; [congruence|]. constructor; assumption.
Qed.

(** A word that is not empty and does not end in whitespace starts the
    stripped string whenever it starts the string. *)
Lemma startswith_rstrip (p s : str) :
  p <> [] -> rstrip p = p ->
  startswith p s = true -> startswith p (rstrip s) = true.
Proof.
  revert s; induction p as [|a p IH]; intros s Hne Hp H; [congruence|].
  destruct s as [|b s]; [discriminate|].
  simpl in H. apply andb_true_iff in H as [Hab Hps].
  destruct p as [|a' p'].
  - (* the last character of the word *)
    simpl in Hp. destruct (isspace a) eqn:Ea; [discriminate|].
    apply Ascii.eqb_eq in Hab. subst b.
    destruct (rstrip_nil_or_cons a s) as [H|(_ & H & _)].
    + rewrite H. simpl. now rewrite Ascii.eqb_refl.
    + congruence.
  - assert (Hp' : rstrip (a' :: p') = a' :: p').
    { destruct (rstrip_nil_or_cons a (a' :: p')) as [H|(_ & _ & H)];
        congruence. }
    specialize (IH s ltac:(discriminate) Hp' Hps).
    destruct (rstrip_nil_or_cons b s) as [H|(H & _)].
    + rewrite H. simpl. rewrite Hab. exact IH.
    + rewrite H in IH. discriminate.
Qed.

Lemma contains_rstrip (p s : str) :
  p <> [] -> rstrip p = p ->
  contains p (rstrip s) = contains p s.
Proof.
  intros Hne Hp.
  destruct (contains p s) eqn:E.
  - induction s as [|b s IH]; [exact E|].
    cbn [contains] in E. apply orb_true_iff in E as [E|E].
    + pose proof (startswith_rstrip (b :: s) Hne Hp E) as H.
      destruct (rstrip (b :: s)); simpl in *; now rewrite H.
    + specialize (IH E).
      destruct (rstrip_nil_or_cons b s) as [H|(H & _)].
      * rewrite H. cbn [contains]. rewrite IH. apply orb_true_r.
      * rewrite H in IH. simpl in IH. rewrite orb_false_r in IH.
        apply startswith_nil_r in IH. contradiction.
  - destruct (contains p (rstrip s)) eqn:E'; [|reflexivity].
    destruct (rstrip_split s) as (w & Hw & _).
    apply contains_app with (w := w) in E'. rewrite <- Hw in E'. congruence.
Qed.

Lemma find_ge (p s : str) : (-1 <= find p s)%Z.
Proof.
  induction s as [|b s IH]; simpl.
  - destruct (startswith p []); lia.
  - destruct (startswith p (b :: s)); [lia|].
    destruct (find p s =? -1)%Z eqn:E; lia.
Qed.

(** [s.find(p) == -1] says that [p] does not occur in [s]. *)
Lemma find_none_iff (p s : str) :
  (find p s =? -1)%Z = negb (contains p s).
Proof.
  induction s as [|b s IH].
  - simpl. destruct (startswith p []); reflexivity.
  - cbn [find contains]. destruct (startswith p (b :: s)); [reflexivity|].
    simpl. rewrite <- IH. pose proof (find_ge p s).
    destruct (find p s =? -1)%Z eqn:E; [reflexivity|].
    apply Z.eqb_neq in E. apply Z.eqb_neq. lia.
Qed.

End StrFacts.

(** ** The command channel *)

Section Channel.
Import PyStr.

Lemma sentinel_stripped : _SENTINEL <> [] /\ rstrip _SENTINEL = _SENTINEL.
Proof. split; [discriminate|reflexivity]. Qed.

(** The marker has no whitespace at its end, so stripping a line neither
    hides nor creates an occurrence of it. *)
Lemma sentinel_in_rstrip (l : str) :
  contains _SENTINEL (rstrip l) = contains _SENTINEL l.
Proof. destruct sentinel_stripped; now apply contains_rstrip. Qed.

(** The loop stops at the first line with the marker, having collected the
    stripped lines in front of it. *)
Lemma read_reply_found (pre : list str) :
  forall fuel lines d m rest,
    stdout d = pre ++ m :: rest ->
    Forall (fun l => contains _SENTINEL l = false) pre ->
    contains _SENTINEL m = true ->
    length pre < fuel ->
    read_reply fuel lines d = Ok (lines ++ map rstrip pre) (advance d rest).
Proof.
  induction pre as [|l pre IH]; intros fuel lines d m rest Hout Hpre Hm Hf;
    (destruct fuel as [|fuel]; [simpl in Hf; lia|]);
    simpl; unfold readline; rewrite Hout; simpl.
  - rewrite sentinel_in_rstrip, Hm, app_nil_r. reflexivity.
  - inversion Hpre as [|? ? Hl Hpre']; subst.
    rewrite sentinel_in_rstrip, Hl.
    rewrite (IH fuel (lines ++ [rstrip l]) _ m rest); simpl; auto.
    + now rewrite <- app_assoc.
    + simpl in Hf; lia.
Qed.

(** Without a marker line the loop is still running however long one
    waits: at end of file [readline] keeps returning the empty string. *)
Lemma read_reply_no_marker (fuel : nat) :
  forall lines d,
    Forall (fun l => contains _SENTINEL l = false) (stdout d) ->
    exists d', read_reply fuel lines d = Hang d'.
Proof.
  induction fuel as [|fuel IH]; intros lines d H; simpl; [eauto|].
  unfold readline. destruct (stdout d) as [|l rest] eqn:E.
  - simpl. apply IH. now rewrite E.
  - inversion H as [|? ? Hl Hrest]; subst.
    rewrite sentinel_in_rstrip, Hl. apply IH. exact Hrest.
Qed.

(** Whenever the loop returns, it has read a marker line, and what it
    returns are the stripped lines in front of it. *)
Lemma read_reply_inv (fuel : nat) :
  forall lines d out d',
    read_reply fuel lines d = Ok out d' ->
    exists pre m,
      stdout d = pre ++ m :: stdout d' /\
      out = lines ++ map rstrip pre /\
      Forall (fun l => contains _SENTINEL l = false) pre /\
      contains _SENTINEL m = true /\
      d' = advance d (stdout d').
Proof.
  induction fuel as [|fuel IH]; intros lines d out d' H; simpl in H;
    [discriminate|].
  unfold readline in H. destruct (stdout d) as [|l rest] eqn:E.
  - simpl in H. apply IH in H as (pre & m & H1 & _). 
    rewrite E in H1. destruct pre; discriminate.
  - rewrite sentinel_in_rstrip in H.
    destruct (contains _SENTINEL l) eqn:El.
    + inversion H; subst. exists [], l. simpl.
      rewrite app_nil_r. repeat split; auto.
    + apply IH in H as (pre & m & H1 & H2 & H3 & H4 & H5). simpl in *.
      exists (l :: pre), m. simpl. rewrite H1, H2, <- app_assoc.
      repeat split; auto.
Qed.

Lemma Command_unfold (fuel : nat) (command : str) (d : debugger) :
  _Command fuel command d =
  read_reply fuel [] (record (Write (command_text command)) d).
Proof. reflexivity. Qed.

(** Whatever becomes of a command, it has been written, and nothing else
    has been done to the child. *)
Lemma read_reply_log (fuel : nat) :
  forall lines d, log (state_of (read_reply fuel lines d)) = log d.
Proof.
  induction fuel as [|fuel IH]; intros lines d; simpl; [reflexivity|].
  unfold readline. destruct (stdout d) as [|l rest].
  - destruct (contains _SENTINEL (rstrip [])); [reflexivity|now rewrite IH].
  - destruct (contains _SENTINEL (rstrip l)); [reflexivity|now rewrite IH].
Qed.

Lemma Command_log (fuel : nat) (command : str) (d : debugger) :
  log (state_of (_Command fuel command d)) =
  log d ++ [Write (command_text command)].
Proof. rewrite Command_unfold, read_reply_log. reflexivity. Qed.

(** C3. For every scripted output that has a marker line, [_Command]
    writes the command and returns exactly the lines read in front of the
    first line that contains the marker, each as the loop holds it (the
    text of [readline] stripped on the right), in the order received.  The
    marker line is consumed and is not among the lines returned; the rest
    of the output is left unread. *)
Theorem Command_returns_lines_before_marker
        (fuel : nat) (command : str) (d : debugger)
        (pre : list str) (m : str) (rest : list str) :
  stdout d = pre ++ m :: rest ->
  Forall (fun l => contains _SENTINEL l = false) pre ->
  contains _SENTINEL m = true ->
  length pre < fuel ->
  _Command fuel command d =
    Ok (map rstrip pre)
       {| argv := argv d; stdout := rest;
          log := log d ++ [Write (command_text command)] |} /\
  ~ In (rstrip m) (map rstrip pre).
Proof.
  intros Hout Hpre Hm Hf. split.
  - rewrite Command_unfold.
    rewrite (@read_reply_found pre fuel [] _ m rest); auto.
  - intros Hin. apply in_map_iff in Hin as (l & Hl & Hin).
    rewrite Forall_forall in Hpre. specialize (Hpre l Hin).
    rewrite <- sentinel_in_rstrip, Hl, sentinel_in_rstrip in Hpre.
    congruence.
Qed.

Lemma Command_returns_lines_before_marker_witness :
  _Command 3 (py "kv")
           (Popen [py "cdb.exe"] [py "a " ++ nl; py "b" ++ nl;
                                  py "ENDENDEND" ++ nl; py "c" ++ nl]) =
    Ok [py "a"; py "b"]
       {| argv := [py "cdb.exe"]; stdout := [py "c" ++ nl];
          log := [Write (command_text (py "kv"))] |} /\
  ~ In (rstrip (py "ENDENDEND" ++ nl)) (map rstrip [py "a " ++ nl; py "b" ++ nl]).
Proof.
  apply (@Command_returns_lines_before_marker
           3 (py "kv")
           (Popen [py "cdb.exe"] [py "a " ++ nl; py "b" ++ nl;
                                  py "ENDENDEND" ++ nl; py "c" ++ nl])
           [py "a " ++ nl; py "b" ++ nl] (py "ENDENDEND" ++ nl) [py "c" ++ nl]).
  - reflexivity.
  - repeat constructor.
  - reflexivity.
  - simpl. lia.
Defined.

(** C10. Every line that [_Command] returns is free of trailing
    whitespace (stripping it again changes nothing and its last character
    is not a whitespace character, the line terminator included), and none
    contains the marker. *)
Theorem Command_lines_stripped_and_marker_free
        (fuel : nat) (command : str) (d d' : debugger) (lines : list str) :
  _Command fuel command d = Ok lines d' ->
  Forall (fun l => rstrip l = l /\ ends_in_space l = false /\
                   contains _SENTINEL l = false) lines.
Proof.
  rewrite Command_unfold. intros H.
  apply read_reply_inv in H as (pre & m & _ & -> & Hpre & _).
  simpl. apply Forall_forall. intros l Hin.
  apply in_map_iff in Hin as (raw & <- & Hin).
  rewrite Forall_forall in Hpre.
  repeat split.
  - apply rstrip_idem.
  - apply ends_in_space_rstrip.
  - rewrite sentinel_in_rstrip. now apply Hpre.
Qed.

Lemma Command_lines_stripped_and_marker_free_witness :
  Forall (fun l => rstrip l = l /\ ends_in_space l = false /\
                   contains _SENTINEL l = false) [py "a"; py "b"].
Proof.
  apply (@Command_lines_stripped_and_marker_free
           3 (py "kv")
           (Popen [py "cdb.exe"] [py "a " ++ nl; py "b" ++ nl;
                                  py "ENDENDEND" ++ nl; py "c" ++ nl])
           {| argv := [py "cdb.exe"]; stdout := [py "c" ++ nl];
              log := [Write (command_text (py "kv"))] |}
           [py "a"; py "b"]).
  reflexivity.
Defined.

End Channel.

(** ** The orchestrator *)

Section Orchestrator.
Import PyStr.

Lemma bind_Ok_inv {A B} (m : M A) (k : A -> M B) d b d' :
  bind m k d = Ok b d' ->
  exists a d1, m d = Ok a d1 /\ k a d1 = Ok b d'.
Proof.
  unfold bind. destruct (m d) as [a d1|e d1|d1]; try discriminate. eauto.
Qed.

Lemma bind_log {A B} (m : M A) (k : A -> M B) d l1 :
  log (state_of (m d)) = log d ++ l1 ->
  (forall a d1, exists l2, log (state_of (k a d1)) = log d1 ++ l2) ->
  exists l2, log (state_of (bind m k d)) = log d ++ l1 ++ l2.
Proof.
  intros Hm Hk. unfold bind. destruct (m d) as [a d1|e d1|d1]; simpl in *.
  - destruct (Hk a d1) as (l2 & H2). exists l2.
    now rewrite H2, Hm, app_assoc.
  - exists []. now rewrite app_nil_r.
  - exists []. now rewrite app_nil_r.
Qed.

Lemma Command_Ok_log fuel command d lines d1 :
  _Command fuel command d = Ok lines d1 ->
  log d1 = log d ++ sent [command].
Proof.
  intros H. pose proof (Command_log fuel command d) as L.
  now rewrite H in L.
Qed.

(** The counter only grows. *)
Lemma scan_frames_ge (stack : list str) :
  forall acc, (acc <= scan_frames stack acc)%Z.
Proof.
  induction stack as [|l stack IH]; intros acc; simpl; [lia|].
  destruct (find _BAD_ACCESS_INFO_FRAME l =? -1)%Z; [|lia].
  specialize (IH (acc + 1)%Z). lia.
Qed.

(** Hence the test of line 127 is never true. *)
Lemma scan_frames_never_minus_one (stack : list str) :
  (scan_frames stack 0 =? -1)%Z = false.
Proof. pose proof (scan_frames_ge stack 0). apply Z.eqb_neq. lia. Qed.

Lemma scan_frames_found (pre : list str) :
  forall acc f post,
    Forall (fun l => contains _BAD_ACCESS_INFO_FRAME l = false) pre ->
    contains _BAD_ACCESS_INFO_FRAME f = true ->
    scan_frames (pre ++ f :: post) acc = (acc + Z.of_nat (length pre))%Z.
Proof.
  induction pre as [|l pre IH]; intros acc f post Hpre Hf; simpl.
  - rewrite find_none_iff, Hf. simpl. lia.
  - inversion Hpre as [|? ? Hl Hpre']; subst.
    rewrite find_none_iff, Hl. simpl. rewrite IH; auto. lia.
Qed.

Lemma scan_frames_absent (stack : list str) :
  forall acc,
    Forall (fun l => contains _BAD_ACCESS_INFO_FRAME l = false) stack ->
    scan_frames stack acc = (acc + Z.of_nat (length stack))%Z.
Proof.
  induction stack as [|l stack IH]; intros acc H; simpl; [lia|].
  inversion H as [|? ? Hl H']; subst.
  rewrite find_none_iff, Hl. simpl. rewrite IH; auto. lia.
Qed.

Lemma locate_and_extract_unfold fuel minidump_filename asan_crash_stack :
  locate_and_extract fuel minidump_filename asan_crash_stack =
  extract_report fuel (scan_frames (NormalizeStackTrace asan_crash_stack) 0).
Proof.
  unfold locate_and_extract. now rewrite scan_frames_never_minus_one.
Qed.

Lemma appends_ret {A} (a : A) : appends (ret a).
Proof. intros d. exists []. simpl. now rewrite app_nil_r. Qed.

Lemma appends_raise {A} (e : exn) : appends (@raise A e).
Proof. intros d. exists []. simpl. now rewrite app_nil_r. Qed.

Lemma appends_lift {A} (r : exn + A) : appends (lift r).
Proof. destruct r; [apply appends_raise|apply appends_ret]. Qed.

Lemma appends_stdin_write data : appends (stdin_write data).
Proof. intros d. now exists [Write data]. Qed.

Lemma appends_wait : appends wait.
Proof. intros d. now exists [Wait]. Qed.

Lemma appends_Command fuel command : appends (_Command fuel command).
Proof. intros d. eexists. apply Command_log. Qed.

Lemma appends_bind {A B} (m : M A) (k : A -> M B) :
  appends m -> (forall a, appends (k a)) -> appends (bind m k).
Proof.
  intros Hm Hk d. destruct (Hm d) as (l1 & H1).
  destruct (@bind_log _ _ m k d l1 H1 (fun a d1 => Hk a d1)) as (l2 & H2).
  eauto.
Qed.

Create HintDb appends.
Hint Resolve appends_ret appends_raise appends_lift appends_stdin_write
     appends_wait appends_Command : appends.

Ltac appends_tac :=
  repeat first [ solve [auto with appends] | apply appends_bind; [|intros ?] ].

(** The first thing the extraction phase does is select the frame. *)
Lemma extract_report_selects_frame fuel k d :
  exists evs,
    log (state_of (extract_report fuel k d)) =
    log d ++ Write (command_text (py ".frame " ++ format_X k)) :: evs.
Proof.
  unfold extract_report.
  match goal with
  | |- context [bind ?m0 ?k0] =>
      destruct (@bind_log _ _ m0 k0 d
                  [Write (command_text (py ".frame " ++ format_X k))])
        as (l2 & H); [apply Command_log| |exists l2; exact H]
  end.
  intros _. change (appends
      (bad_access_info <- _Command fuel _GET_BAD_ACCESS_INFO_COMMAND ;;
       popped <- lift (list_pop0 bad_access_info) ;;
       raw_alloc <- _Command fuel _GET_ALLOC_STACK_COMMAND ;;
       raw_free <- _Command fuel _GET_FREE_STACK_COMMAND ;;
       _Command fuel (py ".ecxr") ;;
       raw_crash <- _Command fuel (py "kv") ;;
       stdin_write (py "q" ++ nl) ;;
       wait ;;
       ret (Some {| bad_access_info := snd popped;
                    crash_stack := NormalizeStackTrace raw_crash;
                    alloc_stack := NormalizeStackTrace raw_alloc;
                    free_stack := NormalizeStackTrace raw_free |}))).
  appends_tac.
Qed.

Lemma sent_app (a b : list str) : sent (a ++ b) = sent a ++ sent b.
Proof. apply map_app. Qed.

Lemma sent_not_quit_nor_wait (commands : list str) :
  ~ In quit (sent commands) /\ ~ In Wait (sent commands).
Proof.
  split; intros H; apply in_map_iff in H as (c & Hc & _); [|discriminate].
  inversion Hc as [E]. apply (f_equal (@length ascii)) in E.
  unfold command_text in E. rewrite !length_app in E. simpl in E. lia.
Qed.

(** Taking apart a run that returned: one step per command. *)
Tactic Notation "split_Ok" hyp(H) ident(S) :=
  let a := fresh "a" in
  let d := fresh "d" in
  apply bind_Ok_inv in H as (a & d & S & H).

Ltac step_Ok H :=
  let S := fresh "S" in
  split_Ok H S;
  first [ apply Command_Ok_log in S | injection S as <- <- ].

Ltac chain_logs :=
  repeat match goal with
         | E : log ?x = _ |- context [log ?x] => rewrite E
         end;
  simpl; rewrite <- ?app_assoc; simpl; try reflexivity.

Lemma capture_crash_stack_Ok fuel pdb_path d stack d1 :
  capture_crash_stack fuel pdb_path d = Ok stack d1 ->
  log d1 = log d ++ sent (setup_commands pdb_path).
Proof.
  unfold capture_crash_stack, setup_commands. intros H.
  destruct pdb_path as [p|].
  - split_Ok H S. do 4 step_Ok S. injection S as <- <-.
    step_Ok H. apply Command_Ok_log in H. chain_logs.
  - split_Ok H S. injection S as <- <-.
    step_Ok H. apply Command_Ok_log in H. chain_logs.
Qed.

Lemma extract_report_Ok fuel k d r d' :
  extract_report fuel k d = Ok r d' ->
  exists dump raw_alloc raw_free raw_crash rep,
    r = Some rep /\
    assemble_report dump (NormalizeStackTrace raw_crash)
                    (NormalizeStackTrace raw_alloc)
                    (NormalizeStackTrace raw_free) = inr rep /\
    log d' = log d ++ sent (extraction_commands k) ++ [quit; Wait].
Proof.
  unfold extract_report. intros H.
  step_Ok H. step_Ok H.
  apply bind_Ok_inv in H as (popped & dp & Hpop & H).
  destruct a0 as [|header rest]; [discriminate|]. injection Hpop as <- <-.
  do 4 step_Ok H. do 2 step_Ok H. injection H as <- <-.
  exists (header :: rest). do 4 eexists.
  split; [reflexivity|]. split; [reflexivity|].
  simpl. chain_logs.
Qed.

Lemma ProcessMinidump_unfold fuel minidump_filename cdb_path pdb_path script
      stack d1 :
  capture_crash_stack fuel pdb_path
    (Popen [cdb_path; py "-z"; minidump_filename] script) = Ok stack d1 ->
  ProcessMinidump fuel minidump_filename cdb_path pdb_path script =
  extract_report fuel (scan_frames (NormalizeStackTrace stack) 0) d1.
Proof.
  intros H. unfold ProcessMinidump, bind. rewrite H.
  now rewrite locate_and_extract_unfold.
Qed.

Lemma ProcessMinidump_Ok fuel minidump_filename cdb_path pdb_path script r d' :
  ProcessMinidump fuel minidump_filename cdb_path pdb_path script = Ok r d' ->
  exists stack k rep,
    k = scan_frames (NormalizeStackTrace stack) 0 /\
    r = Some rep /\
    log d' = sent (setup_commands pdb_path ++ extraction_commands k) ++
             [quit; Wait].
Proof.
  intros H. unfold ProcessMinidump in H.
  apply bind_Ok_inv in H as (stack & d1 & Hc & H).
  rewrite locate_and_extract_unfold in H.
  apply capture_crash_stack_Ok in Hc.
  apply extract_report_Ok in H as (? & ? & ? & ? & rep & -> & _ & Hl).
  exists stack. do 2 eexists. repeat split.
  rewrite Hl, Hc, sent_app. simpl. now rewrite <- app_assoc.
Qed.

(** C1 (the code departs from it). On the crash stack
    [stack_without_frame], none of whose normalized frames contains
    [_BAD_ACCESS_INFO_FRAME], the orchestrator does not stop: the counter
    is 1, not -1, so it selects frame 1, runs every extraction command,
    quits and returns a report. *)
Theorem absent_frame_is_not_reported :
  Forall (fun f => contains _BAD_ACCESS_INFO_FRAME f = false)
         (NormalizeStackTrace stack_without_frame) /\
  scan_frames (NormalizeStackTrace stack_without_frame) 0 = 1%Z /\
  exists rep d',
    ProcessMinidump 8 (py "crash.dmp") (py "cdb.exe") None
                    session_without_frame = Ok (Some rep) d' /\
    log d' = sent (setup_commands None ++ extraction_commands 1) ++
             [quit; Wait].
Proof.
  split; [|split].
  - vm_compute. repeat constructor.
  - vm_compute. reflexivity.
  - do 2 eexists. split; vm_compute; reflexivity.
Qed.

(** What the code does for every stack without the frame: it selects the
    index one past the last frame. *)
Lemma absent_frame_selects_past_the_end fuel minidump_filename stack d :
  Forall (fun f => contains _BAD_ACCESS_INFO_FRAME f = false)
         (NormalizeStackTrace stack) ->
  exists evs,
    log (state_of (locate_and_extract fuel minidump_filename stack d)) =
    log d ++
    Write (command_text
             (py ".frame " ++
              format_X (Z.of_nat (length (NormalizeStackTrace stack)))))
    :: evs.
Proof.
  intros H. rewrite locate_and_extract_unfold, scan_frames_absent by exact H.
  apply extract_report_selects_frame.
Qed.

(** C2 (as amended). Whenever the orchestrator returns, the session is
    closed by then: the quit command was written and the child waited
    for, once each and as the last two things done to it.  (Both ways
    the code has of ending a session are covered: the proof does not use
    which of lines 127-133 and 145-147 is taken.) *)
Theorem session_closed_before_report
        fuel minidump_filename cdb_path pdb_path script r d' :
  ProcessMinidump fuel minidump_filename cdb_path pdb_path script = Ok r d' ->
  closed d'.
Proof.
  intros H. unfold ProcessMinidump in H.
  apply bind_Ok_inv in H as (stack & d1 & Hc & H).
  apply capture_crash_stack_Ok in Hc.
  unfold locate_and_extract in H.
  destruct (scan_frames (NormalizeStackTrace stack) 0 =? -1)%Z.
  - discriminate.
  - apply extract_report_Ok in H as (? & ? & ? & ? & rep & _ & _ & Hl).
    exists (sent (setup_commands pdb_path) ++
            sent (extraction_commands
                    (scan_frames (NormalizeStackTrace stack) 0))).
    split.
    + rewrite Hl, Hc. simpl. now rewrite <- app_assoc.
    + rewrite <- sent_app. apply sent_not_quit_nor_wait.
Qed.

Lemma session_closed_before_report_witness :
  exists r d',
    ProcessMinidump 8 (py "crash.dmp") (py "cdb.exe") None
                    session_with_frame = Ok r d' /\
    closed d'.
Proof.
  do 2 eexists. split.
  - vm_compute. reflexivity.
  - eapply (@session_closed_before_report 8 (py "crash.dmp") (py "cdb.exe")
              None session_with_frame).
    vm_compute. reflexivity.
Defined.

(** C2 as stated fails: with an empty error-info dump the orchestrator
    ends in [IndexError], and the child has neither been told to quit nor
    been waited for. *)
Lemma exception_leaves_session_open :
  exists d',
    ProcessMinidump 8 (py "crash.dmp") (py "cdb.exe") None
                    session_empty_dump = Raise IndexError d' /\
    ~ In quit (log d') /\ ~ In Wait (log d').
Proof.
  eexists. split; [vm_compute; reflexivity|].
  split; intros H; simpl in H;
    repeat (destruct H as [H|H]; [discriminate|]); exact H.
Qed.

(** The branch of lines 127-133 would close the session before it
    reports; it is never entered. *)
Lemma frame_not_found_closes minidump_filename d :
  exists d', frame_not_found minidump_filename d = Raise TypeError d' /\
             log d' = log d ++ [quit; Wait].
Proof.
  eexists. split; [reflexivity|]. simpl. now rewrite <- app_assoc.
Qed.

(** C4. When some normalized frame of the crash stack contains
    [_BAD_ACCESS_INFO_FRAME], the index the orchestrator computes is the
    number of frames in front of the first such frame, and the command it
    sends right after the setup is the frame selection with that index. *)
Theorem selects_index_of_first_sentinel_frame
        fuel minidump_filename cdb_path pdb_path script stack d1
        (pre : list str) (f : str) (post : list str) :
  capture_crash_stack fuel pdb_path
    (Popen [cdb_path; py "-z"; minidump_filename] script) = Ok stack d1 ->
  NormalizeStackTrace stack = pre ++ f :: post ->
  Forall (fun l => contains _BAD_ACCESS_INFO_FRAME l = false) pre ->
  contains _BAD_ACCESS_INFO_FRAME f = true ->
  scan_frames (NormalizeStackTrace stack) 0 = Z.of_nat (length pre) /\
  exists evs,
    log (state_of (ProcessMinidump fuel minidump_filename cdb_path pdb_path
                                   script)) =
    sent (setup_commands pdb_path) ++
    Write (command_text (py ".frame " ++ format_X (Z.of_nat (length pre))))
    :: evs.
Proof.
  intros Hc Hs Hpre Hf.
  assert (Hk : scan_frames (NormalizeStackTrace stack) 0 =
               Z.of_nat (length pre)).
  { rewrite Hs. now rewrite scan_frames_found. }
  split; [exact Hk|].
  rewrite (ProcessMinidump_unfold _ _ _ _ _ Hc), Hk.
  destruct (extract_report_selects_frame fuel (Z.of_nat (length pre)) d1)
    as (evs & H).
  exists evs. rewrite H. apply capture_crash_stack_Ok in Hc.
  rewrite Hc. reflexivity.
Qed.

Lemma selects_index_of_first_sentinel_frame_witness :
  scan_frames (NormalizeStackTrace stack_with_frame) 0 = 2%Z /\
  exists evs,
    log (state_of (ProcessMinidump 8 (py "crash.dmp") (py "cdb.exe") None
                                   session_with_frame)) =
    sent (setup_commands None) ++
    Write (command_text (py ".frame 2")) :: evs.
Proof.
  apply (@selects_index_of_first_sentinel_frame
           8 (py "crash.dmp") (py "cdb.exe") None session_with_frame
           stack_with_frame
           (advance (record (Write (command_text (py "kv")))
                      (record (Write (command_text (py ".lines")))
                         (Popen [py "cdb.exe"; py "-z"; py "crash.dmp"]
                                [])))
                    (skipn 6 session_with_frame))
           (firstn 2 (NormalizeStackTrace stack_with_frame))
           (nth 2 (NormalizeStackTrace stack_with_frame) [])
           (skipn 3 (NormalizeStackTrace stack_with_frame))).
  - vm_compute. reflexivity.
  - vm_compute. reflexivity.
  - vm_compute. repeat constructor.
  - vm_compute. reflexivity.
Defined.

(** C9 (as amended). For every error-info dump that has a first line and
    every three stacks, the assembly succeeds: the report holds the dump
    without its first line and the stacks as given. *)
Theorem assemble_report_nonempty_dump
        (header : str) (rest crash alloc free : list str) :
  assemble_report (header :: rest) crash alloc free =
  inr {| bad_access_info := rest; crash_stack := crash;
         alloc_stack := alloc; free_stack := free |}.
Proof. reflexivity. Qed.

(** C9 as stated fails: on an empty dump the header strip raises. *)
Lemma assemble_report_empty_dump_raises :
  assemble_report [] [] [] [] = inl IndexError /\
  ~ (forall dump crash alloc free,
        exists rep, assemble_report dump crash alloc free = inr rep).
Proof.
  split; [reflexivity|].
  intros H. destruct (H [] [] [] []) as (rep & Hrep). discriminate.
Qed.

End Orchestrator.

(** ** The matcher *)

Section MatcherFacts.
Variable R : Type.

Lemma iter_O r1 (k : str -> captures -> option R) s c :
  iter r1 k 0 s c = k s c.
Proof. reflexivity. Qed.

Lemma iter_S r1 (k : str -> captures -> option R) n s c :
  iter r1 k (S n) s c =
  match rmatch r1 s c
          (fun s1 c1 => if (length s1 <? length s)%nat
                        then iter r1 k n s1 c1 else None) with
  | Some x => Some x
  | None => k s c
  end.
Proof. reflexivity. Qed.

Lemma rmatch_Star r1 s c (k : str -> captures -> option R) :
  rmatch (Star r1) s c k = iter r1 k (length s) s c.
Proof. reflexivity. Qed.

(** Soundness: a result of the matcher comes from a match of the pattern
    on a prefix, followed by a successful continuation. *)
Lemma rmatch_sound (r : regex) :
  forall s c (k : str -> captures -> option R) x,
    rmatch r s c k = Some x ->
    exists p rest c',
      s = p ++ rest /\ den r p rest c c' /\ k rest c' = Some x.
Proof.
  induction r as [|f|r1 IH1 r2 IH2|r1 IH1 r2 IH2|r1 IH1|name r1 IH1|];
    intros s c k x H.
  - exists [], s, c. simpl in *. auto.
  - simpl in H. destruct s as [|a t]; [discriminate|].
    destruct (f a) eqn:Fa; [|discriminate].
    exists [a], t, c. simpl. eauto 6.
  - simpl in H. apply IH1 in H as (p1 & rest1 & c1 & -> & D1 & H).
    apply IH2 in H as (p2 & rest & c2 & -> & D2 & H).
    exists (p1 ++ p2), rest, c2. rewrite <- app_assoc.
    split; [reflexivity|]. split; [|exact H].
    simpl. exists p1, p2, c1. auto.
  - simpl in H. destruct (rmatch r1 s c k) eqn:E.
    + injection H as ->. apply IH1 in E as (p & rest & c' & -> & D & H).
      exists p, rest, c'. simpl. auto.
    + apply IH2 in H as (p & rest & c' & -> & D & H).
      exists p, rest, c'. simpl. auto.
  - rewrite rmatch_Star in H. revert H.
    generalize (length s). intros n. revert s c.
    induction n as [|n IHn]; intros s c H; simpl in H.
    + exists [], s, c. simpl. split; [reflexivity|]. split; [constructor|auto].
    + match type of H with
      | match ?e with _ => _ end = _ => destruct e eqn:E
      end.
      * injection H as ->.
        apply IH1 in E as (p1 & rest1 & c1 & -> & D1 & H).
        destruct (length rest1 <? length (p1 ++ rest1))%nat; [|discriminate].
        apply IHn in H as (p2 & rest & c2 & -> & D2 & H).
        exists (p1 ++ p2), rest, c2. rewrite <- app_assoc.
        split; [reflexivity|]. split; [|exact H].
        simpl. econstructor; eauto.
      * exists [], s, c. simpl. split; [reflexivity|].
        split; [constructor|auto].
  - simpl in H. apply IH1 in H as (p & rest & c1 & -> & D & H).
    exists p, rest, ((name, p) :: c1). split; [reflexivity|].
    split; [simpl; eauto|].
    rewrite length_app, Nat.add_sub, firstn_app, Nat.sub_diag, firstn_all in H.
    simpl in H. now rewrite app_nil_r in H.
  - simpl in H. destruct (at_end s) eqn:E; [|discriminate].
    exists [], s, c. simpl. auto.
Qed.

(** A star over a single character set is the greedy loop on the string. *)
Lemma iter_class (f : ascii -> bool) (k : str -> captures -> option R) c :
  forall n s, (length s <= n)%nat ->
    iter (Class f) k n s c = star_class f s (fun s' => k s' c).
Proof.
  induction n as [|n IH]; intros s Hn.
  - destruct s; [reflexivity|simpl in Hn; lia].
  - destruct s as [|a t]; [reflexivity|].
    cbn [iter star_class rmatch]. destruct (f a); [|reflexivity].
    assert (L : (length t <? length (a :: t))%nat = true)
      by (apply Nat.ltb_lt; simpl; lia).
    rewrite L, IH by (simpl in Hn; lia). reflexivity.
Qed.

Lemma rmatch_Star_Class f s c (k : str -> captures -> option R) :
  rmatch (Star (Class f)) s c k = star_class f s (fun s' => k s' c).
Proof. rewrite rmatch_Star. now apply iter_class. Qed.

Lemma rmatch_Plus_Class f s c (k : str -> captures -> option R) :
  rmatch (Plus (Class f)) s c k =
  match s with
  | a :: t => if f a then star_class f t (fun s' => k s' c) else None
  | [] => None
  end.
Proof.
  unfold Plus. cbn [rmatch]. destruct s as [|a t]; [reflexivity|].
  destruct (f a); [|reflexivity]. apply rmatch_Star_Class.
Qed.

(** When every character is in the set, the greedy loop first offers the
    empty remainder. *)
Lemma star_class_all f s (k : str -> option R) x :
  forallb f s = true -> k [] = Some x -> star_class f s k = Some x.
Proof.
  intros Hs Hk. induction s as [|a t IH]; [exact Hk|].
  simpl in *. apply andb_true_iff in Hs as [Ha Ht].
  now rewrite Ha, IH.
Qed.

Lemma star_class_none_here f s (k : str -> option R) :
  star_class f s k = None -> k s = None.
Proof.
  destruct s as [|a t]; simpl; [auto|].
  destruct (f a); [|auto]. destruct (star_class f t k); [discriminate|auto].
Qed.

Lemma star_class_none f w rest (k : str -> option R) :
  forallb f w = true -> star_class f (w ++ rest) k = None -> k rest = None.
Proof.
  induction w as [|b w IH]; intros Hw H.
  - now apply star_class_none_here in H.
  - simpl in *. apply andb_true_iff in Hw as [Hb Hw]. rewrite Hb in H.
    destruct (star_class f (w ++ rest) k) eqn:E; [discriminate|].
    now apply IH.
Qed.

(** The remainder the greedy loop settles on is the shortest one that the
    continuation accepts. *)
Lemma star_class_inv f (k : str -> option R) x :
  forall s, star_class f s k = Some x ->
    exists w rest,
      s = w ++ rest /\ forallb f w = true /\ k rest = Some x /\
      forall w2 rest2, rest = w2 ++ rest2 -> w2 <> [] ->
                       forallb f w2 = true -> k rest2 = None.
Proof.
  induction s as [|a t IH]; intros H.
  - exists [], []. simpl in *. repeat split; auto.
    intros w2 rest2 E Hne. destruct w2; [congruence|discriminate].
  - simpl in H. destruct (f a) eqn:Fa.
    + destruct (star_class f t k) eqn:E.
      * injection H as ->.
        destruct (IH eq_refl) as (w & rest & -> & Hw & Hk & Hmin).
        exists (a :: w), rest. simpl. rewrite Fa. repeat split; auto.
      * exists [], (a :: t). simpl. repeat split; auto.
        intros w2 rest2 E2 Hne Hw2.
        destruct w2 as [|b w2]; [congruence|].
        injection E2 as <- ->. simpl in Hw2.
        apply andb_true_iff in Hw2 as [_ Hw2].
        now apply star_class_none with (f := f) (w := w2).
    + exists [], (a :: t). simpl. repeat split; auto.
      intros w2 rest2 E2 Hne Hw2.
      destruct w2 as [|b w2]; [congruence|].
      injection E2 as <- ->. simpl in Hw2. rewrite Fa in Hw2. discriminate.
Qed.

End MatcherFacts.

(** ** The frame pattern *)

Section FramePattern.

Lemma rmatch_Cat (R : Type) r1 r2 s c (k : str -> captures -> option R) :
  rmatch (Cat r1 r2) s c k = rmatch r1 s c (fun s1 c1 => rmatch r2 s1 c1 k).
Proof. reflexivity. Qed.

Lemma rmatch_Or (R : Type) r1 r2 s c (k : str -> captures -> option R) :
  rmatch (Or r1 r2) s c k =
  match rmatch r1 s c k with
  | Some x => Some x
  | None => rmatch r2 s c k
  end.
Proof. reflexivity. Qed.

Lemma rmatch_Named (R : Type) name r1 s c (k : str -> captures -> option R) :
  rmatch (Named name r1) s c k =
  rmatch r1 s c
    (fun s1 c1 => k s1 ((name, firstn (length s - length s1) s) :: c1)).
Proof. reflexivity. Qed.

Lemma star_of_class f p rest c c' :
  star_of (den (Class f)) p rest c c' -> forallb f p = true /\ c' = c.
Proof.
  induction 1 as [|p1 p2 rest c c1 c2 (a & -> & Fa & ->) _ (IH1 & IH2)].
  - auto.
  - simpl. rewrite Fa, IH1. auto.
Qed.

Lemma den_Plus_class f p rest c c' :
  den (Plus (Class f)) p rest c c' ->
  exists a t, p = a :: t /\ f a = true /\ forallb f t = true /\ c' = c.
Proof.
  simpl. intros (p1 & p2 & c1 & -> & (a & -> & Fa & ->) & H).
  apply star_of_class in H as (H & ->). exists a, p2. auto.
Qed.

Lemma den_Star_class f p rest c c' :
  den (Star (Class f)) p rest c c' -> forallb f p = true /\ c' = c.
Proof. apply star_of_class. Qed.

Lemma hex_or_blank_hex (s : str) :
  forallb is_hex s = true -> forallb hex_or_blank s = true.
Proof.
  induction s as [|a t IH]; simpl; [auto|]. intros H.
  apply andb_true_iff in H as [Ha Ht]. unfold hex_or_blank at 1.
  now rewrite Ha, IH.
Qed.

Lemma hex_or_blank_blank (s : str) :
  forallb (fun b => (b =? " ")%char) s = true ->
  forallb hex_or_blank s = true.
Proof.
  induction s as [|a t IH]; simpl; [auto|]. intros H.
  apply andb_true_iff in H as [Ha Ht]. unfold hex_or_blank at 1, is_blank.
  now rewrite Ha, orb_true_r, IH.
Qed.

Lemma den_arg_field p rest c c' :
  den arg_field p rest c c' ->
  c' = c /\ forallb hex_or_blank p = true /\
  exists a hs t, p = a :: hs ++ " "%char :: t /\
                 is_hex a = true /\ forallb is_hex hs = true.
Proof.
  unfold arg_field.
  intros (p1 & p2 & c1 & -> & H1 & H2).
  apply den_Plus_class in H1 as (a & hs & -> & Ha & Hhs & ->).
  apply den_Plus_class in H2 as (b & t & -> & Hb & Ht & ->).
  split; [reflexivity|]. split.
  - rewrite forallb_app.
    rewrite (hex_or_blank_hex (a :: hs)) by (simpl; now rewrite Ha).
    apply (hex_or_blank_blank (b :: t)). simpl. now rewrite Hb.
  - apply Ascii.eqb_eq in Hb. subst b. exists a, hs, t. auto.
Qed.

Lemma star_of_arg_field p rest c c' :
  star_of (den arg_field) p rest c c' ->
  c' = c /\ forallb hex_or_blank p = true.
Proof.
  induction 1 as [|p1 p2 rest c c1 c2 H1 _ (IH1 & IH2)]; [auto|].
  apply den_arg_field in H1 as (-> & H1 & _).
  split; [exact IH1|]. now rewrite forallb_app, H1.
Qed.

Lemma den_sf_args A rest c c' :
  den sf_args A rest c c' ->
  c' = ("args"%string, A) :: c /\ forallb hex_or_blank A = true /\
  exists a hs t, A = a :: hs ++ " "%char :: t /\
                 is_hex a = true /\ forallb is_hex hs = true.
Proof.
  unfold sf_args.
  intros (c1 & (p1 & p2 & c2 & -> & H1 & H2) & ->).
  apply den_arg_field in H1 as (-> & HA & a & hs & t & -> & Ha & Hhs).
  apply star_of_arg_field in H2 as (-> & HB).
  split; [reflexivity|]. split; [now rewrite forallb_app, HA|].
  exists a, hs, (t ++ p2).
  simpl. rewrite <- app_assoc. auto.
Qed.

Lemma den_sf_module p rest c c' :
  den sf_module p rest c c' ->
  exists M, M <> [] /\ forallb not_space M = true /\
    ((p = M /\ c' = ("module"%string, M) :: c) \/
     (exists L, p = M ++ "!"%char :: L /\ forallb not_newline L = true /\
                c' = ("location"%string, L) :: ("module"%string, M) :: c)).
Proof.
  unfold sf_module, Maybe.
  intros (p1 & p2 & c1 & -> & (c0 & H1 & ->) & H2).
  apply den_Plus_class in H1 as (a & t & -> & Ha & Ht & ->).
  exists (a :: t). split; [discriminate|]. split; [simpl; now rewrite Ha|].
  destruct H2 as [(q1 & q2 & c2 & -> & (b & -> & Hb & ->) & (c3 & H3 & ->))
                 |(-> & ->)].
  - apply Ascii.eqb_eq in Hb. subst b.
    apply den_Star_class in H3 as (HL & ->).
    right. exists q2. auto.
  - left. now rewrite app_nil_r.
Qed.

Lemma den_sf_address p rest c c' :
  den sf_address p rest c c' ->
  c' = ("address"%string, p) :: c /\
  exists x h, p = "0"%char :: x :: h /\
              (PyStr.lower x =? PyStr.lower "x")%char = true /\
              forallb is_hex h = true.
Proof.
  unfold sf_address.
  intros (c1 & (p1 & p2 & c2 & -> & (a & -> & Ha & ->) & H) & ->).
  destruct H as (q1 & q2 & c3 & -> & (x & -> & Hx & ->) & H).
  apply den_Plus_class in H as (b & t & -> & Hb & Ht & ->).
  apply Ascii.eqb_eq in Ha. subst a.
  split; [reflexivity|]. exists x, (b :: t). simpl. rewrite Hb. auto.
Qed.

Lemma frame_match_shape line m :
  re_match _STACK_FRAME_RE line = Some m ->
  frame_shape line m /\
  exists a hs t, line = a :: hs ++ " "%char :: t /\
                 is_hex a = true /\ forallb is_hex hs = true.
Proof.
  unfold re_match. intros H.
  apply rmatch_sound in H as (p & rest & c' & -> & D & H).
  injection H as ->.
  destruct D as (A & p2 & c1 & -> & DA & (q & q' & c2 & -> & DM & DD)).
  destruct DD as (-> & -> & He).
  apply den_sf_args in DA as (-> & HA & a & hs & t & -> & Ha & Hhs).
  split.
  - rewrite app_nil_r, <- app_assoc. simpl app at 2.
    destruct DM as [DM|DM].
    + apply den_sf_module in DM as (M & Hne & HM & [(-> & ->)|(L & -> & HL & ->)]).
      * eapply shape_module; eauto.
      * eapply shape_location; eauto.
        now rewrite <- app_assoc.
    + apply den_sf_address in DM as (-> & _).
      eapply shape_address; eauto.
  - exists a, hs, (t ++ (q ++ []) ++ rest). simpl.
    now rewrite <- !app_assoc.
Qed.

Lemma hex_not_space a : is_hex a = true -> not_space a = true.
Proof.
  unfold not_space. destruct (Ascii.eqb_spec a " "); [subst|reflexivity].
  vm_compute. auto.
Qed.

Lemma x_not_space a :
  (PyStr.lower a =? PyStr.lower "x")%char = true -> not_space a = true.
Proof.
  unfold not_space. destruct (Ascii.eqb_spec a " "); [subst|reflexivity].
  vm_compute. auto.
Qed.

Lemma forallb_impl (f g : ascii -> bool) (s : str) :
  (forall a, f a = true -> g a = true) ->
  forallb f s = true -> forallb g s = true.
Proof.
  intros Hfg. induction s as [|a t IH]; simpl; [auto|].
  intros H. apply andb_true_iff in H as [Ha Ht].
  now rewrite (Hfg a Ha), IH.
Qed.

Lemma at_end_not_space e : at_end e = true -> forallb not_space e = true.
Proof.
  destruct e as [|a [|b e]]; simpl; try discriminate; [auto|].
  intros H. apply Ascii.eqb_eq in H. subst. reflexivity.
Qed.

Lemma rmatch_sf_module s c :
  rmatch sf_module s c (fun s1 c1 => rmatch Dollar s1 c1 (fun _ c2 => Some c2)) =
  match s with
  | a :: t =>
      if not_space a
      then star_class not_space t
             (fun s1 => after_module s1
                          (("module"%string,
                            firstn (length s - length s1) s) :: c))
      else None
  | [] => None
  end.
Proof.
  unfold sf_module. rewrite rmatch_Cat, rmatch_Named, rmatch_Plus_Class.
  reflexivity.
Qed.

(** A token without blanks that ends the line is taken whole by the
    module branch. *)
Lemma module_branch_takes_token s c :
  s <> [] -> forallb not_space s = true ->
  rmatch sf_module s c
         (fun s1 c1 => rmatch Dollar s1 c1 (fun _ c2 => Some c2)) =
  Some (("module"%string, s) :: c).
Proof.
  intros Hne Hs. rewrite rmatch_sf_module.
  destruct s as [|a t]; [congruence|].
  simpl in Hs. apply andb_true_iff in Hs as [Ha Ht]. rewrite Ha.
  apply star_class_all; [exact Ht|].
  unfold after_module. simpl. now rewrite firstn_all.
Qed.

(** The address group is never set: whatever the address branch could
    match, the module branch, tried first, matches as well. *)
Lemma address_group_never_set line m :
  re_match _STACK_FRAME_RE line = Some m -> group m "address" = None.
Proof.
  unfold re_match, _STACK_FRAME_RE. rewrite rmatch_Cat. intros H.
  apply rmatch_sound in H as (A & rest & c1 & -> & DA & H).
  rewrite rmatch_Cat, rmatch_Or in H.
  match type of H with
  | match ?e with _ => _ end = _ => destruct e as [m'|] eqn:E
  end.
  - injection H as ->.
    apply rmatch_sound in E as (p & e & c' & -> & DM & H).
    simpl in H. destruct (at_end e); [|discriminate]. injection H as ->.
    apply den_sf_args in DA as (-> & _).
    apply den_sf_module in DM as (M & _ & _ & [(_ & ->)|(L & _ & _ & ->)]);
      reflexivity.
  - apply rmatch_sound in H as (X & e & c' & -> & DX & H).
    simpl in H. destruct (at_end e) eqn:He; [|discriminate].
    apply den_sf_address in DX as (_ & x & h & -> & Hx & Hh).
    rewrite module_branch_takes_token in E; [discriminate|discriminate|].
    simpl. rewrite (x_not_space _ Hx). simpl.
    rewrite forallb_app, (forallb_impl _ _ _ hex_not_space Hh).
    now rewrite at_end_not_space.
Qed.

(** A location that is matched is never the empty string: a line that
    ends right after the [!] is taken whole by the module group. *)
Lemma location_group_never_empty line m :
  re_match _STACK_FRAME_RE line = Some m -> group m "location" <> Some [].
Proof.
  unfold re_match, _STACK_FRAME_RE. rewrite rmatch_Cat. intros H.
  apply rmatch_sound in H as (A & rest & c1 & -> & DA & H).
  apply den_sf_args in DA as (-> & _).
  rewrite rmatch_Cat, rmatch_Or in H.
  match type of H with
  | match ?e with _ => _ end = _ => destruct e as [m'|] eqn:E
  end.
  - injection H as ->. rewrite rmatch_sf_module in E.
    destruct rest as [|a t]; [discriminate|].
    destruct (not_space a) eqn:Ha; [|discriminate].
    apply star_class_inv in E as (w & r & -> & Hw & Hk & Hmin).
    unfold after_module in Hk. unfold Maybe in Hk. rewrite rmatch_Or in Hk.
    match type of Hk with
    | match ?e with _ => _ end = _ => destruct e as [m''|] eqn:E2
    end.
    + injection Hk as ->.
      apply rmatch_sound in E2 as (p & e & c' & -> & D & H).
      simpl in H. destruct (at_end e) eqn:He; [|discriminate].
      injection H as ->.
      destruct D as (q1 & q2 & c2 & -> & (b & -> & Hb & ->) & (c3 & D3 & ->)).
      apply den_Star_class in D3 as (_ & ->).
      simpl. intros HL. injection HL as ->.
      apply Ascii.eqb_eq in Hb. subst b.
      specialize (Hmin ("!"%char :: e) []
                       ltac:(simpl; now rewrite app_nil_r)
                       ltac:(discriminate)).
      simpl in Hmin. rewrite at_end_not_space in Hmin by exact He.
      specialize (Hmin eq_refl). discriminate.
    + simpl in Hk. destruct (at_end r); [|discriminate].
      injection Hk as <-. simpl. discriminate.
  - apply rmatch_sound in H as (X & e & c' & -> & DX & H).
    simpl in H. destruct (at_end e); [|discriminate]. injection H as ->.
    apply den_sf_address in DX as (-> & _). simpl. discriminate.
Qed.

End FramePattern.

(** ** The normalizer *)

Section Normalizer.

Lemma fold_normalize_step (lines : list str) :
  forall acc,
    fold_left normalize_step lines acc = acc ++ frames_line_by_line lines.
Proof.
  induction lines as [|l lines IH]; intros acc; simpl.
  - now rewrite app_nil_r.
  - rewrite IH. unfold normalize_step, parse_and_render.
    destruct (re_match _STACK_FRAME_RE l); simpl.
    + now rewrite <- app_assoc.
    + reflexivity.
Qed.

Lemma NormalizeStackTrace_line_by_line (lines : list str) :
  NormalizeStackTrace lines = frames_line_by_line lines.
Proof. unfold NormalizeStackTrace. now rewrite fold_normalize_step. Qed.

Lemma NormalizeStackTrace_app (l1 l2 : list str) :
  NormalizeStackTrace (l1 ++ l2) =
  NormalizeStackTrace l1 ++ NormalizeStackTrace l2.
Proof.
  rewrite !NormalizeStackTrace_line_by_line. unfold frames_line_by_line.
  apply flat_map_app.
Qed.

(** A line that is kept begins with hexadecimal digits and a blank. *)
Lemma kept_line_begins_with_field (line f : str) :
  parse_and_render line = Some f ->
  exists a hs t, line = a :: hs ++ " "%char :: t /\
                 is_hex a = true /\ forallb is_hex hs = true.
Proof.
  unfold parse_and_render.
  destruct (re_match _STACK_FRAME_RE line) as [m|] eqn:E; [|discriminate].
  intros _. now apply frame_match_shape in E as (_ & H).
Qed.

Lemma blank_falls_in_fields (A S u v : str) :
  A ++ S = u ++ " "%char :: v -> forallb not_space S = true ->
  exists A', A = u ++ " "%char :: A'.
Proof.
  intros E HS. apply app_eq_app in E as (l & [(-> & E)|(-> & E)]).
  - destruct l as [|b l].
    + simpl in E. subst S. discriminate.
    + injection E as <- _. eauto.
  - subst S. rewrite forallb_app in HS. simpl in HS.
    now rewrite andb_false_r in HS.
Qed.

(** In a line that is kept, what stands in front of a blank is made of
    hexadecimal digits and blanks only, unless a [!] has come before: a
    module or address token followed by a blank and more text makes the
    line fail. *)
Lemma kept_line_before_blank (u v f : str) :
  parse_and_render (u ++ " "%char :: v) = Some f ->
  existsb is_bang u = true \/ forallb hex_or_blank u = true.
Proof.
  unfold parse_and_render.
  destruct (re_match _STACK_FRAME_RE (u ++ " "%char :: v)) as [m|] eqn:E;
    [|discriminate].
  intros _. pose proof (address_group_never_set _ E) as Ha.
  apply frame_match_shape in E as (S & _).
  destruct S as [A M e E HA _ HM He ->|A M L e E HA _ HM _ _ ->|A X e _ _ ->];
    [| |discriminate].
  - right. symmetry in E. apply blank_falls_in_fields in E as (A' & ->).
    + rewrite forallb_app in HA. now apply andb_true_iff in HA as [HA _].
    + now rewrite forallb_app, HM, at_end_not_space.
  - rewrite app_assoc in E. symmetry in E.
    apply app_eq_app in E as (l & [(E1 & E2)|(-> & E2)]).
    + right. destruct l as [|b l]; [discriminate|]. injection E2 as <- _.
      apply blank_falls_in_fields in E1 as (A' & ->); [|exact HM].
      rewrite forallb_app in HA. now apply andb_true_iff in HA as [HA _].
    + left. destruct l as [|b l]; [discriminate|]. injection E2 as <- _.
      rewrite existsb_app. simpl. apply orb_true_r.
Qed.

(** *** Symbol normalization *)




Lemma star_class_greedy (R : Type) f (w rest : str) (k : str -> option R) x :
  forallb f w = true -> stops f rest -> k rest = Some x ->
  star_class f (w ++ rest) k = Some x.
Proof.
  intros Hw Hrest Hk. induction w as [|a w IH]; simpl.
  - destruct rest as [|b rest]; [exact Hk|]. simpl in *.
    now rewrite Hrest.
  - simpl in Hw. apply andb_true_iff in Hw as [Ha Hw].
    now rewrite Ha, IH.
Qed.



(** *** A second pass over rendered frames *)





Lemma rmatch_lit_i (R : Type) (w : str) :
  forall s c (k : str -> captures -> option R),
    rmatch (lit_i w) s c k =
    if PyStr.startswith (map PyStr.lower w) (map PyStr.lower s)
    then k (skipn (length w) s) c else None.
Proof.
  induction w as [|a w IH]; intros s c k; [reflexivity|].
  cbn [lit_i]. rewrite rmatch_Cat. unfold chr_i. cbn [rmatch].
  destruct s as [|b s]; [reflexivity|].
  cbn [map PyStr.startswith length skipn].
  rewrite (Ascii.eqb_sym (PyStr.lower a) (PyStr.lower b)).
  destruct (PyStr.lower b =? PyStr.lower a)%char; [|reflexivity].
  apply IH.
Qed.

Lemma chrome_needs_the_word (s : str) :
  PyStr.startswith (py "chrome") (map PyStr.lower s) = false ->
  match_length _CHROME_RE s = None.
Proof.
  intros H. unfold match_length, _CHROME_RE.
  rewrite rmatch_Cat, rmatch_lit_i.
  change (map PyStr.lower (py "chrome")) with (py "chrome"). now rewrite H.
Qed.







(** *** Lines with a bare address *)

Lemma lower_x_not_hex (x : ascii) :
  PyStr.lower x = "x"%char -> is_hex x = false.
Proof.
  destruct x as [[] [] [] [] [] [] [] []]; vm_compute; congruence.
Qed.

Lemma hex_not_h (b : ascii) :
  is_hex b = true -> (PyStr.lower b =? "h")%char = false.
Proof.
  destruct b as [[] [] [] [] [] [] [] []]; vm_compute; congruence.
Qed.

(** One argument field is taken whole when neither of its two runs can go
    on. *)
Lemma rmatch_arg_field_greedy (R : Type) (h sp rest : str) c
      (k : str -> captures -> option R) x :
  h <> [] -> forallb is_hex h = true ->
  sp <> [] -> forallb is_blank sp = true ->
  stops is_blank rest ->
  k rest c = Some x ->
  rmatch arg_field (h ++ sp ++ rest) c k = Some x.
Proof.
  intros Hh1 Hh2 Hs1 Hs2 Hrest Hk.
  destruct h as [|a h]; [congruence|]. destruct sp as [|b sp]; [congruence|].
  simpl in Hh2, Hs2. apply andb_true_iff in Hh2 as [Ha Hh].
  apply andb_true_iff in Hs2 as [Hb Hs].
  unfold arg_field. rewrite rmatch_Cat, rmatch_Plus_Class.
  simpl app. cbv iota. rewrite Ha.
  apply star_class_greedy; [exact Hh| |].
  - simpl. unfold is_blank in Hb. apply Ascii.eqb_eq in Hb. now subst b.
  - unfold chr. rewrite rmatch_Plus_Class. simpl app. cbv iota.
    unfold is_blank in Hb. rewrite Hb.
    now apply star_class_greedy.
Qed.

Lemma address_token_no_space (X : str) :
  address_token X -> X <> [] /\ forallb not_space X = true.
Proof.
  intros (x & h & -> & Hx & _ & Hh). split; [discriminate|].
  simpl. rewrite x_not_space by (rewrite Hx; reflexivity). simpl.
  exact (forallb_impl _ _ _ hex_not_space Hh).
Qed.

(** An address token does not begin another argument field. *)
Lemma arg_field_fails_on_address (R : Type) (X : str) c
      (k : str -> captures -> option R) :
  address_token X -> rmatch arg_field X c k = None.
Proof.
  intros (x & h & -> & Hx & _ & _).
  unfold arg_field. rewrite rmatch_Cat, rmatch_Plus_Class.
  change (is_hex "0") with true. cbv iota.
  cbn [star_class]. rewrite (lower_x_not_hex _ Hx).
  unfold chr. rewrite rmatch_Plus_Class.
  assert (Hb : (x =? " ")%char = false).
  { destruct (Ascii.eqb_spec x " "); [subst; discriminate|reflexivity]. }
  now rewrite Hb.
Qed.

Lemma fields_then_stops (rest line : str) :
  fields_then rest line -> stops is_blank line.
Proof.
  assert (G : forall h t, h <> [] -> forallb is_hex h = true ->
                          stops is_blank (h ++ t)).
  { intros [|a h] t Hne Hh; [congruence|]. simpl in *.
    apply andb_true_iff in Hh as [Ha _]. apply hex_not_space in Ha.
    unfold not_space in Ha. unfold is_blank.
    now destruct (a =? " ")%char. }
  destruct 1; now apply G.
Qed.

Lemma fields_then_app (rest line : str) :
  fields_then rest line -> exists A, line = A ++ rest.
Proof.
  induction 1 as [h sp _ _ _ _|h sp line _ _ _ _ _ (A & ->)].
  - exists (h ++ sp). now rewrite <- app_assoc.
  - exists (h ++ sp ++ A). now rewrite <- !app_assoc.
Qed.

(** The loop over argument fields runs through all of them and hands the
    address token to what follows. *)
Lemma iter_fields (R : Type) (X : str) (k : str -> captures -> option R) c x :
  address_token X ->
  k X c = Some x ->
  forall line, line = X \/ fields_then X line ->
  forall n, (length line <= n)%nat ->
  iter arg_field k n line c = Some x.
Proof.
  intros HX Hk.
  assert (HXs : stops is_blank X).
  { destruct HX as (x0 & h & -> & _). reflexivity. }
  assert (Base : forall n, iter arg_field k n X c = Some x).
  { intros [|n]; [exact Hk|].
    now rewrite iter_S, arg_field_fails_on_address. }
  assert (Step : forall h sp line n,
             h <> [] -> forallb is_hex h = true ->
             sp <> [] -> forallb is_blank sp = true ->
             stops is_blank line ->
             (forall n', (length line <= n')%nat ->
                         iter arg_field k n' line c = Some x) ->
             (length (h ++ sp ++ line) <= n)%nat ->
             iter arg_field k n (h ++ sp ++ line) c = Some x).
  { intros h sp line n H1 H2 H3 H4 H5 IH Hn.
    assert (Hl : (length line < length (h ++ sp ++ line))%nat).
    { rewrite !length_app. destruct h; [congruence|]. simpl. lia. }
    destruct n as [|n]; [lia|]. rewrite iter_S.
    erewrite rmatch_arg_field_greedy; eauto.
    apply Nat.ltb_lt in Hl as Hl'. rewrite Hl'. apply IH. lia. }
  intros line [->|F].
  - intros n _. apply Base.
  - induction F as [h sp H1 H2 H3 H4|h sp line H1 H2 H3 H4 F IH];
      intros n Hn.
    + apply Step; auto. 
    + apply Step; auto. eapply fields_then_stops; eauto.
Qed.

(** The match of a line made of argument fields and a bare address: the
    address token is the module group. *)
Lemma bare_address_line_match (X line : str) :
  address_token X -> fields_then X line ->
  exists A, line = A ++ X /\
            re_match _STACK_FRAME_RE line =
            Some [("module"%string, X); ("args"%string, A)].
Proof.
  intros HX F. destruct (fields_then_app F) as (A & EA). exists A.
  split; [exact EA|].
  destruct (address_token_no_space HX) as (Xne & Xns).
  assert (K : forall c,
             rmatch (Cat (Or sf_module sf_address) Dollar) X c
                    (fun _ c2 => Some c2) = Some (("module"%string, X) :: c)).
  { intros c. rewrite rmatch_Cat, rmatch_Or.
    now rewrite module_branch_takes_token. }
  unfold re_match, _STACK_FRAME_RE. rewrite rmatch_Cat.
  unfold sf_args. rewrite rmatch_Named. unfold Plus at 1. rewrite rmatch_Cat.
  assert (Hfirst : firstn (length line - length X) line = A).
  { subst line. rewrite length_app, Nat.add_sub, firstn_app, Nat.sub_diag.
    now rewrite firstn_all, app_nil_r. }
  inversion F as [h sp H1 H2 H3 H4 E|h sp line' H1 H2 H3 H4 F' E].
  - apply rmatch_arg_field_greedy; auto.
    + destruct HX as (x0 & h0 & -> & _). reflexivity.
    + rewrite rmatch_Star. erewrite iter_fields; eauto.
      simpl. rewrite E, Hfirst. apply K.
  - apply rmatch_arg_field_greedy; auto.
    + eapply fields_then_stops; eauto.
    + rewrite rmatch_Star. erewrite iter_fields; eauto.
      simpl. rewrite E, Hfirst. apply K.
Qed.

Lemma chrome_needs_h (a : ascii) (t : str) :
  match t with
  | [] => True
  | b :: _ => (PyStr.lower b =? "h")%char = false
  end ->
  match_length _CHROME_RE (a :: t) = None.
Proof.
  intros H. unfold match_length, _CHROME_RE. rewrite rmatch_Cat.
  cbn [lit_i py list_ascii_of_string rmatch chr_i].
  destruct (PyStr.lower a =? PyStr.lower "c")%char; [|reflexivity].
  destruct t as [|b t]; [reflexivity|].
  change (PyStr.lower "h") with "h"%char. now rewrite H.
Qed.

(** A symbol without the letter h is left as it is. *)
Lemma NormalizeChromeSymbol_without_h (s : str) :
  forallb (fun b => negb (PyStr.lower b =? "h")%char) s = true ->
  NormalizeChromeSymbol s = s.
Proof.
  unfold NormalizeChromeSymbol, re_sub.
  induction s as [|a t IH]; intros H; [reflexivity|].
  simpl in H. apply andb_true_iff in H as [_ Ht].
  cbn [sub_from]. rewrite chrome_needs_h.
  - now rewrite IH.
  - destruct t as [|b t]; [exact I|]. simpl in Ht.
    apply andb_true_iff in Ht as [Hb _]. now apply negb_true_iff in Hb.
Qed.

(** What the code does with every line that consists of argument fields
    and a bare address: it renders the address as a module without
    location. *)
Lemma bare_address_lines_render_in_module_form (X line : str) :
  address_token X -> fields_then X line ->
  NormalizeStackTrace [line] = [X ++ py "!unknown"].
Proof.
  intros HX F.
  destruct (bare_address_line_match HX F) as (A & _ & E).
  unfold NormalizeStackTrace. simpl. unfold normalize_step. rewrite E.
  simpl. unfold render_frame. simpl truthy. cbv iota.
  rewrite NormalizeChromeSymbol_without_h; [reflexivity|].
  destruct HX as (x & h & -> & Hx & _ & Hh). simpl. rewrite Hx. simpl.
  clear -Hh. induction h as [|b h IH]; [reflexivity|].
  simpl in *. apply andb_true_iff in Hh as [Hb Hh].
  now rewrite (hex_not_h _ Hb), IH.
Qed.

Lemma bare_address_lines_render_in_module_form_example :
  NormalizeStackTrace [py "0012f5a4" ++ py "  " ++ py "0X7C90e920"] =
  [py "0X7C90e920" ++ py "!unknown"].
Proof.
  apply bare_address_lines_render_in_module_form.
  - exists "X"%char, (py "7C90e920"). repeat split; discriminate.
  - apply last_field; reflexivity || discriminate.
Defined.

(** C6 (the code departs from it). The line [0012f5a4 0x7c90e920] matches
    the frame pattern with a bare address after one argument field, but
    the module branch of the pattern takes the address token: the address
    group stays unset and the frame is rendered in module form. *)
Theorem bare_address_is_rendered_in_module_form :
  re_match _STACK_FRAME_RE (py "0012f5a4 0x7c90e920") =
    Some [("module"%string, py "0x7c90e920");
          ("args"%string, py "0012f5a4 ")] /\
  parse_and_render (py "0012f5a4 0x7c90e920") =
    Some (py "0x7c90e920!unknown") /\
  NormalizeStackTrace [py "0012f5a4 0x7c90e920"] = [py "0x7c90e920!unknown"].
Proof. repeat split; vm_compute; reflexivity. Qed.

Lemma module_group_always_set (line : str) (m : captures) :
  re_match _STACK_FRAME_RE line = Some m -> group m "module" <> None.
Proof.
  intros E. pose proof (address_group_never_set _ E) as Ha.
  apply frame_match_shape in E as (S & _).
  destruct S as [A M e _ _ _ _ _ ->|A M L e _ _ _ _ _ _ ->|A X e _ _ ->];
    simpl in *; discriminate.
Qed.

(** What is rendered always has the module form. *)
Lemma rendering_has_module_form (line f : str) :
  parse_and_render line = Some f ->
  exists M Y, f = NormalizeChromeSymbol M ++ py "!" ++ Y.
Proof.
  unfold parse_and_render.
  destruct (re_match _STACK_FRAME_RE line) as [m|] eqn:E; [|discriminate].
  intros H. injection H as <-.
  pose proof (address_group_never_set _ E) as Ha.
  apply frame_match_shape in E as (S & _).
  destruct S as [A M e _ _ _ HM _ ->|A M L e _ _ _ HM _ _ ->|A X e _ _ ->];
    [| |discriminate]; simpl; unfold render_frame; simpl truthy; cbv iota;
    do 2 eexists; reflexivity.
Qed.

End Normalizer.

(** * Further properties of the code *)

(** ** The command channel: end of output and framing *)

Section ChannelFraming.
Import PyStr.

(** X1. When no line of the output still to come contains the marker (the
    child has exited, or prints without ever echoing), [_Command] writes
    its command and then never returns, however long it is given: at end of
    file [readline] returns the empty string and the loop goes on. *)
Theorem Command_never_returns_without_marker
        (fuel : nat) (command : str) (d : debugger) :
  marker_free (stdout d) ->
  exists d', _Command fuel command d = Hang d' /\
             log d' = log d ++ [Write (command_text command)].
Proof.
  intros H. rewrite Command_unfold.
  destruct (@read_reply_no_marker fuel []
              (record (Write (command_text command)) d) H) as (d' & E).
  exists d'. split; [exact E|].
  pose proof (read_reply_log fuel []
                (record (Write (command_text command)) d)) as L.
  rewrite E in L. exact L.
Qed.

Lemma Command_never_returns_without_marker_aux
      (fuel : nat) (command : str) (d : debugger) :
  marker_free (stdout d) ->
  exists d', _Command fuel command d = Hang d' /\
             log d' = log d ++ sent [command].
Proof.
  intros H. rewrite Command_unfold.
  destruct (@read_reply_no_marker fuel []
              (record (Write (command_text command)) d) H) as (d' & E).
  exists d'. split; [exact E|].
  pose proof (read_reply_log fuel []
                (record (Write (command_text command)) d)) as L.
  rewrite E in L. exact L.
Qed.

Lemma Command_never_returns_without_marker_witness :
  exists d', _Command 50 (py "kv")
                      (Popen [py "cdb.exe"] [py "quit:" ++ nl]) = Hang d' /\
             log d' = [] ++ [Write (command_text (py "kv"))].
Proof.
  apply (@Command_never_returns_without_marker
           50 (py "kv") (Popen [py "cdb.exe"] [py "quit:" ++ nl])).
  repeat constructor.
Defined.

Lemma Command_returns_lines_before_marker_aux
      (fuel : nat) (command : str) (d : debugger)
      (pre : list str) (m : str) (rest : list str) :
  stdout d = pre ++ m :: rest ->
  marker_free pre -> contains _SENTINEL m = true ->
  length pre < fuel ->
  _Command fuel command d =
    Ok (map rstrip pre)
       {| argv := argv d; stdout := rest;
          log := log d ++ [Write (command_text command)] |}.
Proof.
  intros Hout Hpre Hm Hf. rewrite Command_unfold.
  rewrite (@read_reply_found pre fuel [] _ m rest); auto.
Qed.

(** X2. Two commands sent one after the other return the two stretches of
    output that the first two lines containing the marker delimit, whatever
    those lines are.  So when a line of the first reply merely contains the
    marker, the first command returns only what came before it and the
    second command is handed the remainder of the first reply. *)
Theorem consecutive_commands_read_consecutive_stretches
        (fuel : nat) (c1 c2 : str) (d : debugger)
        (pre1 : list str) (m1 : str) (pre2 : list str) (m2 : str)
        (rest : list str) :
  stdout d = pre1 ++ m1 :: pre2 ++ m2 :: rest ->
  marker_free pre1 -> contains _SENTINEL m1 = true ->
  marker_free pre2 -> contains _SENTINEL m2 = true ->
  length pre1 < fuel -> length pre2 < fuel ->
  (a <- _Command fuel c1 ;; b <- _Command fuel c2 ;; ret (a, b)) d =
  Ok (map rstrip pre1, map rstrip pre2)
     {| argv := argv d; stdout := rest;
        log := log d ++ [Write (command_text c1); Write (command_text c2)] |}.
Proof.
  intros Hout H1 Hm1 H2 Hm2 F1 F2. unfold bind at 1.
  rewrite (@Command_returns_lines_before_marker_aux
             fuel c1 d pre1 m1 (pre2 ++ m2 :: rest) Hout H1 Hm1 F1).
  unfold bind at 1.
  rewrite (@Command_returns_lines_before_marker_aux
             fuel c2
             {| argv := argv d; stdout := pre2 ++ m2 :: rest;
                log := log d ++ [Write (command_text c1)] |}
             pre2 m2 rest eq_refl H2 Hm2 F2).
  unfold ret. simpl. now rewrite <- app_assoc.
Qed.

Lemma consecutive_commands_read_consecutive_stretches_witness :
  (a <- _Command 5 (py "kv") ;; b <- _Command 5 (py "dt error_info") ;;
   ret (a, b))
    (Popen [py "cdb.exe"]
           ([py "frame1" ++ nl] ++ (py "f!ENDENDEND_handler" ++ nl) ::
            [py "frame3" ++ nl] ++ (_SENTINEL ++ nl) ::
            [py "error_info = struct" ++ nl; _SENTINEL ++ nl])) =
  Ok (map rstrip [py "frame1" ++ nl], map rstrip [py "frame3" ++ nl])
     {| argv := [py "cdb.exe"];
        stdout := [py "error_info = struct" ++ nl; _SENTINEL ++ nl];
        log := [] ++ [Write (command_text (py "kv"));
                      Write (command_text (py "dt error_info"))] |}.
Proof.
  apply (@consecutive_commands_read_consecutive_stretches
           5 (py "kv") (py "dt error_info")
           (Popen [py "cdb.exe"]
                  ([py "frame1" ++ nl] ++ (py "f!ENDENDEND_handler" ++ nl) ::
                   [py "frame3" ++ nl] ++ (_SENTINEL ++ nl) ::
                   [py "error_info = struct" ++ nl; _SENTINEL ++ nl]))
           [py "frame1" ++ nl] (py "f!ENDENDEND_handler" ++ nl)
           [py "frame3" ++ nl] (_SENTINEL ++ nl)
           [py "error_info = struct" ++ nl; _SENTINEL ++ nl]).
  - reflexivity.
  - repeat constructor.
  - reflexivity.
  - repeat constructor.
  - reflexivity.
  - simpl. lia.
  - simpl. lia.
Defined.

Lemma Command_framed fuel command a (r rest : list str) l :
  marker_free r -> length r < fuel ->
  _Command fuel command {| argv := a; stdout := framed r ++ rest; log := l |} =
  Ok (map rstrip r)
     {| argv := a; stdout := rest; log := l ++ [Write (command_text command)] |}.
Proof.
  intros Hr Hf.
  apply (@Command_returns_lines_before_marker_aux
           fuel command {| argv := a; stdout := framed r ++ rest; log := l |}
           r (_SENTINEL ++ nl) rest); auto.
  unfold framed. simpl. now rewrite <- app_assoc.
Qed.

End ChannelFraming.

(** ** The orchestrator on whole sessions *)

Section Sessions.
Import PyStr.

Ltac split_Forall :=
  repeat match goal with
         | H : Forall _ (_ :: _) |- _ => inversion H; clear H; subst
         | H : Forall _ [] |- _ => clear H
         end.

Ltac run_commands :=
  repeat (rewrite Command_framed by assumption; cbv beta iota).

(** X3. Against a child that answers every command with a reply closed by
    the marker line (no reply line containing the marker, the error-info
    dump having at least its header line) the orchestrator, given fuel
    beyond the longest reply, returns: it has sent the setup commands, the
    frame selection for the index found in the first crash stack, and the
    extraction commands, then quit and waited; the report holds the dump
    without its header and the normalized allocation, free and second crash
    stacks, each line stripped on the right; the output after the last
    reply is left unread. *)
Theorem ProcessMinidump_on_framed_session
        (fuel : nat) (minidump_filename cdb_path : str) (pdb_path : option str)
        (setup : list (list str))
        (asan r_frame : list str) (header : str)
        (dump alloc free r_ecxr crash rest : list str) :
  S (length setup) = length (setup_commands pdb_path) ->
  Forall marker_free
         (setup ++ [asan; r_frame; header :: dump; alloc; free; r_ecxr; crash]) ->
  Forall (fun r => length r < fuel)
         (setup ++ [asan; r_frame; header :: dump; alloc; free; r_ecxr; crash]) ->
  ProcessMinidump fuel minidump_filename cdb_path pdb_path
    (session
       (setup ++ [asan; r_frame; header :: dump; alloc; free; r_ecxr; crash])
       rest) =
  Ok (Some {| bad_access_info := map rstrip dump;
              crash_stack := NormalizeStackTrace (map rstrip crash);
              alloc_stack := NormalizeStackTrace (map rstrip alloc);
              free_stack := NormalizeStackTrace (map rstrip free) |})
     {| argv := [cdb_path; py "-z"; minidump_filename];
        stdout := rest;
        log := sent (setup_commands pdb_path ++
                     extraction_commands
                       (scan_frames (NormalizeStackTrace (map rstrip asan)) 0))
               ++ [quit; Wait] |}.
Proof.
  intros Hlen Hmf Hfuel.
  unfold ProcessMinidump, Popen, capture_crash_stack.
  destruct pdb_path as [p|]; simpl in Hlen.
  - do 6 (destruct setup as [|? setup]; try discriminate).
    cbn [app session] in *. split_Forall.
    unfold bind. run_commands. unfold ret at 1. cbv beta iota. run_commands.
    rewrite locate_and_extract_unfold. unfold extract_report, bind.
    run_commands. cbn [map list_pop0 lift ret snd]. cbv beta iota.
    run_commands. unfold stdin_write, wait, ret, record. simpl.
    reflexivity.
  - do 2 (destruct setup as [|? setup]; try discriminate).
    cbn [app session] in *. split_Forall.
    unfold bind. unfold ret at 1. cbv beta iota. run_commands.
    rewrite locate_and_extract_unfold. unfold extract_report, bind.
    run_commands. cbn [map list_pop0 lift ret snd]. cbv beta iota.
    run_commands. unfold stdin_write, wait, ret, record. simpl.
    reflexivity.
Qed.

Lemma ProcessMinidump_on_framed_session_witness :
  ProcessMinidump 3 (py "crash.dmp") (py "cdb.exe") None
    (session
       ([[]] ++ [ [py "0012f5a4 7c90e920 asan_rtl!agent::asan::AsanRuntime::OnError+0x12 [r.cc @ 9]" ++ nl];
                  []; [py "error_info = struct" ++ nl; py "  +0 location : 0x1234 " ++ nl];
                  [py "0012f5a4 7c90e920 foo!Alloc+0x3 [a.c @ 1]" ++ nl]; []; [];
                  [py "0012f5a4 7c90e920 chrome_1c2d!Foo::Bar+0x40 [foo.cc @ 40]" ++ nl] ])
       []) =
  Ok (Some {| bad_access_info := map rstrip [py "  +0 location : 0x1234 " ++ nl];
              crash_stack :=
                NormalizeStackTrace
                  (map rstrip [py "0012f5a4 7c90e920 chrome_1c2d!Foo::Bar+0x40 [foo.cc @ 40]" ++ nl]);
              alloc_stack :=
                NormalizeStackTrace
                  (map rstrip [py "0012f5a4 7c90e920 foo!Alloc+0x3 [a.c @ 1]" ++ nl]);
              free_stack := NormalizeStackTrace (map rstrip []) |})
     {| argv := [py "cdb.exe"; py "-z"; py "crash.dmp"];
        stdout := [];
        log := sent (setup_commands None ++
                     extraction_commands
                       (scan_frames
                          (NormalizeStackTrace
                             (map rstrip
                                [py "0012f5a4 7c90e920 asan_rtl!agent::asan::AsanRuntime::OnError+0x12 [r.cc @ 9]" ++ nl]))
                          0))
               ++ [quit; Wait] |}.
Proof.
  apply (@ProcessMinidump_on_framed_session
           3 (py "crash.dmp") (py "cdb.exe") None [[]]).
  - reflexivity.
  - repeat constructor.
  - repeat constructor.
Defined.

(** X4. When the reply to the error-info command is empty, the
    orchestrator ends in [IndexError] right after that command: the setup,
    the frame selection and the error-info command have been sent, nothing
    else, and in particular neither quit nor the wait. *)
Theorem ProcessMinidump_empty_dump_raises
        (fuel : nat) (minidump_filename cdb_path : str) (pdb_path : option str)
        (setup : list (list str)) (asan r_frame rest : list str) :
  S (length setup) = length (setup_commands pdb_path) ->
  Forall marker_free (setup ++ [asan; r_frame]) ->
  Forall (fun r => length r < fuel) (setup ++ [asan; r_frame]) ->
  0 < fuel ->
  ProcessMinidump fuel minidump_filename cdb_path pdb_path
    (session (setup ++ [asan; r_frame; []]) rest) =
  Raise IndexError
     {| argv := [cdb_path; py "-z"; minidump_filename];
        stdout := rest;
        log := sent (setup_commands pdb_path ++
                     firstn 2
                       (extraction_commands
                          (scan_frames (NormalizeStackTrace (map rstrip asan))
                                       0))) |}.
Proof.
  intros Hlen Hmf Hfuel Hpos.
  assert (Hnil : marker_free []) by constructor.
  assert (Hnil' : @length str [] < fuel) by exact Hpos.
  unfold ProcessMinidump, Popen, capture_crash_stack.
  destruct pdb_path as [p|]; simpl in Hlen.
  - do 6 (destruct setup as [|? setup]; try discriminate).
    cbn [app session] in *. split_Forall.
    unfold bind. run_commands. unfold ret at 1. cbv beta iota. run_commands.
    rewrite locate_and_extract_unfold. unfold extract_report, bind.
    run_commands. reflexivity.
  - do 2 (destruct setup as [|? setup]; try discriminate).
    cbn [app session] in *. split_Forall.
    unfold bind. unfold ret at 1. cbv beta iota. run_commands.
    rewrite locate_and_extract_unfold. unfold extract_report, bind.
    run_commands. reflexivity.
Qed.

Lemma ProcessMinidump_empty_dump_raises_witness :
  ProcessMinidump 2 (py "crash.dmp") (py "cdb.exe") (Some (py "c:\syms"))
    (session ([[]; []; []; []; []] ++
              [ [py "0012f5a4 7c90e920 kernel32!Foo bar" ++ nl]; []; [] ])
             [py "left over" ++ nl]) =
  Raise IndexError
     {| argv := [py "cdb.exe"; py "-z"; py "crash.dmp"];
        stdout := [py "left over" ++ nl];
        log := sent (setup_commands (Some (py "c:\syms")) ++
                     firstn 2
                       (extraction_commands
                          (scan_frames
                             (NormalizeStackTrace
                                (map rstrip
                                   [py "0012f5a4 7c90e920 kernel32!Foo bar" ++ nl]))
                             0))) |}.
Proof.
  apply (@ProcessMinidump_empty_dump_raises
           2 (py "crash.dmp") (py "cdb.exe") (Some (py "c:\syms"))
           [[]; []; []; []; []]).
  - reflexivity.
  - repeat constructor.
  - repeat constructor.
  - lia.
Defined.

(** X5. Against a child none of whose output lines contains the marker
    (it exits at once, say), the orchestrator never returns: it is stuck in
    its first command, which is all it has written. *)
Theorem ProcessMinidump_stuck_in_first_command
        (fuel : nat) (minidump_filename cdb_path : str) (pdb_path : option str)
        (script : list str) :
  marker_free script ->
  exists d',
    ProcessMinidump fuel minidump_filename cdb_path pdb_path script = Hang d' /\
    log d' = sent (firstn 1 (setup_commands pdb_path)).
Proof.
  intros H. unfold ProcessMinidump, capture_crash_stack.
  destruct pdb_path as [p|]; unfold bind.
  - destruct (@Command_never_returns_without_marker_aux
                fuel (py ".sympath " ++ p)
                (Popen [cdb_path; py "-z"; minidump_filename] script) H)
      as (d' & E & L).
    rewrite E. exists d'. split; [reflexivity|exact L].
  - unfold ret at 1. cbv beta iota.
    destruct (@Command_never_returns_without_marker_aux
                fuel (py ".lines")
                (Popen [cdb_path; py "-z"; minidump_filename] script) H)
      as (d' & E & L).
    rewrite E. exists d'. split; [reflexivity|exact L].
Qed.

Lemma ProcessMinidump_stuck_in_first_command_witness :
  exists d',
    ProcessMinidump 100 (py "crash.dmp") (py "cdb.exe") None
                    [py "Cannot open dump file" ++ nl] = Hang d' /\
    log d' = sent (firstn 1 (setup_commands None)).
Proof.
  apply (@ProcessMinidump_stuck_in_first_command
           100 (py "crash.dmp") (py "cdb.exe") None
           [py "Cannot open dump file" ++ nl]).
  repeat constructor.
Defined.

(** *** Every way a run can end *)

Lemma only_sent_extend d d' cs :
  only_sent d -> log d' = log d ++ sent cs -> only_sent d'.
Proof.
  intros (cs0 & H) E. exists (cs0 ++ cs). now rewrite E, H, sent_app.
Qed.

Lemma read_reply_never_raises fuel :
  forall lines d e d', read_reply fuel lines d <> Raise e d'.
Proof.
  induction fuel as [|fuel IH]; intros lines d e d'; simpl; [discriminate|].
  unfold readline. destruct (stdout d) as [|l rest].
  - destruct (contains _SENTINEL (rstrip [])); [discriminate|apply IH].
  - destruct (contains _SENTINEL (rstrip l)); [discriminate|apply IH].
Qed.

Lemma tame_Command fuel command : tame (_Command fuel command).
Proof.
  intros d Hd. pose proof (Command_log fuel command d) as L.
  destruct (_Command fuel command d) as [a d'|e d'|d'] eqn:E; simpl in L.
  - exact (@only_sent_extend d d' [command] Hd L).
  - rewrite Command_unfold in E. now apply read_reply_never_raises in E.
  - exact (@only_sent_extend d d' [command] Hd L).
Qed.

Lemma tame_ret {A} (a : A) : tame (ret a).
Proof. intros d Hd. exact Hd. Qed.

Lemma tame_pop0 (l : list str) : tame (lift (list_pop0 l)).
Proof. intros d Hd. destruct l; simpl; auto. Qed.

Lemma tame_bind {A B} (m : M A) (k : A -> M B) :
  tame m -> (forall a, tame (k a)) -> tame (bind m k).
Proof.
  intros Hm Hk d Hd. specialize (Hm d Hd). unfold bind.
  destruct (m d) as [a d1|e d1|d1]; auto. now apply Hk.
Qed.

Lemma tame_unless_done_bind {A B} (m : M A) (k : A -> M B) :
  tame m -> (forall a, tame_unless_done (k a)) -> tame_unless_done (bind m k).
Proof.
  intros Hm Hk d Hd. specialize (Hm d Hd). unfold bind.
  destruct (m d) as [a d1|e d1|d1]; auto. now apply Hk.
Qed.

Lemma tame_capture_crash_stack fuel pdb_path :
  tame (capture_crash_stack fuel pdb_path).
Proof.
  unfold capture_crash_stack.
  destruct pdb_path;
    repeat first [ apply tame_Command | apply tame_ret
                 | apply tame_bind; [|intros ?] ].
Qed.

Lemma tame_unless_done_extract_report fuel k :
  tame_unless_done (extract_report fuel k).
Proof.
  unfold extract_report.
  repeat first [ solve [intros d Hd; exact I]
               | apply tame_Command | apply tame_pop0
               | apply tame_unless_done_bind; [|intros ?] ].
Qed.

Lemma ProcessMinidump_tame fuel minidump_filename cdb_path pdb_path script :
  match ProcessMinidump fuel minidump_filename cdb_path pdb_path script with
  | Ok _ _ => True
  | Hang d' => only_sent d'
  | Raise e d' => e = IndexError /\ only_sent d'
  end.
Proof.
  unfold ProcessMinidump.
  apply (@tame_unless_done_bind _ _ (capture_crash_stack fuel pdb_path)).
  - apply tame_capture_crash_stack.
  - intros a. rewrite locate_and_extract_unfold.
    apply tame_unless_done_extract_report.
  - exists []. reflexivity.
Qed.

Lemma only_sent_open d : only_sent d -> ~ In quit (log d) /\ ~ In Wait (log d).
Proof. intros (cs & ->). apply sent_not_quit_nor_wait. Qed.

(** X6. Whenever [main] returns, its status is 0, the session is closed
    (quit written and the child waited for, once each, last) and what it
    has printed is the report that [ProcessMinidump] returned.  It never
    reaches [PrintASanReport] with [None], so it never fails with
    [AttributeError], and it never fails with the [TypeError] of the
    not-found branch: [ProcessMinidump] never returns [None] and never
    enters that branch.  And when it fails with the [IndexError] of
    [ProcessMinidump], nothing has been printed and the child has neither
    been told to quit nor been waited for. *)
Theorem main_prints_only_after_closing
        (fuel : nat) (minidump cdb_path : str) (pdb_path : option str)
        (script : list str) :
  (forall status printed d,
      main fuel minidump cdb_path pdb_path script = Exited status printed d ->
      status = 0%Z /\ closed d /\
      exists report,
        ProcessMinidump fuel minidump cdb_path pdb_path script =
        Ok (Some report) d /\
        printed = PrintASanReport report) /\
  (forall printed d,
      main fuel minidump cdb_path pdb_path script <>
      Failed AttributeError printed d) /\
  (forall printed d,
      main fuel minidump cdb_path pdb_path script <>
      Failed (FromProcessMinidump TypeError) printed d) /\
  (forall printed d,
      main fuel minidump cdb_path pdb_path script =
      Failed (FromProcessMinidump IndexError) printed d ->
      printed = [] /\ ~ In quit (log d) /\ ~ In Wait (log d)).
Proof.
  unfold main.
  pose proof (ProcessMinidump_tame fuel minidump cdb_path pdb_path script) as T.
  destruct (ProcessMinidump fuel minidump cdb_path pdb_path script)
    as [[report|] d0|e d0|d0] eqn:E.
  - apply ProcessMinidump_Ok in E as (_ & k & _ & _ & _ & Hl).
    repeat split; try discriminate.
    + now injection H as <- _ _.
    + injection H as _ _ <-. eexists. split; [exact Hl|].
      apply sent_not_quit_nor_wait.
    + injection H as _ <- <-. now exists report.
  - apply ProcessMinidump_Ok in E as (_ & _ & rep & _ & H & _). discriminate.
  - destruct T as (-> & T). repeat split; try discriminate.
    + now injection H as <- _.
    + injection H as _ <-. now apply only_sent_open.
    + injection H as _ <-. now apply only_sent_open.
  - repeat split; discriminate.
Qed.

End Sessions.

(** ** Printing the report *)

Section Printing.

Lemma py_print_one (item : str) : py_print [item] = item ++ nl.
Proof. unfold py_print. simpl. now rewrite app_nil_r. Qed.

Lemma split_nl_line (l rest : str) :
  forallb not_newline l = true ->
  split_nl (l ++ nl ++ rest) = l :: split_nl rest.
Proof.
  induction l as [|a l IH]; intros H; [reflexivity|].
  simpl in H. apply andb_true_iff in H as [Ha Hl].
  unfold not_newline in Ha. apply negb_true_iff in Ha.
  change ((a :: l) ++ nl ++ rest) with (a :: (l ++ nl ++ rest)).
  cbn [split_nl]. rewrite Ha, (IH Hl). reflexivity.
Qed.

Lemma split_nl_print_lines (lines : list str) (rest : str) :
  newline_free lines ->
  split_nl (print_lines lines ++ rest) = lines ++ split_nl rest.
Proof.
  induction 1 as [|l lines Hl _ IH]; [reflexivity|].
  unfold print_lines in *. cbn [flat_map]. rewrite py_print_one.
  rewrite <- !app_assoc. rewrite split_nl_line by exact Hl.
  now rewrite IH.
Qed.

(** X7. What [PrintASanReport] writes, cut at its newlines, is: the first
    heading, the lines of the bad-access information, an empty line and the
    crash-stack heading, the crash stack, an empty line and the allocation
    heading, the allocation stack, then (only when the free stack is not
    empty) an empty line, the free-stack heading and the free stack, and
    at the end an empty line and the help line, which starts in the first
    column; the text ends with a newline.  This holds when no line of the
    report has a newline inside. *)
Theorem PrintASanReport_lines (report : ASanReport) :
  newline_free (bad_access_info report) ->
  newline_free (crash_stack report) ->
  newline_free (alloc_stack report) ->
  newline_free (free_stack report) ->
  split_nl (PrintASanReport report) =
  [py "Bad access information:"] ++ bad_access_info report ++
  [[]; py "Crash stack:"] ++ crash_stack report ++
  [[]; py "Allocation stack:"] ++ alloc_stack report ++
  match free_stack report with
  | [] => []
  | _ :: _ => [[]; py "Free stack:"] ++ free_stack report
  end ++
  [[]; _ERROR_HELP_URL; []].
Proof.
  intros Hb Hc Ha Hf. unfold PrintASanReport.
  assert (Tail : split_nl (py_print [nl; _ERROR_HELP_URL]) =
                 [[]; _ERROR_HELP_URL; []]) by reflexivity.
  rewrite !py_print_one.
  change ((py "Bad access information:" ++ nl) ++ ?x)
    with (py "Bad access information:" ++ nl ++ x).
  rewrite <- !app_assoc.
  rewrite split_nl_line by reflexivity.
  rewrite split_nl_print_lines by exact Hb.
  change (nl ++ py "Crash stack:" ++ nl ++ ?x)
    with ([] ++ nl ++ py "Crash stack:" ++ nl ++ x).
  rewrite (split_nl_line []) by reflexivity.
  rewrite split_nl_line by reflexivity.
  rewrite split_nl_print_lines by exact Hc.
  change (nl ++ py "Allocation stack:" ++ nl ++ ?x)
    with ([] ++ nl ++ py "Allocation stack:" ++ nl ++ x).
  rewrite (split_nl_line []) by reflexivity.
  rewrite split_nl_line by reflexivity.
  rewrite split_nl_print_lines by exact Ha.
  destruct (free_stack report) as [|f free] eqn:Ef.
  - simpl negb. cbv iota. cbn [app]. rewrite Tail. reflexivity.
  - cbn [length Nat.eqb negb]. cbv iota.
    rewrite <- !app_assoc.
    change (nl ++ py "Free stack:" ++ nl ++ ?x)
      with ([] ++ nl ++ py "Free stack:" ++ nl ++ x).
    rewrite (split_nl_line []) by reflexivity.
    rewrite split_nl_line by reflexivity.
    rewrite split_nl_print_lines by exact Hf.
    rewrite Tail. reflexivity.
Qed.

Lemma PrintASanReport_lines_witness :
  split_nl
    (PrintASanReport
       {| bad_access_info := [py "  +0x000 location : 0x1234"];
          crash_stack := [py "chrome_dll!Foo::Bar+0x40 [foo.cc @ 40]"];
          alloc_stack := [py "foo!Alloc+0x3 [a.c @ 1]"];
          free_stack := [] |}) =
  [py "Bad access information:"] ++ [py "  +0x000 location : 0x1234"] ++
  [[]; py "Crash stack:"] ++ [py "chrome_dll!Foo::Bar+0x40 [foo.cc @ 40]"] ++
  [[]; py "Allocation stack:"] ++ [py "foo!Alloc+0x3 [a.c @ 1]"] ++
  [] ++
  [[]; _ERROR_HELP_URL; []].
Proof.
  apply (@PrintASanReport_lines
           {| bad_access_info := [py "  +0x000 location : 0x1234"];
              crash_stack := [py "chrome_dll!Foo::Bar+0x40 [foo.cc @ 40]"];
              alloc_stack := [py "foo!Alloc+0x3 [a.c @ 1]"];
              free_stack := [] |}); repeat constructor.
Defined.

End Printing.

(** ** Frame lines: what is kept and how it is split *)

Section FrameLines.

Lemma NormalizeChromeSymbol_nonempty (s : str) :
  s <> [] -> NormalizeChromeSymbol s <> [].
Proof.
  destruct s as [|a t]; [congruence|]. intros _.
  unfold NormalizeChromeSymbol, re_sub. cbn [sub_from].
  destruct (match_length _CHROME_RE (a :: t)) as [[|n]|]; discriminate.
Qed.

(** X8. Every frame that [NormalizeStackTrace] returns has the module
    form: a normalized module text, which is not empty and has no blank,
    then [!], then a location that is not empty.  No frame is ever a bare
    address (the address group of the pattern is never set), and the module
    is always there to be normalized. *)
Theorem NormalizeStackTrace_frames_have_module_form (lines : list str) :
  Forall (fun f => exists M Y,
              f = NormalizeChromeSymbol M ++ py "!" ++ Y /\
              M <> [] /\ forallb not_space M = true /\ Y <> [])
         (NormalizeStackTrace lines).
Proof.
  rewrite NormalizeStackTrace_line_by_line. unfold frames_line_by_line.
  apply Forall_flat_map. apply Forall_forall. intros line _.
  unfold parse_and_render.
  destruct (re_match _STACK_FRAME_RE line) as [m|] eqn:E; [|constructor].
  constructor; [|constructor].
  pose proof (address_group_never_set _ E) as Ha.
  pose proof (location_group_never_empty _ E) as Hl.
  apply frame_match_shape in E as (S & _).
  destruct S as [A M e _ _ Hne HM _ ->|A M L e _ _ Hne HM _ _ ->|A X e _ _ ->];
    [| |discriminate]; simpl in *; unfold render_frame; simpl truthy;
    cbv iota.
  - exists M, (py "unknown"). repeat split; auto. discriminate.
  - destruct L as [|b L]; [exfalso; apply Hl; reflexivity|].
    exists M, (NormalizeChromeSymbol (b :: L)). repeat split; auto.
    apply NormalizeChromeSymbol_nonempty. discriminate.
Qed.

(** *** Lines whose last token is taken whole *)

Lemma after_hex_forallb (f : ascii -> bool) (s : str) :
  forallb f s = true -> forallb f (after_hex s) = true.
Proof.
  induction s as [|a t IH]; intros H; [reflexivity|].
  simpl in *. apply andb_true_iff in H as [Ha Ht].
  destruct (is_hex a); [now apply IH|]. simpl. now rewrite Ha, Ht.
Qed.

Lemma no_space_stops (s : str) :
  forallb not_space s = true -> stops is_blank s.
Proof.
  destruct s as [|a t]; simpl; [auto|]. intros H.
  apply andb_true_iff in H as [Ha _]. unfold not_space in Ha.
  unfold is_blank. now apply negb_true_iff in Ha.
Qed.

(** No argument field begins where the hexadecimal digits are not followed
    by a blank. *)
Lemma arg_field_fails (R : Type) (s : str) c (k : str -> captures -> option R) :
  stops is_blank (after_hex s) -> rmatch arg_field s c k = None.
Proof.
  intros H. unfold arg_field. rewrite rmatch_Cat, rmatch_Plus_Class.
  destruct s as [|a t]; [reflexivity|].
  destruct (is_hex a) eqn:Ha; [|reflexivity].
  simpl in H. rewrite Ha in H.
  assert (G : forall u, stops is_blank (after_hex u) ->
                        star_class is_hex u
                          (fun s' => rmatch (Plus (chr " ")) s' c k) = None).
  { clear. induction u as [|b u IH]; intros H.
    - reflexivity.
    - cbn [star_class]. simpl in H. destruct (is_hex b) eqn:Hb.
      + rewrite (IH H). unfold chr. rewrite rmatch_Plus_Class.
        apply hex_not_space in Hb. unfold not_space in Hb.
        apply negb_true_iff in Hb. now rewrite Hb.
      + unfold chr. rewrite rmatch_Plus_Class. simpl in H.
        unfold is_blank in H. now rewrite H. }
  now apply G.
Qed.

Lemma iter_fields_to (R : Type) (rest : str)
      (k : str -> captures -> option R) c x :
  stops is_blank rest -> stops is_blank (after_hex rest) ->
  k rest c = Some x ->
  forall line, line = rest \/ fields_then rest line ->
  forall n, (length line <= n)%nat ->
  iter arg_field k n line c = Some x.
Proof.
  intros Hs Hh Hk.
  assert (Base : forall n, iter arg_field k n rest c = Some x).
  { intros [|n]; [exact Hk|]. now rewrite iter_S, arg_field_fails. }
  assert (Step : forall h sp line n,
             h <> [] -> forallb is_hex h = true ->
             sp <> [] -> forallb is_blank sp = true ->
             stops is_blank line ->
             (forall n', (length line <= n')%nat ->
                         iter arg_field k n' line c = Some x) ->
             (length (h ++ sp ++ line) <= n)%nat ->
             iter arg_field k n (h ++ sp ++ line) c = Some x).
  { intros h sp line n H1 H2 H3 H4 H5 IH Hn.
    assert (Hl : (length line < length (h ++ sp ++ line))%nat).
    { rewrite !length_app. destruct h; [congruence|]. simpl. lia. }
    destruct n as [|n]; [lia|]. rewrite iter_S.
    erewrite rmatch_arg_field_greedy; eauto.
    apply Nat.ltb_lt in Hl as Hl'. rewrite Hl'. apply IH. lia. }
  intros line [->|F].
  - intros n _. apply Base.
  - induction F as [h sp H1 H2 H3 H4|h sp line H1 H2 H3 H4 F IH];
      intros n Hn.
    + apply Step; auto.
    + apply Step; auto. eapply fields_then_stops; eauto.
Qed.

(** A line of argument fields followed by [rest] matches the way [rest]
    matches what comes after the fields. *)
Lemma fields_line_match (rest line : str) (g : captures -> captures) :
  fields_then rest line ->
  stops is_blank rest -> stops is_blank (after_hex rest) ->
  (forall c, rmatch (Cat (Or sf_module sf_address) Dollar) rest c
                    (fun _ c2 => Some c2) = Some (g c)) ->
  exists A, line = A ++ rest /\
            re_match _STACK_FRAME_RE line = Some (g [("args"%string, A)]).
Proof.
  intros F Hs Hh K. destruct (fields_then_app F) as (A & EA). exists A.
  split; [exact EA|].
  unfold re_match, _STACK_FRAME_RE. rewrite rmatch_Cat.
  unfold sf_args. rewrite rmatch_Named. unfold Plus at 1. rewrite rmatch_Cat.
  assert (Hfirst : firstn (length line - length rest) line = A).
  { subst line. rewrite length_app, Nat.add_sub, firstn_app, Nat.sub_diag.
    now rewrite firstn_all, app_nil_r. }
  inversion F as [h sp H1 H2 H3 H4 E|h sp line' H1 H2 H3 H4 F' E].
  - apply rmatch_arg_field_greedy; auto.
    rewrite rmatch_Star.
    apply (@iter_fields_to _ rest); [exact Hs|exact Hh| |now left|lia].
    simpl. rewrite E, Hfirst. apply K.
  - apply rmatch_arg_field_greedy; auto.
    + eapply fields_then_stops; eauto.
    + rewrite rmatch_Star.
      apply (@iter_fields_to _ rest); [exact Hs|exact Hh| |now right|lia].
      simpl. rewrite E, Hfirst. apply K.
Qed.

(** X9. A line that consists of argument fields and one more token with
    nothing after it is kept, and the whole token is its module: the frame
    is the normalized token with [!unknown] appended, also when the token
    itself is of the form [module!function]. *)
Theorem token_at_end_of_line_is_module (T line : str) :
  T <> [] -> forallb not_space T = true ->
  fields_then T line ->
  NormalizeStackTrace [line] = [NormalizeChromeSymbol T ++ py "!unknown"].
Proof.
  intros Hne HT F.
  destruct (@fields_line_match T line
              (fun c => ("module"%string, T) :: c) F) as (A & _ & E).
  - now apply no_space_stops.
  - apply no_space_stops. now apply after_hex_forallb.
  - intros c. rewrite rmatch_Cat, rmatch_Or.
    now rewrite module_branch_takes_token.
  - unfold NormalizeStackTrace. simpl. unfold normalize_step. rewrite E.
    reflexivity.
Qed.

Lemma token_at_end_of_line_is_module_witness :
  NormalizeStackTrace
    [py "0012f5a4" ++ py " " ++ py "kernel32!BaseThreadInitThunk+0x12"] =
  [NormalizeChromeSymbol (py "kernel32!BaseThreadInitThunk+0x12") ++
   py "!unknown"].
Proof.
  apply (@token_at_end_of_line_is_module
           (py "kernel32!BaseThreadInitThunk+0x12")).
  - discriminate.
  - reflexivity.
  - apply last_field; reflexivity || discriminate.
Defined.

(** *** Lines with a location *)

(** The greedy loop settles on the first remainder, counted from the
    shortest, that the continuation accepts. *)
Lemma star_class_first (R : Type) f (w rest : str) (k : str -> option R) x :
  forallb f w = true -> k rest = Some x ->
  (forall w2 rest2, rest = w2 ++ rest2 -> w2 <> [] ->
                    forallb f w2 = true -> k rest2 = None) ->
  star_class f (w ++ rest) k = Some x.
Proof.
  intros Hw Hk Hdeep.
  assert (Here : forall u, (forall w2 rest2, u = w2 ++ rest2 -> w2 <> [] ->
                              forallb f w2 = true -> k rest2 = None) ->
                           star_class f u k = k u).
  { clear. induction u as [|a t IH]; intros H; [reflexivity|].
    cbn [star_class]. destruct (f a) eqn:Fa; [|reflexivity].
    rewrite IH.
    - rewrite (H [a] t eq_refl); [reflexivity|discriminate|].
      simpl. now rewrite Fa.
    - intros w2 rest2 E Hne Hw2. apply (H (a :: w2) rest2).
      + now rewrite E.
      + discriminate.
      + simpl. now rewrite Fa. }
  induction w as [|a w IH]; simpl.
  - now rewrite Here.
  - simpl in Hw. apply andb_true_iff in Hw as [Ha Hw]. now rewrite Ha, IH.
Qed.

Lemma rmatch_chr_cons (R : Type) a b t c (k : str -> captures -> option R) :
  rmatch (chr a) (b :: t) c k = if (b =? a)%char then k t c else None.
Proof. reflexivity. Qed.

Lemma at_end_before_blank (l L1 : str) : at_end (l ++ " "%char :: L1) = false.
Proof.
  destruct l as [|b l]; simpl.
  - destruct L1; reflexivity.
  - destruct (l ++ " "%char :: L1) eqn:E; [|reflexivity].
    destruct l; discriminate.
Qed.

(** Without a [!] in front of the next blank there is neither a location
    nor the end of the line. *)
Lemma after_module_fails (l L1 : str) c :
  existsb is_bang l = false -> after_module (l ++ " "%char :: L1) c = None.
Proof.
  intros Hl. unfold after_module, Maybe. rewrite rmatch_Or, rmatch_Cat.
  assert (E : rmatch (chr "!") (l ++ " "%char :: L1) c
                (fun s1 c1 =>
                   rmatch (Named "location" (Star (Class not_newline))) s1 c1
                     (fun s2 c2 => rmatch Dollar s2 c2 (fun _ c3 => Some c3)))
              = None).
  { destruct l as [|b l]; [reflexivity|]. simpl in Hl.
    apply orb_false_iff in Hl as [Hb _]. unfold is_bang in Hb.
    simpl. now rewrite Hb. }
  rewrite E. simpl. now rewrite at_end_before_blank.
Qed.

(** The module group ends at the last [!] of the first token when text
    with a blank follows. *)
Lemma module_branch_splits (M L0 L1 : str) c :
  M <> [] -> forallb not_space M = true ->
  forallb not_space L0 = true -> existsb is_bang L0 = false ->
  forallb not_newline (L0 ++ " "%char :: L1) = true ->
  rmatch sf_module (M ++ "!"%char :: L0 ++ " "%char :: L1) c
         (fun s1 c1 => rmatch Dollar s1 c1 (fun _ c2 => Some c2)) =
  Some (("location"%string, L0 ++ " "%char :: L1) ::
        ("module"%string, M) :: c).
Proof.
  intros Hne HM H0 Hb Hnl. rewrite rmatch_sf_module.
  destruct M as [|a M]; [congruence|].
  simpl in HM. apply andb_true_iff in HM as [Ha HM].
  cbn [app]. rewrite Ha.
  apply star_class_first; [exact HM| |].
  - assert (F : firstn
                  (length (a :: M ++ "!"%char :: L0 ++ " "%char :: L1) -
                   length ("!"%char :: L0 ++ " "%char :: L1))
                  (a :: M ++ "!"%char :: L0 ++ " "%char :: L1) = a :: M).
    { change (a :: M ++ "!"%char :: L0 ++ " "%char :: L1)
        with ((a :: M) ++ "!"%char :: L0 ++ " "%char :: L1).
      rewrite length_app, Nat.add_sub, firstn_app, Nat.sub_diag.
      now rewrite firstn_all, app_nil_r. }
    rewrite F. unfold after_module, Maybe.
    rewrite rmatch_Or, rmatch_Cat, rmatch_chr_cons.
    change ("!" =? "!")%char with true. cbv iota.
    rewrite rmatch_Named, rmatch_Star_Class.
    erewrite star_class_all; [reflexivity|exact Hnl|].
    simpl. now rewrite Nat.sub_0_r, firstn_all.
  - intros w2 rest2 E Hw2 Hf.
    destruct w2 as [|b w2]; [congruence|]. injection E as <- E.
    simpl in Hf. apply app_eq_app in E as (l & [(E1 & E2)|(E1 & E2)]).
    + subst L0 rest2. rewrite existsb_app in Hb.
      apply orb_false_iff in Hb as [_ Hb]. now apply after_module_fails.
    + destruct l as [|b l].
      * rewrite app_nil_r in E1. subst w2. simpl in E2. subst rest2.
        apply (after_module_fails []); reflexivity.
      * injection E2 as <- _. subst w2. rewrite forallb_app in Hf.
        simpl in Hf. now rewrite andb_false_r in Hf.
Qed.

Lemma bang_stops_hex (M t : str) :
  forallb not_space M = true ->
  stops is_blank (after_hex (M ++ "!"%char :: t)).
Proof.
  induction M as [|a M IH]; intros H.
  - reflexivity.
  - simpl in H. apply andb_true_iff in H as [Ha HM].
    cbn [app after_hex]. destruct (is_hex a); [now apply IH|].
    simpl. unfold not_space in Ha. unfold is_blank.
    now apply negb_true_iff in Ha.
Qed.

(** X10. A line that consists of argument fields, a token [M!L0] and,
    after a blank, more text is split at the last [!] of that token: [M] is
    the module and everything after that [!], blanks included, is the
    location.  Both are normalized and joined by [!].  ([L0] has no [!];
    the location has no newline inside.) *)
Theorem symbol_with_text_after_is_split (M L0 L1 line : str) :
  M <> [] -> forallb not_space M = true ->
  forallb not_space L0 = true -> existsb is_bang L0 = false ->
  forallb not_newline (L0 ++ " "%char :: L1) = true ->
  fields_then (M ++ "!"%char :: L0 ++ " "%char :: L1) line ->
  NormalizeStackTrace [line] =
  [NormalizeChromeSymbol M ++ py "!" ++
   NormalizeChromeSymbol (L0 ++ " "%char :: L1)].
Proof.
  intros Hne HM H0 Hb Hnl F.
  destruct (@fields_line_match (M ++ "!"%char :: L0 ++ " "%char :: L1) line
              (fun c => ("location"%string, L0 ++ " "%char :: L1) ::
                        ("module"%string, M) :: c) F) as (A & _ & E).
  - destruct M as [|a M]; [congruence|]. simpl in *.
    apply andb_true_iff in HM as [Ha _]. unfold not_space in Ha.
    unfold is_blank. now apply negb_true_iff in Ha.
  - now apply bang_stops_hex.
  - intros c. rewrite rmatch_Cat, rmatch_Or.
    now rewrite module_branch_splits.
  - unfold NormalizeStackTrace. simpl. unfold normalize_step. rewrite E.
    simpl. unfold render_frame. simpl truthy. cbv iota.
    destruct (L0 ++ " "%char :: L1) eqn:EL; [|reflexivity].
    destruct L0; discriminate.
Qed.

Lemma symbol_with_text_after_is_split_witness :
  NormalizeStackTrace
    [py "0012f5a4" ++ py " " ++
     (py "chrome_1c2d" ++ "!"%char :: py "Foo::Bar+0x40" ++
      " "%char :: py "[foo.cc @ 40]")] =
  [NormalizeChromeSymbol (py "chrome_1c2d") ++ py "!" ++
   NormalizeChromeSymbol (py "Foo::Bar+0x40" ++ " "%char :: py "[foo.cc @ 40]")].
Proof.
  apply (@symbol_with_text_after_is_split
           (py "chrome_1c2d") (py "Foo::Bar+0x40") (py "[foo.cc @ 40]")).
  - discriminate.
  - reflexivity.
  - reflexivity.
  - reflexivity.
  - reflexivity.
  - apply last_field; reflexivity || discriminate.
Defined.

(** *** Symbols that are left alone *)

(** X11. A symbol in which the word [chrome] does not occur, in whatever
    letter case, is left as it is by the symbol normalization. *)
Theorem NormalizeChromeSymbol_leaves_other_symbols (s : str) :
  PyStr.contains (py "chrome") (map PyStr.lower s) = false ->
  NormalizeChromeSymbol s = s.
Proof.
  unfold NormalizeChromeSymbol, re_sub.
  induction s as [|a t IH]; intros H; [reflexivity|].
  cbn [map PyStr.contains] in H. apply orb_false_iff in H as [H1 H2].
  cbn [sub_from]. rewrite chrome_needs_the_word by exact H1.
  now rewrite IH.
Qed.

Lemma NormalizeChromeSymbol_leaves_other_symbols_witness :
  NormalizeChromeSymbol (py "asan_rtl!agent::asan::AsanRuntime::OnError") =
  py "asan_rtl!agent::asan::AsanRuntime::OnError".
Proof.
  apply (@NormalizeChromeSymbol_leaves_other_symbols
           (py "asan_rtl!agent::asan::AsanRuntime::OnError")).
  reflexivity.
Defined.

End FrameLines.

(** ** The frame grammar and the lines that are kept *)

Section FrameGrammar.

(** *** A [!] at the end of a symbol *)

Lemma startswith_snoc (p s : str) (b : ascii) :
  existsb (fun a => (a =? b)%char) p = false ->
  PyStr.startswith p (s ++ [b]) = PyStr.startswith p s.
Proof.
  revert s. induction p as [|a p IH]; intros s H; [reflexivity|].
  cbn [existsb] in H. apply orb_false_iff in H as [Ha Hp].
  destruct s as [|c s]; cbn [app PyStr.startswith].
  - now rewrite Ha.
  - now rewrite IH.
Qed.

Lemma startswith_length (p s : str) :
  PyStr.startswith p s = true -> (length p <= length s)%nat.
Proof.
  revert s. induction p as [|a p IH]; intros s H; cbn [length]; [lia|].
  destruct s as [|c s]; [discriminate|]. cbn [PyStr.startswith] in H.
  apply andb_true_iff in H as [_ H]. apply IH in H. cbn [length]. lia.
Qed.

Lemma star_class_snoc (R : Type) (f : ascii -> bool) (b : ascii)
      (k0 k1 : str -> option R) :
  f b = false -> (forall s', k1 (s' ++ [b]) = k0 s') ->
  forall t, star_class f (t ++ [b]) k1 = star_class f t k0.
Proof.
  intros Hb Hk. induction t as [|a t IH]; cbn [app star_class].
  - rewrite Hb. apply (Hk []).
  - rewrite IH. destruct (f a); [|apply (Hk (a :: t))].
    destruct (star_class f t k0); [reflexivity|apply (Hk (a :: t))].
Qed.

Lemma match_length_bang (s : str) :
  match_length _CHROME_RE (s ++ py "!") = match_length _CHROME_RE s.
Proof.
  unfold match_length, _CHROME_RE. rewrite !rmatch_Cat, !rmatch_lit_i.
  change (map PyStr.lower (py "chrome")) with (py "chrome").
  rewrite map_app. change (map PyStr.lower (py "!")) with ["!"%char].
  rewrite startswith_snoc by reflexivity.
  destruct (PyStr.startswith (py "chrome") (map PyStr.lower s)) eqn:E;
    [|reflexivity].
  apply startswith_length in E. rewrite length_map in E.
  rewrite skipn_app.
  replace (length (py "chrome") - length s)%nat with 0%nat by lia.
  change (skipn 0 (py "!")) with (py "!").
  rewrite !rmatch_Plus_Class.
  generalize (skipn (length (py "chrome")) s) as u. intros [|a t];
    [reflexivity|].
  cbn [app]. destruct (is_chrome_suffix a); [|reflexivity].
  apply star_class_snoc; [reflexivity|].
  intros s'. f_equal. rewrite !length_app.
  change (length (py "!")) with 1%nat. cbn [length]. lia.
Qed.

Lemma match_length_le (r : regex) (s : str) (n : nat) :
  match_length r s = Some n -> (n <= length s)%nat.
Proof.
  unfold match_length. intros H.
  apply rmatch_sound in H as (p & rest & c' & -> & _ & [= <-]). lia.
Qed.

Lemma sub_from_bang (s : str) :
  forall skip, (skip <= length s)%nat ->
    sub_from _CHROME_RE (py "chrome_dll") skip (s ++ py "!") =
    sub_from _CHROME_RE (py "chrome_dll") skip s ++ py "!".
Proof.
  induction s as [|a t IH]; intros skip H.
  - cbn [length] in H. replace skip with 0%nat by lia. reflexivity.
  - cbn [length] in H. destruct skip as [|n].
    + change ((a :: t) ++ py "!") with (a :: (t ++ py "!")).
      cbn [sub_from].
      change (a :: (t ++ py "!")) with ((a :: t) ++ py "!").
      rewrite match_length_bang.
      destruct (match_length _CHROME_RE (a :: t)) as [[|n]|] eqn:E.
      * rewrite IH by lia. reflexivity.
      * apply match_length_le in E. cbn [length] in E.
        rewrite IH by lia. now rewrite <- app_assoc.
      * rewrite IH by lia. reflexivity.
    + cbn [app sub_from]. apply IH. lia.
Qed.

(** A [!] at the end of a symbol stays where it is. *)
Lemma NormalizeChromeSymbol_bang (s : str) :
  NormalizeChromeSymbol (s ++ py "!") = NormalizeChromeSymbol s ++ py "!".
Proof. apply sub_from_bang. lia. Qed.

(** *** Lines that are kept *)

(** A line of argument fields and one more token: the token is the
    module. *)
Lemma last_token_is_module (T line : str) :
  T <> [] -> forallb not_space T = true -> fields_then T line ->
  NormalizeStackTrace [line] = [NormalizeChromeSymbol T ++ py "!unknown"].
Proof.
  intros Hne HT F.
  destruct (@fields_line_match T line
              (fun c => ("module"%string, T) :: c) F) as (A & _ & E).
  - now apply no_space_stops.
  - apply no_space_stops. now apply after_hex_forallb.
  - intros c. rewrite rmatch_Cat, rmatch_Or.
    now rewrite module_branch_takes_token.
  - unfold NormalizeStackTrace. simpl. unfold normalize_step. rewrite E.
    reflexivity.
Qed.

(** A line of argument fields, a token with a [!] and more text after a
    blank: the token is split at its last [!]. *)
Lemma token_is_split_at_last_bang (M L0 L1 line : str) :
  M <> [] -> forallb not_space M = true ->
  forallb not_space L0 = true -> existsb is_bang L0 = false ->
  forallb not_newline (L0 ++ " "%char :: L1) = true ->
  fields_then (M ++ "!"%char :: L0 ++ " "%char :: L1) line ->
  NormalizeStackTrace [line] =
  [NormalizeChromeSymbol M ++ py "!" ++
   NormalizeChromeSymbol (L0 ++ " "%char :: L1)].
Proof.
  intros Hne HM H0 Hb Hnl F.
  destruct (@fields_line_match (M ++ "!"%char :: L0 ++ " "%char :: L1) line
              (fun c => ("location"%string, L0 ++ " "%char :: L1) ::
                        ("module"%string, M) :: c) F) as (A & _ & E).
  - destruct M as [|a M]; [congruence|]. simpl in *.
    apply andb_true_iff in HM as [Ha _]. unfold not_space in Ha.
    unfold is_blank. now apply negb_true_iff in Ha.
  - now apply bang_stops_hex.
  - intros c. rewrite rmatch_Cat, rmatch_Or.
    now rewrite module_branch_splits.
  - unfold NormalizeStackTrace. simpl. unfold normalize_step. rewrite E.
    simpl. unfold render_frame. simpl truthy. cbv iota.
    destruct (L0 ++ " "%char :: L1) eqn:EL; [|reflexivity].
    destruct L0; discriminate.
Qed.

Lemma split_at_first_blank (L : str) :
  forallb not_space L = true \/
  exists L0 L1, L = L0 ++ " "%char :: L1 /\ forallb not_space L0 = true.
Proof.
  induction L as [|a L IH]; [now left|].
  destruct (not_space a) eqn:Ha.
  - destruct IH as [IH|(L0 & L1 & -> & H0)].
    + left. cbn [forallb]. now rewrite Ha, IH.
    + right. exists (a :: L0), L1. split; [reflexivity|].
      cbn [forallb]. now rewrite Ha, H0.
  - right. exists [], L. split; [|reflexivity].
    unfold not_space in Ha. apply negb_false_iff, Ascii.eqb_eq in Ha.
    now subst a.
Qed.

Lemma split_at_last_bang (n : nat) :
  forall (L M : str),
    (length L <= n)%nat ->
    M <> [] -> forallb not_space M = true -> forallb not_space L = true ->
    exists M' L0,
      M ++ "!"%char :: L = M' ++ "!"%char :: L0 /\
      M' <> [] /\ forallb not_space M' = true /\
      forallb not_space L0 = true /\ existsb is_bang L0 = false.
Proof.
  induction n as [|n IH]; intros L M Hn Hne HM HL.
  - destruct L; [|cbn [length] in Hn; lia]. exists M, []. auto.
  - destruct (existsb is_bang L) eqn:Eb.
    + apply existsb_exists in Eb as (x & Hin & Hx).
      unfold is_bang in Hx. apply Ascii.eqb_eq in Hx. subst x.
      apply in_split in Hin as (u & v & ->).
      rewrite forallb_app in HL. apply andb_true_iff in HL as [Hu Hv].
      cbn [forallb] in Hv. apply andb_true_iff in Hv as [_ Hv].
      destruct (IH v (M ++ "!"%char :: u)) as (M' & L0 & E & H1 & H2 & H3 & H4).
      * rewrite length_app in Hn. cbn [length] in Hn. lia.
      * destruct M; discriminate.
      * rewrite forallb_app. cbn [forallb]. now rewrite HM, Hu.
      * exact Hv.
      * exists M', L0. split; [|auto]. rewrite <- E.
        now rewrite <- app_assoc.
    + exists M, L. auto.
Qed.

Lemma fields_then_newline_free (rest line : str) :
  fields_then rest line -> forallb not_newline line = true ->
  forallb not_newline rest = true.
Proof.
  intros F H. apply fields_then_app in F as (A & ->).
  rewrite forallb_app in H. now apply andb_true_iff in H as [_ H].
Qed.

Lemma address_token_is_token (X : str) :
  address_token X -> X <> [] /\ forallb not_space X = true.
Proof.
  intros (x & h & -> & Hx & _ & Hh). split; [discriminate|].
  cbn [forallb]. rewrite (@forallb_impl is_hex not_space h hex_not_space Hh).
  replace (not_space x) with true; [reflexivity|].
  symmetry. apply (@x_not_space x). now rewrite Hx.
Qed.

(** Every line of the grammar is kept, as one frame. *)
Lemma grammar_line_is_kept (line : str) :
  forallb not_newline line = true -> frame_grammar line ->
  (exists T,
      T <> [] /\ forallb not_space T = true /\ fields_then T line /\
      NormalizeStackTrace [line] =
      [NormalizeChromeSymbol T ++ py "!unknown"]) \/
  (exists M L0 L1,
      M <> [] /\ forallb not_space M = true /\
      forallb not_space L0 = true /\ existsb is_bang L0 = false /\
      fields_then (M ++ "!"%char :: L0 ++ " "%char :: L1) line /\
      NormalizeStackTrace [line] =
      [NormalizeChromeSymbol M ++ py "!" ++
       NormalizeChromeSymbol (L0 ++ " "%char :: L1)]).
Proof.
  intros Hnl [X HX F|M Hne HM F|M L Hne HM F].
  - apply address_token_is_token in HX as (Hne & HT).
    left. exists X. repeat split; auto. now apply last_token_is_module.
  - left. exists M. repeat split; auto. now apply last_token_is_module.
  - destruct (split_at_first_blank L) as [HL|(L' & L1 & -> & HL')].
    + left. exists (M ++ "!"%char :: L).
      assert (HT : forallb not_space (M ++ "!"%char :: L) = true).
      { rewrite forallb_app. cbn [forallb]. now rewrite HM, HL. }
      repeat split; auto; [destruct M; discriminate|].
      apply last_token_is_module; auto. destruct M; discriminate.
    + destruct (@split_at_last_bang (length L') L' M (le_n _) Hne HM HL')
        as (M' & L0 & E & H1 & H2 & H3 & H4).
      right. exists M', L0, L1.
      assert (F' : fields_then (M' ++ "!"%char :: L0 ++ " "%char :: L1) line).
      { replace (M' ++ "!"%char :: L0 ++ " "%char :: L1)
          with (M ++ "!"%char :: L' ++ " "%char :: L1); [exact F|].
        change (M ++ "!"%char :: L' ++ " "%char :: L1)
          with (M ++ ("!"%char :: L') ++ " "%char :: L1).
        change (M' ++ "!"%char :: L0 ++ " "%char :: L1)
          with (M' ++ ("!"%char :: L0) ++ " "%char :: L1).
        now rewrite !app_assoc, E. }
      repeat split; auto.
      apply token_is_split_at_last_bang; auto.
      pose proof (fields_then_newline_free F' Hnl) as N.
      rewrite forallb_app in N. apply andb_true_iff in N as [_ N].
      cbn [forallb] in N. now apply andb_true_iff in N as [_ N].
Qed.

(** *** Lines that are dropped *)

Lemma star_of_fields (p rest : str) (c c' : captures) :
  star_of (den arg_field) p rest c c' ->
  forall h sp tail,
    h <> [] -> forallb is_hex h = true ->
    sp <> [] -> forallb is_blank sp = true ->
    fields_then tail (h ++ sp ++ p ++ tail).
Proof.
  induction 1 as [|p1 p2 rest c c1 c2 D _ IH]; intros h sp tail H1 H2 H3 H4.
  - now apply last_field.
  - destruct D as (q1 & q2 & c0 & -> & Dh & Ds).
    apply den_Plus_class in Dh as (a & t & -> & Ha & Ht & _).
    apply den_Plus_class in Ds as (b & u & -> & Hb & Hu & _).
    rewrite <- !app_assoc. apply next_field; auto.
    apply IH.
    + discriminate.
    + cbn [forallb]. now rewrite Ha, Ht.
    + discriminate.
    + cbn [forallb]. unfold is_blank. now rewrite Hb, Hu.
Qed.

Lemma den_fields (A rest : str) (c c' : captures) :
  den sf_args A rest c c' -> forall tail, fields_then tail (A ++ tail).
Proof.
  unfold sf_args. intros (c0 & (p1 & p2 & c1 & -> & D & S) & _) tail.
  destruct D as (q1 & q2 & c2 & -> & Dh & Ds).
  apply den_Plus_class in Dh as (a & t & -> & Ha & Ht & _).
  apply den_Plus_class in Ds as (b & u & -> & Hb & Hu & _).
  rewrite <- !app_assoc.
  apply (star_of_fields S).
  - discriminate.
  - cbn [forallb]. now rewrite Ha, Ht.
  - discriminate.
  - cbn [forallb]. unfold is_blank. now rewrite Hb, Hu.
Qed.

Lemma at_end_token (e : str) : at_end e = true -> forallb not_space e = true.
Proof.
  destruct e as [|a [|b e]]; try discriminate; [reflexivity|].
  cbn [at_end]. intros H. apply Ascii.eqb_eq in H. now subst a.
Qed.

(** Every line that the pattern matches is a line of the grammar. *)
Lemma kept_line_is_in_grammar (line : str) (m : captures) :
  re_match _STACK_FRAME_RE line = Some m -> frame_grammar line.
Proof.
  unfold re_match. intros H.
  apply rmatch_sound in H as (p & rest & c' & -> & D & _).
  destruct D as (A & p2 & c1 & -> & DA & (q & q' & c2 & -> & DM & DD)).
  destruct DD as (-> & _ & He). apply at_end_token in He.
  pose proof (den_fields DA) as F.
  rewrite app_nil_r, <- app_assoc.
  destruct DM as [DM|DM].
  - apply den_sf_module in DM
      as (M & Hne & HM & [(-> & _)|(L & -> & _ & _)]).
    + apply (@grammar_module _ (M ++ rest));
        [destruct M; [now elim Hne|discriminate]| |apply F].
      rewrite forallb_app. now rewrite HM, He.
    + rewrite <- app_assoc. cbn [app].
      apply (@grammar_location _ M (L ++ rest)); auto.
  - apply den_sf_address in DM as (_ & x & h & -> & Hx & Hh).
    apply (@grammar_module _ (("0"%char :: x :: h) ++ rest));
      [discriminate| |apply F].
    rewrite forallb_app, He. cbn [forallb].
    rewrite (@x_not_space x Hx), (@forallb_impl is_hex not_space h hex_not_space Hh).
    reflexivity.
Qed.

Lemma NormalizeStackTrace_one (line : str) :
  NormalizeStackTrace [line] =
  match parse_and_render line with
  | Some f => [f]
  | None => []
  end.
Proof.
  rewrite NormalizeStackTrace_line_by_line. unfold frames_line_by_line.
  cbn [flat_map]. now rewrite app_nil_r.
Qed.

Lemma line_outside_grammar_is_dropped (line : str) :
  ~ frame_grammar line -> NormalizeStackTrace [line] = [].
Proof.
  intros H. rewrite NormalizeStackTrace_one. unfold parse_and_render.
  destruct (re_match _STACK_FRAME_RE line) as [m|] eqn:E; [|reflexivity].
  elim H. now apply kept_line_is_in_grammar in E.
Qed.

(** C7. A line whose last token has nothing after it is a module frame
    without location, and it is rendered with the location text
    [unknown].  The line with the same token and a [!] after it, the frame
    whose location is the empty string, is rendered differently: the [!]
    stays with the module, so that the frame reads [module!!unknown] and
    not [module!unknown].  And no location becomes empty by
    normalization: only the empty text normalizes to the empty text. *)
Theorem absent_location_is_unknown_and_empty_location_differs
        (T line line' : str) :
  T <> [] -> forallb not_space T = true ->
  fields_then T line -> fields_then (T ++ py "!") line' ->
  NormalizeStackTrace [line] = [NormalizeChromeSymbol T ++ py "!unknown"] /\
  NormalizeStackTrace [line'] = [NormalizeChromeSymbol T ++ py "!!unknown"] /\
  NormalizeStackTrace [line'] <> NormalizeStackTrace [line] /\
  (forall L, NormalizeChromeSymbol L = [] -> L = []).
Proof.
  intros Hne HT F F'.
  assert (E : NormalizeStackTrace [line] =
              [NormalizeChromeSymbol T ++ py "!unknown"])
    by now apply last_token_is_module.
  assert (E' : NormalizeStackTrace [line'] =
               [NormalizeChromeSymbol T ++ py "!!unknown"]).
  { rewrite (@last_token_is_module (T ++ py "!") line').
    - rewrite NormalizeChromeSymbol_bang. now rewrite <- app_assoc.
    - destruct T; discriminate.
    - rewrite forallb_app. now rewrite HT.
    - exact F'. }
  split; [exact E|]. split; [exact E'|]. split.
  - rewrite E, E'. intros H. injection H as H.
    apply app_inv_head in H. discriminate.
  - intros L H. destruct L as [|a L]; [reflexivity|].
    exfalso. revert H. apply NormalizeChromeSymbol_nonempty. discriminate.
Qed.

Lemma absent_location_is_unknown_and_empty_location_differs_witness :
  NormalizeStackTrace [py "0012f5a4" ++ py " " ++ py "kernel32"] =
    [NormalizeChromeSymbol (py "kernel32") ++ py "!unknown"] /\
  NormalizeStackTrace [py "0012f5a4" ++ py " " ++ (py "kernel32" ++ py "!")] =
    [NormalizeChromeSymbol (py "kernel32") ++ py "!!unknown"] /\
  NormalizeStackTrace [py "0012f5a4" ++ py " " ++ (py "kernel32" ++ py "!")] <>
  NormalizeStackTrace [py "0012f5a4" ++ py " " ++ py "kernel32"] /\
  (forall L, NormalizeChromeSymbol L = [] -> L = []).
Proof.
  apply (@absent_location_is_unknown_and_empty_location_differs
           (py "kernel32")).
  - discriminate.
  - reflexivity.
  - apply last_field; reflexivity || discriminate.
  - apply last_field; reflexivity || discriminate.
Defined.

(** C8. For a stack of any length, each line contributes to the result
    at its place, in order, what it contributes alone.  A line of the
    frame grammar (without a line terminator inside, as the lines of a
    reply are) contributes exactly one frame: the normalized last token
    with [!unknown] when nothing follows the token, and otherwise the
    token split at its last [!] into module and location, both
    normalized.  A line that is not of the grammar contributes nothing: a
    kept line has only hexadecimal digits and blanks in front of each of
    its blanks unless a [!] has come before, so that a blank line, a
    header line and a line with text after the module or address token
    are dropped. *)
Theorem NormalizeStackTrace_keeps_parsed_lines_in_order :
  (forall before line after,
      NormalizeStackTrace (before ++ line :: after) =
      NormalizeStackTrace before ++ NormalizeStackTrace [line] ++
      NormalizeStackTrace after) /\
  (forall line,
      forallb not_newline line = true -> frame_grammar line ->
      (exists T,
          T <> [] /\ forallb not_space T = true /\ fields_then T line /\
          NormalizeStackTrace [line] =
          [NormalizeChromeSymbol T ++ py "!unknown"]) \/
      (exists M L0 L1,
          M <> [] /\ forallb not_space M = true /\
          forallb not_space L0 = true /\ existsb is_bang L0 = false /\
          fields_then (M ++ "!"%char :: L0 ++ " "%char :: L1) line /\
          NormalizeStackTrace [line] =
          [NormalizeChromeSymbol M ++ py "!" ++
           NormalizeChromeSymbol (L0 ++ " "%char :: L1)])) /\
  (forall line, ~ frame_grammar line -> NormalizeStackTrace [line] = []) /\
  (forall u v,
      NormalizeStackTrace [u ++ " "%char :: v] <> [] ->
      existsb is_bang u = true \/ forallb hex_or_blank u = true) /\
  ~ frame_grammar (py "") /\
  ~ frame_grammar (py "ChildEBP RetAddr  Args to Child") /\
  ~ frame_grammar (py "0012f5a4 7c90e920 kernel32 trailing") /\
  ~ frame_grammar (py "0012f5a4 0x7c90e920 trailing") /\
  NormalizeStackTrace
    [ py "ChildEBP RetAddr  Args to Child";
      py "0012f5a4 7c90e920 kernel32!BaseThreadInitThunk+0x12 [thread.c @ 7]";
      py "";
      py "0012f5a4 7c90e920 kernel32 trailing";
      py "0012f5b0 ntdll" ] =
    [ py "kernel32!BaseThreadInitThunk+0x12 [thread.c @ 7]";
      py "ntdll!unknown" ].
Proof.
  assert (Out : forall line,
             NormalizeStackTrace [line] = [] ->
             forallb not_newline line = true -> ~ frame_grammar line).
  { intros line E Hnl G.
    destruct (grammar_line_is_kept Hnl G)
      as [(T & _ & _ & _ & K)|(M & L0 & L1 & _ & _ & _ & _ & _ & K)];
      rewrite E in K; discriminate. }
  split; [|split; [|split; [|split]]].
  - intros before line after. rewrite NormalizeStackTrace_app.
    change (line :: after) with ([line] ++ after).
    now rewrite NormalizeStackTrace_app.
  - intros line. apply grammar_line_is_kept.
  - apply line_outside_grammar_is_dropped.
  - intros u v H. rewrite NormalizeStackTrace_one in H.
    destruct (parse_and_render (u ++ " "%char :: v)) as [f|] eqn:E;
      [|now elim H].
    eapply kept_line_before_blank; eauto.
  - do 4 (split; [apply Out; vm_compute; reflexivity|]).
    vm_compute. reflexivity.
Qed.

End FrameGrammar.

(** * The build repository (chrome_repo.py) *)

Section RepoPaths.
Import Repo.

Lemma str_eqb_app_nonempty (a b : str) :
  b <> [] -> str_eqb (a ++ b) [] = false.
Proof. destruct a, b; intros H; try reflexivity. now elim H. Qed.

Lemma endswith_char_app (c : ascii) (a b : str) :
  b <> [] -> endswith [c] (a ++ b) = endswith [c] b.
Proof.
  intros H. unfold endswith. rewrite rev_app_distr.
  destruct (rev b) as [|x t] eqn:E.
  - apply (f_equal (@rev ascii)) in E. rewrite rev_involutive in E.
    now elim H.
  - reflexivity.
Qed.

(** The prefix that [join] puts before the second component. *)
Lemma join2_root (root b : str) :
  PyStr.startswith (py "/") b = false ->
  join2 root b =
  (if str_eqb root [] || endswith (py "/") root
   then root else root ++ py "/") ++ b.
Proof.
  intros H. unfold join2. rewrite H.
  destruct (str_eqb root [] || endswith (py "/") root);
    [reflexivity | now rewrite <- app_assoc].
Qed.

(** After a component that does not end in a slash, one is added. *)
Lemma join2_after_name (stem name b : str) :
  name <> [] -> endswith (py "/") name = false ->
  PyStr.startswith (py "/") b = false ->
  join2 (stem ++ name) b = stem ++ name ++ py "/" ++ b.
Proof.
  intros Hne He Hb. unfold join2. rewrite Hb.
  rewrite str_eqb_app_nonempty by exact Hne.
  change (py "/") with ["/"] at 1.
  rewrite endswith_char_app by exact Hne.
  change ["/"] with (py "/"). rewrite He. cbn [orb].
  now rewrite <- !app_assoc.
Qed.

(** X12. The path of a file of a build is the repository root, the build
    id, the directory [win] and the file's relative path, joined by single
    slashes: a root that is empty or already ends in a slash gets none
    added.  This holds for a build id that is not empty and neither begins
    nor ends with a slash, and a relative path that does not begin with
    one. *)
Theorem GetFilePath_shape (self : ChromeRepo) (build_id file : str) :
  build_id <> [] ->
  PyStr.startswith (py "/") build_id = false ->
  endswith (py "/") build_id = false ->
  PyStr.startswith (py "/") file = false ->
  _GetFilePath self build_id file =
  (if str_eqb (_root_dir self) [] || endswith (py "/") (_root_dir self)
   then _root_dir self else _root_dir self ++ py "/")
  ++ build_id ++ py "/win/" ++ file.
Proof.
  intros Hne Hs He Hf.
  unfold _GetFilePath, posixpath_join. cbn [fold_left].
  rewrite (@join2_root _ _ Hs).
  rewrite (@join2_after_name _ build_id (py "win") Hne He eq_refl).
  rewrite !app_assoc.
  rewrite (@join2_after_name _ (py "win") file); [|discriminate|reflexivity|exact Hf].
  now rewrite <- !app_assoc.
Qed.

Lemma GetFilePath_shape_witness :
  _GetFilePath sample_repo (py "10.0.648.0") (py "chrome_dll.pdb") =
  py "/official_builds/10.0.648.0/win/chrome_dll.pdb".
Proof.
  apply (@GetFilePath_shape sample_repo (py "10.0.648.0")
           (py "chrome_dll.pdb"));
    [discriminate | reflexivity | reflexivity | reflexivity].
Defined.

End RepoPaths.

Section RepoSearch.
Import Repo.
Variable self : ChromeRepo.
Variable srv : server.

Lemma check_files_found (build_id : str) (files : list str) :
  fst (check_files self srv build_id files) =
  forallb (fun f => (fst (srv HEAD (_GetFilePath self build_id f)) =? 200)%Z)
          files.
Proof.
  induction files as [|f more IH]; [reflexivity|].
  cbn [check_files forallb].
  destruct (fst (srv HEAD (_GetFilePath self build_id f)) =? 200)%Z;
    cbn [negb andb]; [|reflexivity].
  destruct (check_files self srv build_id more). exact IH.
Qed.

Lemma check_files_complete (e : entry) :
  fst (check_files self srv (fst e) FILE_LIST) = complete self srv e.
Proof. apply check_files_found. Qed.

(** The requests of the inner loop: one per file up to the first that is
    refused, and none is refused before that one. *)
Lemma check_files_requests (build_id : str) (files : list str) :
  let r := check_files self srv build_id files in
  Forall (fun q => exists f, In f files /\
                             q = (HEAD, _GetFilePath self build_id f))
         (snd r) /\
  (length (snd r) <= length files)%nat /\
  length (filter (refused srv) (snd r)) = (if fst r then 0 else 1)%nat.
Proof.
  induction files as [|f more IH]; cbn zeta.
  - cbn. repeat split; auto.
  - cbn [check_files].
    destruct (fst (srv HEAD (_GetFilePath self build_id f)) =? 200)%Z eqn:E;
      cbn [negb].
    + destruct (check_files self srv build_id more) as [found requested].
      cbn [fst snd] in *. destruct IH as (IH1 & IH2 & IH3).
      repeat split.
      * constructor; [exists f; split; [now left|reflexivity]|].
        eapply Forall_impl; [|exact IH1].
        intros q (f' & Hin & ->). exists f'. split; [now right|reflexivity].
      * cbn [length]. lia.
      * cbn [filter]. unfold refused at 1. cbn [fst snd]. rewrite E.
        cbn [negb]. exact IH3.
    + cbn [fst snd]. repeat split.
      * constructor; [|constructor].
        exists f. split; [now left|reflexivity].
      * cbn [length]. lia.
      * cbn [filter]. unfold refused. cbn [fst snd]. rewrite E. reflexivity.
Qed.

Lemma search_index_result (index : list entry) :
  match fst (search_index self srv index) with
  | (Some build_id, Some timestamp) =>
      exists skipped later,
        index = skipped ++ (build_id, timestamp) :: later /\
        complete self srv (build_id, timestamp) = true /\
        Forall (fun e => complete self srv e = false) skipped
  | (None, None) => Forall (fun e => complete self srv e = false) index
  | _ => False
  end.
Proof.
  induction index as [|[build_id timestamp] more IH]; [constructor|].
  cbn [search_index].
  pose proof (check_files_complete (build_id, timestamp)) as C.
  cbn [fst] in C.
  destruct (check_files self srv build_id FILE_LIST) as [found requested].
  cbn [fst] in C. destruct found.
  - cbn [fst]. exists [], more. repeat split; auto.
  - destruct (search_index self srv more) as [[[id|] [ts|]] later];
      cbn [fst] in *; try contradiction.
    + destruct IH as (skipped & after & -> & Hc & Hs).
      exists ((build_id, timestamp) :: skipped), after.
      repeat split; auto.
    + constructor; auto.
Qed.

(** X13. Given an index, [GetLatestBuildId] returns the first entry, in
    the order of the index, all of whose required files the server answers
    with status 200; every entry before it lacks a file.  It returns
    [(None, None)] exactly when every entry lacks one; no other pair
    (an id without a timestamp, say) is ever returned. *)
Theorem GetLatestBuildId_returns_first_complete_build (index : list entry) :
  match fst (GetLatestBuildId self srv (Some index)) with
  | inr (Some build_id, Some timestamp) =>
      exists skipped later,
        index = skipped ++ (build_id, timestamp) :: later /\
        complete self srv (build_id, timestamp) = true /\
        Forall (fun e => complete self srv e = false) skipped
  | inr (None, None) => Forall (fun e => complete self srv e = false) index
  | _ => False
  end.
Proof.
  pose proof (search_index_result index) as H.
  cbn [GetLatestBuildId].
  destruct (search_index self srv index) as [result requested].
  exact H.
Qed.

(** X14. The requests [GetLatestBuildId] makes for an index: only HEAD
    requests, only for required files of the builds it skips and of the
    build it returns, none for a build after that one; for each build it
    stops at the first file refused, so the refused requests are as many
    as the builds skipped; and there are at most five per build. *)
Theorem GetLatestBuildId_requests (index : list entry) :
  let requested := snd (GetLatestBuildId self srv (Some index)) in
  exists skipped rest,
    index = skipped ++ rest /\
    Forall (fun e => complete self srv e = false) skipped /\
    match rest with
    | [] => True
    | e :: _ => complete self srv e = true
    end /\
    length (filter (refused srv) requested) = length skipped /\
    Forall (fun q => exists e f,
                In e (skipped ++ firstn 1 rest) /\ In f FILE_LIST /\
                q = (HEAD, _GetFilePath self (fst e) f))
           requested /\
    (length requested <=
     length FILE_LIST * length (skipped ++ firstn 1 rest))%nat.
Proof.
  cbn zeta. cbn [GetLatestBuildId].
  assert (H : exists skipped rest,
    index = skipped ++ rest /\
    Forall (fun e => complete self srv e = false) skipped /\
    match rest with
    | [] => True
    | e :: _ => complete self srv e = true
    end /\
    length (filter (refused srv) (snd (search_index self srv index))) =
    length skipped /\
    Forall (fun q => exists e f,
                In e (skipped ++ firstn 1 rest) /\ In f FILE_LIST /\
                q = (HEAD, _GetFilePath self (fst e) f))
           (snd (search_index self srv index)) /\
    (length (snd (search_index self srv index)) <=
     length FILE_LIST * length (skipped ++ firstn 1 rest))%nat).
  2:{ destruct (search_index self srv index) as [result requested].
      exact H. }
  induction index as [|[build_id timestamp] more IH].
  - exists [], []. cbn. repeat split; auto.
  - cbn [search_index].
    pose proof (check_files_complete (build_id, timestamp)) as C.
    pose proof (check_files_requests build_id FILE_LIST) as (Q1 & Q2 & Q3).
    cbn [fst] in C.
    destruct (check_files self srv build_id FILE_LIST) as [found requested].
    cbn [fst snd] in C, Q1, Q2, Q3. destruct found.
    + exists [], ((build_id, timestamp) :: more). cbn [fst snd app firstn].
      repeat split; auto.
      * eapply Forall_impl; [|exact Q1].
        intros q (f & Hin & ->).
        exists (build_id, timestamp), f. repeat split; auto. now left.
    + destruct IH as (skipped & rest & -> & Hs & Hr & L & F & B).
      destruct (search_index self srv (skipped ++ rest)) as [result later].
      cbn [fst snd] in *.
      exists ((build_id, timestamp) :: skipped), rest.
      repeat split; auto.
      * rewrite filter_app, length_app, Q3, L. reflexivity.
      * apply Forall_app. split.
        -- eapply Forall_impl; [|exact Q1].
           intros q (f & Hin & ->).
           exists (build_id, timestamp), f. repeat split; auto. now left.
        -- eapply Forall_impl; [|exact F].
           intros q (e & f & Hin & Hf & ->).
           exists e, f. repeat split; auto. now right.
      * rewrite length_app. cbn [app length] in *. lia.
Qed.

End RepoSearch.

Section RepoOrder.
Import Repo.

Lemma datetime_compare_refl (x : datetime) : datetime_compare x x = Eq.
Proof. unfold datetime_compare. now rewrite !Z.compare_refl. Qed.

Lemma datetime_compare_Eq (x y : datetime) :
  datetime_compare x y = Eq -> x = y.
Proof.
  destruct x as [a1 a2 a3 a4 a5], y as [b1 b2 b3 b4 b5].
  unfold datetime_compare. cbn [year month day hour minute].
  destruct (Z.compare_spec a1 b1); try discriminate.
  destruct (Z.compare_spec a2 b2); try discriminate.
  destruct (Z.compare_spec a3 b3); try discriminate.
  destruct (Z.compare_spec a4 b4); try discriminate.
  destruct (Z.compare_spec a5 b5); try discriminate.
  intros _. congruence.
Qed.

Lemma datetime_compare_antisym (x y : datetime) :
  datetime_compare x y = Lt -> datetime_compare y x = Gt.
Proof.
  destruct x as [a1 a2 a3 a4 a5], y as [b1 b2 b3 b4 b5].
  unfold datetime_compare. cbn [year month day hour minute].
  rewrite (Z.compare_antisym a1 b1), (Z.compare_antisym a2 b2),
    (Z.compare_antisym a3 b3), (Z.compare_antisym a4 b4),
    (Z.compare_antisym a5 b5).
  destruct (a1 ?= b1)%Z; cbn [CompOpp]; try easy.
  destruct (a2 ?= b2)%Z; cbn [CompOpp]; try easy.
  destruct (a3 ?= b3)%Z; cbn [CompOpp]; try easy.
  destruct (a4 ?= b4)%Z; cbn [CompOpp]; try easy.
  destruct (a5 ?= b5)%Z; cbn [CompOpp]; easy.
Qed.

Ltac cmp_field a b :=
  destruct (Z.compare_spec a b);
  try solve [intros; congruence]; try solve [intros; exfalso; lia].

Lemma datetime_compare_trans (x y z : datetime) :
  datetime_compare x y <> Lt -> datetime_compare y z <> Lt ->
  datetime_compare x z <> Lt.
Proof.
  destruct x as [a1 a2 a3 a4 a5], y as [b1 b2 b3 b4 b5],
           z as [c1 c2 c3 c4 c5].
  unfold datetime_compare. cbn [year month day hour minute].
  cmp_field a1 b1; cmp_field b1 c1; cmp_field a1 c1.
  cmp_field a2 b2; cmp_field b2 c2; cmp_field a2 c2.
  cmp_field a3 b3; cmp_field b3 c3; cmp_field a3 c3.
  cmp_field a4 b4; cmp_field b4 c4; cmp_field a4 c4.
  cmp_field a5 b5; cmp_field b5 c5; cmp_field a5 c5.
Qed.

Lemma not_older_refl (x : entry) : not_older x x.
Proof. unfold not_older. now rewrite datetime_compare_refl. Qed.

Lemma not_older_trans (x y z : entry) :
  not_older x y -> not_older y z -> not_older x z.
Proof. apply datetime_compare_trans. Qed.

(** *** The sort *)

Lemma insert_newest_first_perm (x : entry) (l : list entry) :
  Permutation (x :: l) (insert_newest_first x l).
Proof.
  induction l as [|y l IH]; [reflexivity|].
  cbn [insert_newest_first].
  destruct (datetime_compare (snd x) (snd y)); try reflexivity.
  rewrite perm_swap. now constructor.
Qed.

Lemma sorted_newest_first_perm (l : list entry) :
  Permutation l (sorted_newest_first l).
Proof.
  induction l as [|x l IH]; [reflexivity|].
  cbn [sorted_newest_first fold_right].
  rewrite <- insert_newest_first_perm. now constructor.
Qed.

Lemma insert_newest_first_sorted (x : entry) (l : list entry) :
  StronglySorted not_older l ->
  StronglySorted not_older (insert_newest_first x l).
Proof.
  induction l as [|y l IH]; intros S.
  - repeat constructor.
  - cbn [insert_newest_first].
    apply StronglySorted_inv in S as [S F].
    destruct (datetime_compare (snd x) (snd y)) eqn:E.
    + constructor; [now constructor|].
      assert (N : not_older x y) by (unfold not_older; congruence).
      constructor; [exact N|].
      eapply Forall_impl; [|exact F].
      intros z. now apply not_older_trans.
    + constructor; [now apply IH|].
      apply (Permutation_Forall (insert_newest_first_perm x l)).
      constructor; [|exact F].
      unfold not_older. apply datetime_compare_antisym in E. congruence.
    + constructor; [now constructor|].
      assert (N : not_older x y) by (unfold not_older; congruence).
      constructor; [exact N|].
      eapply Forall_impl; [|exact F].
      intros z. now apply not_older_trans.
Qed.

Lemma sorted_newest_first_sorted (l : list entry) :
  StronglySorted not_older (sorted_newest_first l).
Proof.
  induction l as [|x l IH]; [constructor|].
  now apply insert_newest_first_sorted.
Qed.

Lemma insert_newest_first_stable (t : datetime) (x : entry) (l : list entry) :
  filter (same_time t) (insert_newest_first x l) =
  filter (same_time t) (x :: l).
Proof.
  induction l as [|y l IH]; [reflexivity|].
  cbn [insert_newest_first].
  destruct (datetime_compare (snd x) (snd y)) eqn:E; try reflexivity.
  cbn [filter] in *. rewrite IH.
  destruct (same_time t x) eqn:Ex; [|reflexivity].
  destruct (same_time t y) eqn:Ey; [|reflexivity].
  exfalso. unfold same_time in Ex, Ey.
  destruct (datetime_compare (snd x) t) eqn:E1; try discriminate.
  destruct (datetime_compare (snd y) t) eqn:E2; try discriminate.
  apply datetime_compare_Eq in E1, E2. rewrite E1, E2 in E.
  rewrite datetime_compare_refl in E. discriminate.
Qed.

Lemma sorted_newest_first_stable (t : datetime) (l : list entry) :
  filter (same_time t) (sorted_newest_first l) = filter (same_time t) l.
Proof.
  induction l as [|x l IH]; [reflexivity|].
  cbn [sorted_newest_first fold_right].
  rewrite insert_newest_first_stable. cbn [filter].
  fold (sorted_newest_first l). now rewrite IH.
Qed.

Lemma GetBuildIndex_with_inr keys self srv index :
  GetBuildIndex_with keys self srv = inr index ->
  fst (srv GET (index_path self)) = 200%Z /\
  exists scanned,
    scan_listing keys self (split_nl (snd (srv GET (index_path self)))) [] =
    inr scanned /\
    index = sorted_newest_first scanned.
Proof.
  unfold GetBuildIndex_with.
  destruct (srv GET (index_path self)) as [status body]. cbn [fst snd].
  destruct (status =? 200)%Z eqn:E; cbn [negb]; [|discriminate].
  apply Z.eqb_eq in E.
  destruct (scan_listing keys self (split_nl body) []) as [e|scanned];
    [discriminate|].
  intros [= <-]. split; [exact E|]. now exists scanned.
Qed.

(** X15. The index that [GetBuildIndex] returns is sorted from the most
    recent timestamp to the least recent; it has the entries scanned from
    the listing, each as often as scanned; and entries of equal timestamp
    stand in the order of the listing. *)
Theorem GetBuildIndex_newest_first keys self srv index :
  GetBuildIndex_with keys self srv = inr index ->
  StronglySorted not_older index /\
  exists scanned,
    scan_listing keys self (split_nl (snd (srv GET (index_path self)))) [] =
    inr scanned /\
    Permutation scanned index /\
    forall t, filter (same_time t) index = filter (same_time t) scanned.
Proof.
  intros H. apply GetBuildIndex_with_inr in H as (_ & scanned & Hs & ->).
  split; [apply sorted_newest_first_sorted|].
  exists scanned. split; [exact Hs|]. split.
  - apply sorted_newest_first_perm.
  - intros t. apply sorted_newest_first_stable.
Qed.

Lemma GetBuildIndex_newest_first_witness :
  StronglySorted not_older sample_index /\
  exists scanned,
    scan_listing (map fst _MONTHS) sample_repo
      (split_nl (snd (sample_server GET (index_path sample_repo)))) [] =
    inr scanned /\
    Permutation scanned sample_index /\
    forall t, filter (same_time t) sample_index = filter (same_time t) scanned.
Proof.
  apply (@GetBuildIndex_newest_first (map fst _MONTHS) sample_repo
           sample_server sample_index).
  vm_compute. reflexivity.
Defined.

End RepoOrder.

Section RepoDates.
Import Repo.

Lemma re_search_sound (r : regex) (s : str) (m : captures) :
  re_search r s = Some m ->
  exists before p rest, s = before ++ p ++ rest /\ den r p rest [] m.
Proof.
  induction s as [|a t IH]; cbn [re_search]; intros H.
  - destruct (re_match r []) as [m'|] eqn:E; [|discriminate].
    injection H as ->. unfold re_match in E.
    apply rmatch_sound in E as (p & rest & c' & -> & D & [= ->]).
    now exists [], p, rest.
  - destruct (re_match r (a :: t)) as [m'|] eqn:E.
    + injection H as ->. unfold re_match in E.
      apply rmatch_sound in E as (p & rest & c' & E & D & [= ->]).
      now exists [], p, rest.
    + apply IH in H as (before & p & rest & -> & D).
      now exists (a :: before), p, rest.
Qed.

Lemma den_lit_i (w p rest : str) (c c' : captures) :
  den (lit_i w) p rest c c' ->
  map PyStr.lower p = map PyStr.lower w /\ c' = c.
Proof.
  revert p c. induction w as [|a w IH]; intros p c.
  - intros [-> ->]. auto.
  - intros (p1 & p2 & c1 & -> & (b & -> & Hb & ->) & H).
    apply IH in H as [H ->]. apply Ascii.eqb_eq in Hb.
    cbn [app map]. now rewrite H, Hb.
Qed.

Lemma den_lit (w p rest : str) (c c' : captures) :
  den (lit w) p rest c c' -> p = w /\ c' = c.
Proof.
  revert p c. induction w as [|a w IH]; intros p c.
  - intros [-> ->]. auto.
  - intros (p1 & p2 & c1 & -> & (b & -> & Hb & ->) & H).
    apply IH in H as [-> ->]. apply Ascii.eqb_eq in Hb. now subst.
Qed.

Lemma den_any_of (rs : list regex) (p rest : str) (c c' : captures) :
  den (any_of rs) p rest c c' -> exists r, In r rs /\ den r p rest c c'.
Proof.
  induction rs as [|r more IH].
  - intros (a & _ & F & _). discriminate.
  - destruct more as [|r' more].
    + intros H. exists r. split; [now left|exact H].
    + intros [H|H].
      * exists r. split; [now left|exact H].
      * apply IH in H as (r0 & Hin & H). exists r0. split; [now right|exact H].
Qed.

Lemma den_two (f g : ascii -> bool) (p rest : str) (c c' : captures) :
  den (Cat (Class f) (Class g)) p rest c c' ->
  exists a b, p = [a; b] /\ f a = true /\ g b = true /\ c' = c.
Proof.
  intros (p1 & p2 & c1 & -> & (a & -> & Fa & ->) & (b & -> & Fb & ->)).
  now exists a, b.
Qed.

(** The text and the groups of a date match. *)
Lemma den_date_regex (keys : list str) (p rest : str) (c m : captures) :
  den (date_regex keys) p rest c m ->
  exists d1 d2 mon y1 y2 y3 y4 sp h1 h2 m1 m2 key,
    p = [d1; d2] ++ py "-" ++ mon ++ py "-" ++ [y1; y2; y3; y4] ++ sp ++
        [h1; h2] ++ py ":" ++ [m1; m2] /\
    m = [ ("minutes"%string, [m1; m2]); ("hours"%string, [h1; h2]);
          ("year"%string, [y1; y2; y3; y4]); ("month"%string, mon);
          ("day"%string, [d1; d2]) ] ++ c /\
    sp <> [] /\ forallb PyStr.isspace sp = true /\
    PyStr.in_range "0" "3" d1 = true /\ is_digit d2 = true /\
    In key keys /\ map PyStr.lower mon = map PyStr.lower key /\
    is_digit y1 = true /\ is_digit y2 = true /\
    is_digit y3 = true /\ is_digit y4 = true /\
    PyStr.in_range "0" "2" h1 = true /\ is_digit h2 = true /\
    PyStr.in_range "0" "5" m1 = true /\ is_digit m2 = true.
Proof.
  unfold date_regex.
  intros (p1 & q1 & c1 & -> & (c1' & Hday & ->) & H).
  apply den_two in Hday as (d1 & d2 & -> & Hd1 & Hd2 & ->).
  destruct H as (p2 & q2 & c2 & -> & (a2 & -> & E2 & ->) & H).
  destruct H as (p3 & q3 & c3 & -> & (c3' & Hmon & ->) & H).
  apply den_any_of in Hmon as (r & Hr & Hmon).
  apply in_map_iff in Hr as (key & <- & Hkey).
  apply den_lit_i in Hmon as (Hmon & ->).
  destruct H as (p4 & q4 & c4 & -> & (a4 & -> & E4 & ->) & H).
  destruct H as (p5 & q5 & c5 & -> & (c5' & Hy & ->) & H).
  destruct Hy as (py1 & py2 & cy & -> & (y1 & -> & Hy1 & ->) & Hy).
  destruct Hy as (py3 & py4 & cy' & -> & (y2 & -> & Hy2 & ->) & Hy).
  apply den_two in Hy as (y3 & y4 & -> & Hy3 & Hy4 & ->).
  destruct H as (p6 & q6 & c6 & -> & Hsp & H).
  apply den_Plus_class in Hsp as (sp & sps & -> & Hsp & Hsps & ->).
  destruct H as (p7 & q7 & c7 & -> & (c7' & Hh & ->) & H).
  apply den_two in Hh as (h1 & h2 & -> & Hh1 & Hh2 & ->).
  destruct H as (p8 & q8 & c8 & -> & (a8 & -> & E8 & ->) & H).
  destruct H as (c8' & Hm & ->).
  apply den_two in Hm as (m1 & m2 & -> & Hm1 & Hm2 & ->).
  apply Ascii.eqb_eq in E2, E4, E8. subst a2 a4 a8.
  exists d1, d2, p3, y1, y2, y3, y4, (sp :: sps), h1, h2, m1, m2, key.
  split; [reflexivity|]. split; [reflexivity|]. split; [discriminate|].
  split; [cbn [forallb]; now rewrite Hsp, Hsps|].
  repeat split; assumption.
Qed.

Lemma digit_value_range (a : ascii) :
  is_digit a = true -> (0 <= digit_value a <= 9)%Z.
Proof.
  unfold is_digit, PyStr.in_range, digit_value.
  change (nat_of_ascii "0") with 48%nat. change (nat_of_ascii "9") with 57%nat.
  intros H. apply andb_true_iff in H as [H1 H2].
  apply Nat.leb_le in H1, H2. lia.
Qed.

Lemma digit_value_upto (hi a : ascii) :
  PyStr.in_range "0" hi a = true -> (nat_of_ascii hi <= 57)%nat ->
  is_digit a = true /\
  (0 <= digit_value a <= Z.of_nat (nat_of_ascii hi - 48))%Z.
Proof.
  unfold is_digit, PyStr.in_range, digit_value.
  change (nat_of_ascii "0") with 48%nat. change (nat_of_ascii "9") with 57%nat.
  intros H Hhi. apply andb_true_iff in H as [H1 H2].
  apply Nat.leb_le in H1, H2. split; [|lia].
  apply andb_true_iff. split; apply Nat.leb_le; lia.
Qed.

Lemma month_lookup (key : str) :
  In key (map fst _MONTHS) ->
  exists n, (1 <= n <= 12)%Z /\
            In (map PyStr.lower key, n) _MONTHS /\
            lookup _MONTHS (map PyStr.lower key) = Some n.
Proof.
  cbn [map fst _MONTHS]. intros H.
  repeat (destruct H as [<-|H];
          [eexists; split; [|split; [|vm_compute; reflexivity]];
           [lia|vm_compute; tauto]|]).
  contradiction.
Qed.

(** What the date pattern finds in a line: the text and its groups. *)
Lemma date_match_groups (keys : list str) (line : str)
      (date_match : captures) :
  Permutation keys (map fst _MONTHS) ->
  re_search (date_regex keys) line = Some date_match ->
  exists before after d1 d2 mon y1 y2 y3 y4 sp h1 h2 m1 m2 n,
    line = before ++
           ([d1; d2] ++ py "-" ++ mon ++ py "-" ++ [y1; y2; y3; y4] ++ sp ++
            [h1; h2] ++ py ":" ++ [m1; m2]) ++ after /\
    date_match =
      [ ("minutes"%string, [m1; m2]); ("hours"%string, [h1; h2]);
        ("year"%string, [y1; y2; y3; y4]); ("month"%string, mon);
        ("day"%string, [d1; d2]) ] /\
    sp <> [] /\ forallb PyStr.isspace sp = true /\
    PyStr.in_range "0" "3" d1 = true /\ is_digit d2 = true /\
    In (map PyStr.lower mon, n) _MONTHS /\
    lookup _MONTHS (map PyStr.lower mon) = Some n /\ (1 <= n <= 12)%Z /\
    is_digit y1 = true /\ is_digit y2 = true /\
    is_digit y3 = true /\ is_digit y4 = true /\
    PyStr.in_range "0" "2" h1 = true /\ is_digit h2 = true /\
    PyStr.in_range "0" "5" m1 = true /\ is_digit m2 = true.
Proof.
  intros P H. apply re_search_sound in H as (before & p & rest & -> & D).
  apply den_date_regex in D
    as (d1 & d2 & mon & y1 & y2 & y3 & y4 & sp & h1 & h2 & m1 & m2 & key &
        -> & -> & Hsp1 & Hsp2 & Hd1 & Hd2 & Hkey & Hmon & Hrest).
  apply (Permutation_in _ P) in Hkey.
  apply month_lookup in Hkey as (n & Hn & Hin & L).
  rewrite <- Hmon in L, Hin.
  exists before, rest, d1, d2, mon, y1, y2, y3, y4, sp, h1, h2, m1, m2, n.
  repeat split; try tauto; lia.
Qed.

(** The timestamp computed from such groups. *)
Lemma timestamp_of_groups (d1 d2 : ascii) (mon : str)
      (y1 y2 y3 y4 h1 h2 m1 m2 : ascii) (n : Z) :
  is_digit d1 = true -> is_digit d2 = true ->
  lookup _MONTHS (map PyStr.lower mon) = Some n ->
  is_digit y1 = true -> is_digit y2 = true ->
  is_digit y3 = true -> is_digit y4 = true ->
  is_digit h1 = true -> is_digit h2 = true ->
  is_digit m1 = true -> is_digit m2 = true ->
  timestamp_of
    [ ("minutes"%string, [m1; m2]); ("hours"%string, [h1; h2]);
      ("year"%string, [y1; y2; y3; y4]); ("month"%string, mon);
      ("day"%string, [d1; d2]) ] =
  make_datetime
    (10 * (10 * (10 * (10 * 0 + digit_value y1) + digit_value y2)
           + digit_value y3) + digit_value y4)
    n
    (10 * (10 * 0 + digit_value d1) + digit_value d2)
    (10 * (10 * 0 + digit_value h1) + digit_value h2)
    (10 * (10 * 0 + digit_value m1) + digit_value m2).
Proof.
  intros Hd1 Hd2 L Hy1 Hy2 Hy3 Hy4 Hh1 Hh2 Hm1 Hm2.
  unfold timestamp_of.
  change (group_text _ "year") with [y1; y2; y3; y4].
  change (group_text _ "month") with mon.
  change (group_text _ "day") with [d1; d2].
  change (group_text _ "hours") with [h1; h2].
  change (group_text _ "minutes") with [m1; m2].
  cbn [py_int int_from].
  rewrite L, Hd1, Hd2, Hy1, Hy2, Hy3, Hy4, Hh1, Hh2, Hm1, Hm2.
  reflexivity.
Qed.

Lemma in_range_digit (hi a : ascii) :
  PyStr.in_range "0" hi a = true -> (nat_of_ascii hi <= 57)%nat ->
  is_digit a = true.
Proof. intros H L. now apply (@digit_value_upto hi a H L). Qed.

(** X16. When the date pattern finds a date in a line, in whatever order
    its month names are tried, the line has there two digits, [-], a month
    name in some letter case, [-], four digits, white space, two digits,
    [:] and two digits; the conversions by [int] and the lookup of the
    month succeed, and the timestamp is what the [datetime] constructor
    makes of the decimal values of those digits and the number of that
    month: a timestamp, or the constructor's [ValueError].  The pattern
    bounds the first digit of the day by 3, of the hour by 2 and of the
    minute by 5; so days up to 39, hours up to 29 and the year 0000 reach
    the constructor, which refuses them. *)
Theorem date_match_gives_timestamp_or_ValueError (keys : list str)
        (line : str) (date_match : captures) :
  Permutation keys (map fst _MONTHS) ->
  re_search (date_regex keys) line = Some date_match ->
  exists before after d1 d2 mon y1 y2 y3 y4 sp h1 h2 m1 m2 n,
    line = before ++
           ([d1; d2] ++ py "-" ++ mon ++ py "-" ++ [y1; y2; y3; y4] ++ sp ++
            [h1; h2] ++ py ":" ++ [m1; m2]) ++ after /\
    forallb is_digit [d1; d2; y1; y2; y3; y4; h1; h2; m1; m2] = true /\
    (digit_value d1 <= 3 /\ digit_value h1 <= 2 /\ digit_value m1 <= 5)%Z /\
    sp <> [] /\ forallb PyStr.isspace sp = true /\
    In (map PyStr.lower mon, n) _MONTHS /\
    timestamp_of date_match =
    make_datetime
      (1000 * digit_value y1 + 100 * digit_value y2 +
       10 * digit_value y3 + digit_value y4)
      n
      (10 * digit_value d1 + digit_value d2)
      (10 * digit_value h1 + digit_value h2)
      (10 * digit_value m1 + digit_value m2).
Proof.
  intros P H.
  destruct (@date_match_groups keys line _ P H)
    as (before & after & d1 & d2 & mon & y1 & y2 & y3 & y4 & sp & h1 & h2 &
        m1 & m2 & n & -> & -> & Hsp1 & Hsp2 & Hd1 & Hd2 & Hin & L & Hn &
        Hy1 & Hy2 & Hy3 & Hy4 & Hh1 & Hh2 & Hm1 & Hm2).
  apply digit_value_upto in Hd1 as [Hd1 Rd1]; [|vm_compute; lia].
  apply digit_value_upto in Hh1 as [Hh1 Rh1]; [|vm_compute; lia].
  apply digit_value_upto in Hm1 as [Hm1 Rm1]; [|vm_compute; lia].
  change (Z.of_nat (nat_of_ascii "3" - 48)) with 3%Z in Rd1.
  change (Z.of_nat (nat_of_ascii "2" - 48)) with 2%Z in Rh1.
  change (Z.of_nat (nat_of_ascii "5" - 48)) with 5%Z in Rm1.
  exists before, after, d1, d2, mon, y1, y2, y3, y4, sp, h1, h2, m1, m2, n.
  split; [reflexivity|]. split.
  { cbn [forallb].
    now rewrite Hd1, Hd2, Hy1, Hy2, Hy3, Hy4, Hh1, Hh2, Hm1, Hm2. }
  split; [lia|]. split; [exact Hsp1|]. split; [exact Hsp2|].
  split; [exact Hin|].
  etransitivity;
    [apply (@timestamp_of_groups d1 d2 mon y1 y2 y3 y4 h1 h2 m1 m2 n);
     assumption|].
  f_equal; lia.
Qed.

Lemma date_match_gives_timestamp_or_ValueError_witness :
  exists before after d1 d2 mon y1 y2 y3 y4 sp h1 h2 m1 m2 n,
    py "10.0.648.0/  22-Jan-2011 08:15  -" =
      before ++
      ([d1; d2] ++ py "-" ++ mon ++ py "-" ++ [y1; y2; y3; y4] ++ sp ++
       [h1; h2] ++ py ":" ++ [m1; m2]) ++ after /\
    forallb is_digit [d1; d2; y1; y2; y3; y4; h1; h2; m1; m2] = true /\
    (digit_value d1 <= 3 /\ digit_value h1 <= 2 /\ digit_value m1 <= 5)%Z /\
    sp <> [] /\ forallb PyStr.isspace sp = true /\
    In (map PyStr.lower mon, n) _MONTHS /\
    timestamp_of [ ("minutes"%string, py "15"); ("hours"%string, py "08");
                   ("year"%string, py "2011"); ("month"%string, py "Jan");
                   ("day"%string, py "22") ] =
    make_datetime
      (1000 * digit_value y1 + 100 * digit_value y2 +
       10 * digit_value y3 + digit_value y4)
      n
      (10 * digit_value d1 + digit_value d2)
      (10 * digit_value h1 + digit_value h2)
      (10 * digit_value m1 + digit_value m2).
Proof.
  apply (@date_match_gives_timestamp_or_ValueError (map fst _MONTHS)
           (py "10.0.648.0/  22-Jan-2011 08:15  -")).
  - apply Permutation_refl.
  - vm_compute. reflexivity.
Defined.

(** *** The errors of [GetBuildIndex] *)

Lemma make_datetime_error (y m d h mi : Z) (e : Error) :
  make_datetime y m d h mi = inl e -> e = ValueError.
Proof.
  unfold make_datetime.
  destruct (_ && _)%bool; [discriminate|]. now intros [= <-].
Qed.

Lemma timestamp_error (keys : list str) (line : str)
      (date_match : captures) (e : Error) :
  Permutation keys (map fst _MONTHS) ->
  re_search (date_regex keys) line = Some date_match ->
  timestamp_of date_match = inl e -> e = ValueError.
Proof.
  intros P H.
  destruct (@date_match_groups keys line _ P H)
    as (before & after & d1 & d2 & mon & y1 & y2 & y3 & y4 & sp & h1 & h2 &
        m1 & m2 & n & _ & -> & _ & _ & Hd1 & Hd2 & _ & L & Hn &
        Hy1 & Hy2 & Hy3 & Hy4 & Hh1 & Hh2 & Hm1 & Hm2).
  intros T. eapply make_datetime_error.
  etransitivity; [symmetry|exact T].
  apply (@timestamp_of_groups d1 d2 mon y1 y2 y3 y4 h1 h2 m1 m2 n);
    try assumption.
  - apply (@in_range_digit _ _ Hd1). vm_compute. lia.
  - apply (@in_range_digit _ _ Hh1). vm_compute. lia.
  - apply (@in_range_digit _ _ Hm1). vm_compute. lia.
Qed.

Lemma scan_listing_error (keys : list str) (self : ChromeRepo)
      (lines : list str) :
  Permutation keys (map fst _MONTHS) ->
  forall (acc : list entry) (e : Error),
    scan_listing keys self lines acc = inl e ->
    exists line,
      In line lines /\
      re_search (build_id_regex (build_id_pattern self)) line <> None /\
      ((e = FormatError /\ re_search (date_regex keys) line = None) \/
       (e = ValueError /\
        exists date_match,
          re_search (date_regex keys) line = Some date_match /\
          timestamp_of date_match = inl ValueError)).
Proof.
  intros P. induction lines as [|line more IH]; intros acc e;
    cbn [scan_listing]; [discriminate|].
  destruct (re_search (build_id_regex (build_id_pattern self)) line)
    as [id_match|] eqn:Eid.
  - destruct (re_search (date_regex keys) line) as [date_match|] eqn:Ed.
    + destruct (timestamp_of date_match) as [e'|timestamp] eqn:Et.
      * intros [= <-]. exists line. split; [now left|].
        split; [congruence|]. right.
        assert (e' = ValueError) as ->
            by exact (@timestamp_error keys line date_match e' P Ed Et).
        split; [reflexivity|]. exists date_match.
        split; [exact Ed|exact Et].
      * intros H. apply IH in H as (l & Hin & H).
        exists l. split; [now right|exact H].
    + intros [= <-]. exists line. split; [now left|].
      split; [congruence|]. now left.
  - intros H. apply IH in H as (l & Hin & H).
    exists l. split; [now right|exact H].
Qed.

(** X17. What the exceptions of [GetBuildIndex] mean, for a request that
    the server answers.  [DownloadError] is raised exactly when the answer
    to the listing request has another status than 200.  When
    [FormatError] is raised, some line of the listing has a build id but
    no date.  When the [ValueError] of [int] or of [datetime] comes out of
    it, some line has a build id and a date that the [datetime]
    constructor refuses.  The lookup of the month never raises [KeyError],
    and [NotFoundError] is not raised here. *)
Theorem GetBuildIndex_errors (keys : list str) (self : ChromeRepo)
        (srv : server) :
  Permutation keys (map fst _MONTHS) ->
  (GetBuildIndex_with keys self srv = inl DownloadError <->
   fst (srv GET (index_path self)) <> 200%Z) /\
  (GetBuildIndex_with keys self srv = inl FormatError ->
   exists line,
     In line (split_nl (snd (srv GET (index_path self)))) /\
     re_search (build_id_regex (build_id_pattern self)) line <> None /\
     re_search (date_regex keys) line = None) /\
  (GetBuildIndex_with keys self srv = inl ValueError ->
   exists line date_match,
     In line (split_nl (snd (srv GET (index_path self)))) /\
     re_search (build_id_regex (build_id_pattern self)) line <> None /\
     re_search (date_regex keys) line = Some date_match /\
     timestamp_of date_match = inl ValueError) /\
  GetBuildIndex_with keys self srv <> inl KeyError /\
  GetBuildIndex_with keys self srv <> inl NotFoundError.
Proof.
  intros P. unfold GetBuildIndex_with.
  destruct (srv GET (index_path self)) as [status body]. cbn [fst snd].
  destruct (status =? 200)%Z eqn:E; cbn [negb].
  - apply Z.eqb_eq in E.
    destruct (scan_listing keys self (split_nl body) []) as [e|index] eqn:S.
    + destruct (@scan_listing_error keys self (split_nl body) P [] e S)
        as (line & Hin & Hid & [(-> & Hd)|(-> & dm & Hd & Ht)]).
      * repeat split; try discriminate; try congruence.
        intros _. now exists line.
      * repeat split; try discriminate; try congruence.
        intros _. now exists line, dm.
    + repeat split; try discriminate; congruence.
  - apply Z.eqb_neq in E. repeat split; try discriminate; auto.
Qed.

Lemma GetBuildIndex_errors_witness :
  exists line date_match,
    In line (split_nl (snd (impossible_date_server GET
                              (index_path sample_repo)))) /\
    re_search (build_id_regex (build_id_pattern sample_repo)) line <> None /\
    re_search (date_regex (map fst _MONTHS)) line = Some date_match /\
    timestamp_of date_match = inl ValueError.
Proof.
  destruct (@GetBuildIndex_errors (map fst _MONTHS) sample_repo
              impossible_date_server (Permutation_refl _))
    as (_ & _ & H & _).
  apply H. vm_compute. reflexivity.
Defined.

(** *** Where the entries of the index come from *)

Lemma timestamp_of_inr (date_match : captures) (t : datetime) :
  timestamp_of date_match = inr t ->
  (1 <= year t <= 9999 /\ 1 <= month t <= 12 /\
   1 <= day t <= days_in_month (year t) (month t) /\
   0 <= hour t <= 23 /\ 0 <= minute t <= 59)%Z.
Proof.
  unfold timestamp_of.
  destruct (need ValueError (py_int (group_text date_match "year")))
    as [|y]; [discriminate|].
  destruct (need KeyError _) as [|m]; [discriminate|].
  destruct (need ValueError (py_int (group_text date_match "day")))
    as [|d]; [discriminate|].
  destruct (need ValueError (py_int (group_text date_match "hours")))
    as [|h]; [discriminate|].
  destruct (need ValueError (py_int (group_text date_match "minutes")))
    as [|mi]; [discriminate|].
  unfold make_datetime.
  destruct (_ && _)%bool eqn:E; [|discriminate].
  intros [= <-]. cbn [year month day hour minute].
  repeat (apply andb_true_iff in E as [E ?]).
  repeat match goal with H : (_ <=? _)%Z = true |- _ =>
    apply Z.leb_le in H end.
  lia.
Qed.

Lemma den_build_id_regex (pat : regex) (p rest : str) (m : captures) :
  den (build_id_regex pat) p rest [] m ->
  exists c,
    p = py "href=" ++ [dquote] ++ group_text m "id" ++ py "/" ++ [dquote] /\
    den pat (group_text m "id") (py "/" ++ [dquote] ++ rest) [] c.
Proof.
  unfold build_id_regex.
  intros (p1 & q1 & c1 & -> & H1 & (p2 & q2 & c2 & -> & (c2' & H2 & ->) & H3)).
  apply den_lit in H1 as [-> ->]. apply den_lit in H3 as [-> ->].
  exists c2'. change (group_text (("id"%string, p2) :: c2') "id") with p2.
  split; [now rewrite <- !app_assoc|].
  now rewrite <- app_assoc in H2.
Qed.

Lemma scan_listing_entries (keys : list str) (self : ChromeRepo)
      (lines : list str) :
  forall (acc index : list entry),
    scan_listing keys self lines acc = inr index ->
    forall x, In x index ->
      In x acc \/
      exists line id_match date_match,
        In line lines /\
        re_search (build_id_regex (build_id_pattern self)) line =
        Some id_match /\
        fst x = group_text id_match "id" /\
        timestamp_of date_match = inr (snd x).
Proof.
  induction lines as [|line more IH]; intros acc index;
    cbn [scan_listing].
  - intros [= <-] x Hx. now left.
  - destruct (re_search (build_id_regex (build_id_pattern self)) line)
      as [id_match|] eqn:Eid.
    + destruct (re_search (date_regex keys) line) as [date_match|] eqn:Ed;
        [|discriminate].
      destruct (timestamp_of date_match) as [e'|timestamp] eqn:Et;
        [discriminate|].
      intros H x Hx. destruct (IH _ _ H x Hx) as [Hin|Hin].
      * apply in_app_or in Hin as [Hin|[<-|[]]]; [now left|].
        right. exists line, id_match, date_match. cbn [fst snd].
        repeat split; auto. now left.
      * right. destruct Hin as (l & im & dm & Hl & Hrest).
        exists l, im, dm. split; [now right|exact Hrest].
    + intros H x Hx. destruct (IH _ _ H x Hx) as [Hin|Hin]; [now left|].
      right. destruct Hin as (l & im & dm & Hl & Hrest).
      exists l, im, dm. split; [now right|exact Hrest].
Qed.

Lemma index_entry_line (keys : list str) (self : ChromeRepo)
      (srv : server) (index : list entry) (x : entry) :
  GetBuildIndex_with keys self srv = inr index ->
  In x index ->
  exists line id_match date_match,
    In line (split_nl (snd (srv GET (index_path self)))) /\
    re_search (build_id_regex (build_id_pattern self)) line = Some id_match /\
    fst x = group_text id_match "id" /\
    timestamp_of date_match = inr (snd x).
Proof.
  intros H Hin.
  apply GetBuildIndex_with_inr in H as (_ & scanned & Hs & ->).
  apply (Permutation_in _ (Permutation_sym (sorted_newest_first_perm scanned)))
    in Hin.
  destruct (@scan_listing_entries keys self _ [] scanned Hs _ Hin)
    as [[]|H]. exact H.
Qed.

(** X18. Every entry of the index that [GetBuildIndex] returns comes from
    a line of the listing: its build id stands there between [href="] and
    [/"] and is a text that the build-id pattern matches at that place; and
    its timestamp is a date and time of the calendar. *)
Theorem index_entries_come_from_links (keys : list str) (self : ChromeRepo)
        (srv : server) (index : list entry) (build_id : str)
        (timestamp : datetime) :
  GetBuildIndex_with keys self srv = inr index ->
  In (build_id, timestamp) index ->
  (exists line before after c,
     In line (split_nl (snd (srv GET (index_path self)))) /\
     line = before ++ py "href=" ++ [dquote] ++ build_id ++
            py "/" ++ [dquote] ++ after /\
     den (build_id_pattern self) build_id (py "/" ++ [dquote] ++ after) [] c)
  /\
  (1 <= year timestamp <= 9999 /\ 1 <= month timestamp <= 12 /\
   1 <= day timestamp <= days_in_month (year timestamp) (month timestamp) /\
   0 <= hour timestamp <= 23 /\ 0 <= minute timestamp <= 59)%Z.
Proof.
  intros H Hin.
  destruct (@index_entry_line _ _ _ _ _ H Hin)
    as (line & id_match & date_match & Hl & Hid & E1 & E2).
  cbn [fst snd] in E1, E2. split; [|exact (@timestamp_of_inr _ _ E2)].
  apply re_search_sound in Hid as (before & p & after & -> & D).
  apply den_build_id_regex in D as (c & -> & D). rewrite <- E1 in *.
  exists (before ++ (py "href=" ++ [dquote] ++ build_id ++ py "/" ++ [dquote])
            ++ after), before, after, c.
  split; [exact Hl|]. split; [now rewrite <- !app_assoc|exact D].
Qed.

Lemma index_entries_come_from_links_witness :
  (exists line before after c,
     In line (split_nl (snd (sample_server GET (index_path sample_repo)))) /\
     line = before ++ py "href=" ++ [dquote] ++ py "10.0.649.0" ++
            py "/" ++ [dquote] ++ after /\
     den (build_id_pattern sample_repo) (py "10.0.649.0")
         (py "/" ++ [dquote] ++ after) [] c)
  /\
  (1 <= 2011 <= 9999 /\ 1 <= 1 <= 12 /\
   1 <= 25 <= days_in_month 2011 1 /\
   0 <= 10 <= 23 /\ 0 <= 30 <= 59)%Z.
Proof.
  apply (@index_entries_come_from_links (map fst _MONTHS) sample_repo
           sample_server sample_index (py "10.0.649.0")
           (mkDatetime 2011 1 25 10 30)).
  - vm_compute. reflexivity.
  - right. left. reflexivity.
Defined.

End RepoDates.

Section RepoMonths.
Import Repo.

(** The matcher respects the pointwise equality of continuations. *)
Lemma rmatch_ext (R : Type) (r : regex) :
  forall s c (k k' : str -> captures -> option R),
    (forall s1 c1, k s1 c1 = k' s1 c1) ->
    rmatch r s c k = rmatch r s c k'.
Proof.
  induction r as [|f|r1 IH1 r2 IH2|r1 IH1 r2 IH2|r1 IH1|name r1 IH1|];
    intros s c k k' E.
  - apply E.
  - cbn [rmatch]. destruct s as [|a t]; [reflexivity|].
    destruct (f a); [apply E|reflexivity].
  - rewrite !rmatch_Cat. apply IH1. intros s1 c1. now apply IH2.
  - rewrite !rmatch_Or. now rewrite (IH1 s c k k' E), (IH2 s c k k' E).
  - rewrite !rmatch_Star. generalize (length s) as n. intros n.
    revert s c. induction n as [|n IHn]; intros s c.
    + rewrite !iter_O. apply E.
    + rewrite !iter_S.
      rewrite (IH1 s c _
                 (fun s1 c1 => if (length s1 <? length s)%nat
                               then iter r1 k' n s1 c1 else None)).
      * now rewrite E.
      * intros s1 c1. destruct (length s1 <? length s)%nat; [apply IHn|auto].
  - rewrite !rmatch_Named. apply IH1. intros s1 c1. apply E.
  - cbn [rmatch]. destruct (at_end s); [apply E|reflexivity].
Qed.

(** An alternation of words of one length, under IGNORECASE: whichever
    word matches, the continuation sees the same state. *)
Lemma rmatch_any_of_lit_i (R : Type) (n : nat) (keys : list str) :
  Forall (fun key => length key = n) keys ->
  forall s c (k : str -> captures -> option R),
    rmatch (any_of (map lit_i keys)) s c k =
    if existsb (fun key => PyStr.startswith (map PyStr.lower key)
                                            (map PyStr.lower s)) keys
    then k (skipn n s) c else None.
Proof.
  induction 1 as [|key more Hkey Hmore IH]; intros s c k.
  - cbn. now destruct s.
  - cbn [map existsb].
    assert (E : rmatch (any_of (lit_i key :: map lit_i more)) s c k =
                match rmatch (lit_i key) s c k with
                | Some x => Some x
                | None => rmatch (any_of (map lit_i more)) s c k
                end).
    { destruct more as [|key' more']; [|reflexivity].
      cbn [map any_of]. destruct (rmatch (lit_i key) s c k); [reflexivity|].
      cbn. now destruct s. }
    rewrite E, rmatch_lit_i, IH, Hkey.
    destruct (PyStr.startswith (map PyStr.lower key) (map PyStr.lower s));
      cbn [orb]; [|reflexivity].
    destruct (k (skipn n s) c); [reflexivity|].
    now destruct (existsb _ more).
Qed.

Lemma existsb_perm (A : Type) (f : A -> bool) (l l' : list A) :
  Permutation l l' -> existsb f l = existsb f l'.
Proof.
  intros P. apply eq_true_iff_eq. rewrite !existsb_exists.
  split; intros (x & Hin & Hx); exists x; split; auto.
  - now apply (Permutation_in _ P).
  - now apply (Permutation_in _ (Permutation_sym P)).
Qed.

Lemma month_keys_length (keys : list str) :
  Permutation keys (map fst _MONTHS) ->
  Forall (fun key => length key = 3%nat) keys.
Proof.
  intros P. apply (Permutation_Forall (Permutation_sym P)).
  repeat constructor.
Qed.

Lemma rmatch_date_regex_order (R : Type) (keys : list str) :
  Permutation keys (map fst _MONTHS) ->
  forall s c (k : str -> captures -> option R),
    rmatch (date_regex keys) s c k = rmatch _BUILD_DATE_REGEX s c k.
Proof.
  intros P s c k. unfold _BUILD_DATE_REGEX, date_regex.
  rewrite !(rmatch_Cat (Named "day" _)). apply rmatch_ext. intros s1 c1.
  rewrite !(rmatch_Cat (chr "-")). apply rmatch_ext. intros s2 c2.
  rewrite !(rmatch_Cat (Named "month" _)), !rmatch_Named.
  rewrite (@rmatch_any_of_lit_i _ 3 keys (month_keys_length P)).
  rewrite (@rmatch_any_of_lit_i _ 3 (map fst _MONTHS)
             (month_keys_length (Permutation_refl _))).
  now rewrite (existsb_perm _ P).
Qed.

Lemma re_search_date_regex_order (keys : list str) (line : str) :
  Permutation keys (map fst _MONTHS) ->
  re_search (date_regex keys) line = re_search _BUILD_DATE_REGEX line.
Proof.
  intros P. induction line as [|a t IH]; cbn [re_search]; unfold re_match;
    rewrite (rmatch_date_regex_order P); [reflexivity|].
  now rewrite IH.
Qed.

Lemma scan_listing_order (keys : list str) (self : ChromeRepo)
      (lines : list str) :
  Permutation keys (map fst _MONTHS) ->
  forall acc,
    scan_listing keys self lines acc =
    scan_listing (map fst _MONTHS) self lines acc.
Proof.
  intros P. induction lines as [|line more IH]; intros acc;
    cbn [scan_listing]; [reflexivity|].
  rewrite (re_search_date_regex_order line P).
  change (date_regex (map fst _MONTHS)) with _BUILD_DATE_REGEX.
  destruct (re_search _ line); [|apply IH].
  destruct (re_search _BUILD_DATE_REGEX line) as [date_match|];
    [|reflexivity].
  destruct (timestamp_of date_match); [reflexivity|apply IH].
Qed.

(** X19. The order in which [_MONTHS.keys()] lists the month names, which
    the language does not fix, has no effect on [GetBuildIndex]: the month
    names have one length, so that the alternation of the date pattern
    hands on the same state whichever name matches. *)
Theorem month_order_is_irrelevant (keys : list str) (self : ChromeRepo)
        (srv : server) :
  Permutation keys (map fst _MONTHS) ->
  GetBuildIndex_with keys self srv = GetBuildIndex self srv.
Proof.
  intros P. unfold GetBuildIndex, GetBuildIndex_with.
  destruct (srv GET (index_path self)) as [status body].
  now rewrite (scan_listing_order self (split_nl body) P).
Qed.

Lemma month_order_is_irrelevant_witness :
  GetBuildIndex_with (rev (map fst _MONTHS)) sample_repo sample_server =
  GetBuildIndex sample_repo sample_server.
Proof.
  apply (@month_order_is_irrelevant (rev (map fst _MONTHS)) sample_repo
           sample_server).
  apply Permutation_sym, Permutation_rev.
Defined.

End RepoMonths.

Section RepoLatest.
Import Repo.

(** X20. Called without an index, [GetLatestBuildId] fails just as
    [GetBuildIndex] does; otherwise the build it returns is listed, has all
    required files, and is not older than any other listed build that has
    them all; and it returns [(None, None)] exactly when no listed build
    has them all. *)
Theorem latest_build_is_newest_complete (self : ChromeRepo) (srv : server) :
  match fst (GetLatestBuildId self srv None) with
  | inl e => GetBuildIndex self srv = inl e
  | inr (Some build_id, Some timestamp) =>
      exists index,
        GetBuildIndex self srv = inr index /\
        In (build_id, timestamp) index /\
        complete self srv (build_id, timestamp) = true /\
        forall e, In e index -> complete self srv e = true ->
                  not_older (build_id, timestamp) e
  | inr (None, None) =>
      exists index,
        GetBuildIndex self srv = inr index /\
        Forall (fun e => complete self srv e = false) index
  | _ => False
  end.
Proof.
  cbn [GetLatestBuildId].
  destruct (GetBuildIndex self srv) as [e|index] eqn:G; [reflexivity|].
  pose proof (search_index_result self srv index) as H.
  destruct (search_index self srv index) as [[[id|] [ts|]] requested];
    cbn [fst] in *; try contradiction.
  - destruct H as (skipped & later & -> & Hc & Hs).
    exists (skipped ++ (id, ts) :: later).
    split; [reflexivity|]. split; [apply in_elt|]. split; [exact Hc|].
    intros e Hin He.
    apply GetBuildIndex_with_inr in G as (_ & scanned & _ & G).
    pose proof (sorted_newest_first_sorted scanned) as S. rewrite <- G in S.
    apply in_app_or in Hin as [Hin|[<-|Hin]].
    + rewrite Forall_forall in Hs. apply Hs in Hin. congruence.
    + apply not_older_refl.
    + clear - S Hin. induction skipped as [|x skipped IH].
      * apply StronglySorted_inv in S as [_ F].
        rewrite Forall_forall in F. now apply F.
      * apply StronglySorted_inv in S as [S _]. now apply IH.
  - now exists index.
Qed.

End RepoLatest.

Section RepoDefault.
Import Repo.

Lemma digit_is_not_slash (a : ascii) :
  is_digit a = true -> ("/" =? a)%char = false.
Proof.
  intros H. destruct ("/" =? a)%char eqn:E; [|reflexivity].
  apply Ascii.eqb_eq in E. subst a. discriminate.
Qed.

Lemma digits_do_not_end_in_slash (p : str) :
  forallb is_digit p = true -> endswith (py "/") p = false.
Proof.
  intros H. unfold endswith. cbn [py list_ascii_of_string rev app].
  destruct (rev p) as [|a t] eqn:E; [reflexivity|].
  cbn [PyStr.startswith]. rewrite digit_is_not_slash; [reflexivity|].
  rewrite forallb_forall in H. apply H, in_rev. rewrite E. now left.
Qed.

(** What the default pattern matches: four runs of digits with dots
    between them. *)
Lemma den_default_pattern (p rest : str) (c c' : captures) :
  den DEFAULT_BUILD_ID_PATTERN p rest c c' ->
  p <> [] /\ PyStr.startswith (py "/") p = false /\
  endswith (py "/") p = false /\
  forallb (fun a => is_digit a || (a =? ".")%char) p = true.
Proof.
  unfold DEFAULT_BUILD_ID_PATTERN, digits.
  intros (p1 & q1 & c1 & -> & H1 & (d1 & q2 & c2 & -> & (a1 & -> & D1 & ->) &
          (p2 & q3 & c3 & -> & H2 & (d2 & q4 & c4 & -> & (a2 & -> & D2 & ->) &
          (p3 & q5 & c5 & -> & H3 & (d3 & q6 & c6 & -> & (a3 & -> & D3 & ->) &
           H4)))))).
  apply den_Plus_class in H1 as (x1 & t1 & -> & X1 & T1 & ->).
  apply den_Plus_class in H2 as (x2 & t2 & -> & X2 & T2 & ->).
  apply den_Plus_class in H3 as (x3 & t3 & -> & X3 & T3 & ->).
  apply den_Plus_class in H4 as (x4 & t4 & -> & X4 & T4 & ->).
  apply Ascii.eqb_eq in D1, D2, D3. subst a1 a2 a3.
  split; [discriminate|]. split.
  - cbn [app py list_ascii_of_string PyStr.startswith].
    now rewrite digit_is_not_slash.
  - split.
    + rewrite !app_assoc. change (py "/") with ["/"].
      rewrite endswith_char_app by discriminate.
      apply digits_do_not_end_in_slash. cbn [forallb]. now rewrite X4.
    + assert (W : forall t, forallb is_digit t = true ->
                  forallb (fun a => is_digit a || (a =? ".")%char) t = true).
      { intros t Ht. rewrite forallb_forall in *. intros a Ha.
        now rewrite (Ht a Ha). }
      rewrite !forallb_app. cbn [forallb].
      rewrite X1, X2, X3, X4, !W by assumption. reflexivity.
Qed.

(** X21. With the default pattern for build ids, every build id of the
    index is made of digits and dots, and the path requested for any of its
    required files is the root, the id, [win] and the file joined by
    single slashes. *)
Theorem default_pattern_build_paths (keys : list str) (self : ChromeRepo)
        (srv : server) (index : list entry) (build_id : str)
        (timestamp : datetime) (file : str) :
  build_id_pattern self = DEFAULT_BUILD_ID_PATTERN ->
  GetBuildIndex_with keys self srv = inr index ->
  In (build_id, timestamp) index ->
  In file FILE_LIST ->
  forallb (fun a => is_digit a || (a =? ".")%char) build_id = true /\
  _GetFilePath self build_id file =
  (if str_eqb (_root_dir self) [] || endswith (py "/") (_root_dir self)
   then _root_dir self else _root_dir self ++ py "/")
  ++ build_id ++ py "/win/" ++ file.
Proof.
  intros Hp G Hin Hf.
  destruct (@index_entry_line _ _ _ _ _ G Hin)
    as (line & id_match & date_match & _ & Hid & E & _).
  apply re_search_sound in Hid as (before & p & after & _ & D).
  apply den_build_id_regex in D as (c & _ & D).
  cbn [fst] in E. rewrite <- E, Hp in D.
  apply den_default_pattern in D as (N & S & E' & F).
  split; [exact F|].
  assert (Hfile : PyStr.startswith (py "/") file = false).
  { cbn in Hf. repeat (destruct Hf as [<-|Hf]; [reflexivity|]).
    contradiction. }
  unfold _GetFilePath, posixpath_join. cbn [fold_left].
  rewrite (@join2_root _ _ S).
  rewrite (@join2_after_name _ build_id (py "win") N E' eq_refl).
  rewrite !app_assoc.
  rewrite (@join2_after_name _ (py "win") file);
    [|discriminate|reflexivity|exact Hfile].
  now rewrite <- !app_assoc.
Qed.

Lemma default_pattern_build_paths_witness :
  forallb (fun a => is_digit a || (a =? ".")%char) (py "11.0.652.0") = true /\
  _GetFilePath sample_repo (py "11.0.652.0") (py "chrome_dll.pdb") =
  (if str_eqb (_root_dir sample_repo) [] ||
      endswith (py "/") (_root_dir sample_repo)
   then _root_dir sample_repo else _root_dir sample_repo ++ py "/")
  ++ py "11.0.652.0" ++ py "/win/" ++ py "chrome_dll.pdb".
Proof.
  apply (@default_pattern_build_paths (map fst _MONTHS) sample_repo
           sample_server sample_index (py "11.0.652.0")
           (mkDatetime 2011 2 1 23 59) (py "chrome_dll.pdb")).
  - reflexivity.
  - vm_compute. reflexivity.
  - left. reflexivity.
  - right. right. right. right. left. reflexivity.
Defined.

End RepoDefault.
